(** * The rope of [src/rope.h]: an AVL tree of bounded byte runs

    A shallow embedding of the text buffer of the editor and the
    properties of its public operations.

    Modelling conventions.
    - A [RopeNode*] is a value of [RopeNode]: [nullptr] or a [Node] with
      every field of the C++ struct.  The tree is owned exclusively (no
      sharing), so pointers are replaced by the nodes they point to.
    - [size_t] and [int] values are integers of [Z], positions and
      lengths being non-negative.  No operation of the source wraps
      around on the paths that are modelled: every subtraction is guarded
      by a comparison, and the sums are lengths of strings that memory
      holds, far below [2^64] (heights far below [2^31]).  The one place
      where the source does wrap ([node->length - pos] with
      [pos > node->length] in [rope_node_insert]) is where it leaves the
      bounds of the leaf; it is modelled as a failure.  The sum
      [pos + length] of [rope_substr] adds two arguments of the caller and
      is modelled with its wrap-around at [2^64] ([size_t_add]).
    - The [data] array of a node is the list of its [length] live bytes:
      the field [length] is [Zlength data].  The terminating NUL that the
      source writes behind the live bytes (for a full leaf, one byte
      behind the array) is never read by the rope and is not part of the
      model.
    - A function of the source that dereferences a null pointer or reads
      or writes outside a byte run returns [None] at that point. *)

From Stdlib Require Import ZArith List Lia Bool.
From Stdlib Require Import Strings.Byte.
From Equations Require Import Equations.
Import ListNotations.

Open Scope Z_scope.

(** ** Bytes and byte runs *)

Definition take (n : Z) (l : list byte) : list byte := firstn (Z.to_nat n) l.
Definition drop (n : Z) (l : list byte) : list byte := skipn (Z.to_nat n) l.

(** [slice l pos len]: the bytes of [l] from index [pos], at most [len]. *)
Definition slice (l : list byte) (pos len : Z) : list byte :=
  take len (drop pos l).

Arguments take : simpl never.
Arguments drop : simpl never.
Arguments slice : simpl never.

Definition NUL : byte := x00.

(** ** Failure (undefined behaviour of the source) *)

Definition bind {A B : Type} (m : option A) (f : A -> option B) : option B :=
  match m with
  | Some a => f a
  | None => None
  end.

Notation "x <- m ;; k" := (bind m (fun x => k))
  (at level 61, m at next level, right associativity).

(** ** Nodes *)

Definition ROPE_NODE_CAPACITY : Z := 512.

Inductive RopeNode : Type :=
| nullptr : RopeNode
| Node (left right : RopeNode) (height : Z) (weight : Z)
       (is_leaf : bool) (data : list byte) : RopeNode.

Record Rope : Type := mkRope {
  root : RopeNode;
  total_length : Z
}.

(** [new RopeNode()] followed by the assignments of
    [rope_node_create_leaf]; [str] is the run of [len] bytes at the
    pointer of the source. *)
Definition rope_node_create_leaf (str : list byte) : RopeNode :=
  let len := Zlength str in
  let length := Z.min len ROPE_NODE_CAPACITY in
  Node nullptr nullptr 1 length true (take length str).

Definition rope_node_get_height (node : RopeNode) : Z :=
  match node with
  | nullptr => 0
  | Node _ _ height _ _ _ => height
  end.

Fixpoint rope_node_get_weight (node : RopeNode) : Z :=
  match node with
  | nullptr => 0
  | Node l r _ _ is_leaf data =>
      if is_leaf then Zlength data
      else rope_node_get_weight l + rope_node_get_weight r
  end.

Definition rope_node_update (node : RopeNode) : RopeNode :=
  match node with
  | nullptr => nullptr
  | Node l r _ _ is_leaf data =>
      let height :=
        1 + Z.max (rope_node_get_height l) (rope_node_get_height r) in
      let weight :=
        if is_leaf then Zlength data else rope_node_get_weight l in
      Node l r height weight is_leaf data
  end.

Definition rope_node_create_internal (l r : RopeNode) : RopeNode :=
  rope_node_update (Node l r 1 0 false []).

Definition rope_node_balance_factor (node : RopeNode) : Z :=
  match node with
  | nullptr => 0
  | Node l r _ _ _ _ =>
      rope_node_get_height l - rope_node_get_height r
  end.

(** [rope_node_rotate_right y]: [x = y->left] is dereferenced, so both [y]
    and [x] have to be nodes. *)
Definition rope_node_rotate_right (y : RopeNode) : option RopeNode :=
  match y with
  | Node (Node xl T2 xh xw xleaf xdata) yr yh yw yleaf ydata =>
      let y' := rope_node_update (Node T2 yr yh yw yleaf ydata) in
      let x' := rope_node_update (Node xl y' xh xw xleaf xdata) in
      Some x'
  | _ => None
  end.

Definition rope_node_rotate_left (x : RopeNode) : option RopeNode :=
  match x with
  | Node xl (Node T2 yr yh yw yleaf ydata) xh xw xleaf xdata =>
      let x' := rope_node_update (Node xl T2 xh xw xleaf xdata) in
      let y' := rope_node_update (Node x' yr yh yw yleaf ydata) in
      Some y'
  | _ => None
  end.

Definition rope_node_balance (node : RopeNode) : option RopeNode :=
  match rope_node_update node with
  | nullptr => Some nullptr
  | Node l r height weight is_leaf data as node =>
      let balance := rope_node_balance_factor node in
      if 1 <? balance then
        l' <- (if rope_node_balance_factor l <? 0
               then rope_node_rotate_left l else Some l) ;;
        rope_node_rotate_right (Node l' r height weight is_leaf data)
      else if balance <? -1 then
        r' <- (if 0 <? rope_node_balance_factor r
               then rope_node_rotate_right r else Some r) ;;
        rope_node_rotate_left (Node l r' height weight is_leaf data)
      else Some node
  end.

(** ** Insertion *)

Fixpoint node_size (node : RopeNode) : nat :=
  match node with
  | nullptr => 0
  | Node l r _ _ _ _ => S (node_size l + node_size r)
  end.

(** The split point of an oversized string in the empty-rope branch. *)
Definition split_mid (len : Z) : Z :=
  let mid := len / 2 in
  let mid := (mid / ROPE_NODE_CAPACITY) * ROPE_NODE_CAPACITY in
  if mid =? 0 then ROPE_NODE_CAPACITY else mid.

Lemma split_mid_bounds len :
  ROPE_NODE_CAPACITY < len ->
  ROPE_NODE_CAPACITY <= split_mid len < len.
Proof.
  unfold split_mid, ROPE_NODE_CAPACITY. intros Hlen.
  destruct (Z.eqb_spec (len / 2 / 512 * 512) 0) as [E | E]; [lia |].
  assert (0 <= len / 2 / 512) by (apply Z.div_pos; [apply Z.div_pos |]; lia).
  assert (len / 2 / 512 * 512 <= len / 2)
    by (rewrite Z.mul_comm; apply Z.mul_div_le; lia).
  assert (len / 2 < len) by (apply Z.div_lt; lia).
  lia.
Qed.

(** [rope_node_insert node pos str len], with [len = Zlength str].  The
    recursion of the source goes to a child of [node] or, from a null
    [node], to a null [node] with a shorter string. *)
Equations? rope_node_insert (node : RopeNode) (pos : Z) (str : list byte)
  : option RopeNode by wf (node_size node + length str)%nat lt :=
rope_node_insert nullptr pos str
  with Z_le_gt_dec (Zlength str) ROPE_NODE_CAPACITY => {
  | left _ => Some (rope_node_create_leaf str)
  | right Hgt =>
      let mid := split_mid (Zlength str) in
      match rope_node_insert nullptr 0 (take mid str),
            rope_node_insert nullptr 0 (drop mid str) with
      | Some l, Some r => Some (rope_node_create_internal l r)
      | _, _ => None
      end };
rope_node_insert (Node l r h w true data) pos str :=
  let length := Zlength data in
  let len := Zlength str in
  if length + len <=? ROPE_NODE_CAPACITY then
    (* memmove of [length - pos] bytes *)
    if length <? pos then None
    else Some (rope_node_update
                 (Node l r h w true (take pos data ++ str ++ drop pos data)))
  else
    (* leaves of [pos] and of [length - pos] bytes of [data] *)
    if length <? pos then None else
    let left_node := rope_node_create_leaf (take pos data) in
    let right_node := rope_node_create_leaf (drop pos data) in
    let new_text_node := rope_node_create_leaf str in
    let left_tree := rope_node_create_internal left_node new_text_node in
    let result := rope_node_create_internal left_tree right_node in
    rope_node_balance result;
rope_node_insert (Node l r h w false data) pos str :=
  if pos <=? w then
    match rope_node_insert l pos str with
    | Some l' => rope_node_balance (Node l' r h w false data)
    | None => None
    end
  else
    match rope_node_insert r (pos - w) str with
    | Some r' => rope_node_balance (Node l r' h w false data)
    | None => None
    end.
Proof.
  all: try (simpl; lia).
  - pose proof (split_mid_bounds (Zlength str)) as Hm.
    subst mid. unfold take. rewrite length_firstn.
    rewrite Zlength_correct in *. unfold ROPE_NODE_CAPACITY in *. lia.
  - pose proof (split_mid_bounds (Zlength str)) as Hm.
    subst mid. unfold drop. rewrite length_skipn.
    rewrite Zlength_correct in *. unfold ROPE_NODE_CAPACITY in *. lia.
Qed.

(** ** Deletion *)

Fixpoint rope_node_delete (node : RopeNode) (pos len : Z) : option RopeNode :=
  match node with
  | nullptr => Some node
  | Node l r h w is_leaf data =>
      if len =? 0 then Some node
      else if is_leaf then
        let length := Zlength data in
        if length <=? pos then Some node
        else
          let actual_len := Z.min len (length - pos) in
          let data' := take pos data ++ drop (pos + actual_len) data in
          if Zlength data' =? 0 then Some nullptr
          else Some (rope_node_update (Node l r h w true data'))
      else
        let left_weight := rope_node_get_weight l in
        children <-
          (if pos <? left_weight then
             let left_delete_len := Z.min len (left_weight - pos) in
             l' <- rope_node_delete l pos left_delete_len ;;
             if left_delete_len <? len then
               r' <- rope_node_delete r 0 (len - left_delete_len) ;;
               Some (l', r')
             else Some (l', r)
           else
             r' <- rope_node_delete r (pos - left_weight) len ;;
             Some (l, r')) ;;
        match children with
        | (nullptr, nullptr) => Some nullptr
        | (nullptr, temp) => Some temp
        | (temp, nullptr) => Some temp
        | (l', r') => rope_node_balance (Node l' r' h w false data)
        end
  end.

(** ** Reading *)

(** The storage of the caller: the bytes of the object that [buffer]
    points into, and the offset of the pointer in it.  [memcpy] beyond the
    end of the object fails. *)
Definition memcpy (buffer : list byte) (off : Z) (src : list byte)
  : option (list byte) :=
  if off + Zlength src <=? Zlength buffer
  then Some (take off buffer ++ src ++ drop (off + Zlength src) buffer)
  else None.

(** [rope_node_copy node pos buffer len], with the pointer [buffer] of the
    source at offset [off] of the storage; the result is the count of the
    source and the storage after the call. *)
Fixpoint rope_node_copy (node : RopeNode) (pos : Z) (buffer : list byte)
  (off len : Z) : option (Z * list byte) :=
  match node with
  | nullptr => Some (0, buffer)
  | Node l r _ _ is_leaf data =>
      if len =? 0 then Some (0, buffer)
      else if is_leaf then
        let length := Zlength data in
        if length <=? pos then Some (0, buffer)
        else
          let copy_len := Z.min len (length - pos) in
          buffer' <- memcpy buffer off (slice data pos copy_len) ;;
          Some (copy_len, buffer')
      else
        let left_weight := rope_node_get_weight l in
        if pos <? left_weight then
          c1 <- rope_node_copy l pos buffer off len ;;
          let (copied, buffer') := c1 in
          if copied <? len then
            c2 <- rope_node_copy r 0 buffer' (off + copied) (len - copied) ;;
            let (copied2, buffer'') := c2 in
            Some (copied + copied2, buffer'')
          else Some (copied, buffer')
        else rope_node_copy r (pos - left_weight) buffer off len
  end.

(** ** The buffer facade *)

Definition rope_init : Rope := mkRope nullptr 0.

Definition rope_length (rope : Rope) : Z := total_length rope.

Definition rope_insert (rope : Rope) (pos : Z) (str : list byte)
  : option Rope :=
  let len := Zlength str in
  if len =? 0 then Some rope
  else
    root' <- rope_node_insert (root rope) pos str ;;
    Some (mkRope root' (total_length rope + len)).

(** The C string at [str]: the bytes before the first NUL of the memory at
    [str] (the list is followed by a NUL); [strlen] is its length. *)
Fixpoint c_str (str : list byte) : list byte :=
  match str with
  | [] => []
  | c :: rest => if Byte.eqb c NUL then [] else c :: c_str rest
  end.

Definition strlen (str : list byte) : Z := Zlength (c_str str).

Definition rope_from_string (rope : Rope) (str : list byte) : option Rope :=
  let rope := mkRope nullptr 0 in
  let len := strlen str in
  if len =? 0 then Some rope
  else if len <=? ROPE_NODE_CAPACITY then
    Some (mkRope (rope_node_create_leaf (take len str)) len)
  else rope_insert rope 0 (take len str).

Definition rope_delete (rope : Rope) (pos len : Z) : option Rope :=
  if len =? 0 then Some rope
  else
    root' <- rope_node_delete (root rope) pos len ;;
    Some (mkRope root'
            (total_length rope
             - Z.min len (total_length rope - Z.min pos (total_length rope)))).

Definition rope_copy (rope : Rope) (pos : Z) (buffer : list byte) (len : Z)
  : option (Z * list byte) :=
  match root rope with
  | nullptr => Some (0, buffer)
  | node => rope_node_copy node pos buffer 0 len
  end.

Definition rope_char_at (rope : Rope) (pos : Z) : option byte :=
  let c := [NUL] in
  res <- rope_copy rope pos c 1 ;;
  nth_error (snd res) 0.

(** [new char[n]]: [n] bytes of indeterminate value, given by [garbage]. *)
Definition new_char_array (garbage : nat -> byte) (n : Z) : list byte :=
  map garbage (seq 0 (Z.to_nat n)).

(** [rope_to_string]: the array of [total_length + 1] bytes that the source
    returns; its last assignment is the store of the terminator at index
    [total_length]. *)
Definition rope_to_string (garbage : nat -> byte) (rope : Rope)
  : option (list byte) :=
  let str := new_char_array garbage (total_length rope + 1) in
  res <- rope_copy rope 0 str (total_length rope) ;;
  memcpy (snd res) (total_length rope) [NUL].

Definition rope_free (rope : Rope) : Rope := mkRope nullptr 0.

(** ** Abstract view of a tree *)

(** The bytes of the buffer: the leaves from left to right.  A node with
    [is_leaf] set is read as its [data] by every function of the source. *)
Fixpoint content (node : RopeNode) : list byte :=
  match node with
  | nullptr => []
  | Node l r _ _ is_leaf data =>
      if is_leaf then data else content l ++ content r
  end.

(** The sum of the lengths of the leaves below [node]. *)
Fixpoint leaf_length_sum (node : RopeNode) : Z :=
  match node with
  | nullptr => 0
  | Node l r _ _ is_leaf data =>
      if is_leaf then Zlength data
      else leaf_length_sum l + leaf_length_sum r
  end.

(** The height of the tree, recomputed (not the cached field). *)
Fixpoint tree_height (node : RopeNode) : Z :=
  match node with
  | nullptr => 0
  | Node l r _ _ is_leaf _ =>
      if is_leaf then 1 else 1 + Z.max (tree_height l) (tree_height r)
  end.

(** The AVL balance invariant at every internal node. *)
Fixpoint avl_balanced (node : RopeNode) : bool :=
  match node with
  | nullptr => true
  | Node l r _ _ is_leaf _ =>
      is_leaf
      || (avl_balanced l && avl_balanced r
          && (Z.abs (tree_height l - tree_height r) <=? 1))
  end.

(** No leaf of length zero. *)
Fixpoint no_empty_leaf (node : RopeNode) : bool :=
  match node with
  | nullptr => true
  | Node l r _ _ is_leaf data =>
      if is_leaf then negb (Zlength data =? 0)
      else no_empty_leaf l && no_empty_leaf r
  end.

Definition is_null (node : RopeNode) : bool :=
  match node with
  | nullptr => true
  | Node _ _ _ _ _ _ => false
  end.

(** No internal node with a null child. *)
Fixpoint no_null_child (node : RopeNode) : bool :=
  match node with
  | nullptr => true
  | Node l r _ _ is_leaf _ =>
      is_leaf
      || (negb (is_null l) && negb (is_null r)
          && no_null_child l && no_null_child r)
  end.

(** The structural invariant of the data model without the balance: a
    leaf has no children, height 1, at most [ROPE_NODE_CAPACITY] bytes
    and its length as weight; an internal node has two children, and its
    cached height and weight are those of [rope_node_update]. *)
Fixpoint wf (node : RopeNode) : Prop :=
  match node with
  | nullptr => True
  | Node l r h w is_leaf data =>
      if is_leaf then
        l = nullptr /\ r = nullptr /\ h = 1 /\ w = Zlength data
        /\ Zlength data <= ROPE_NODE_CAPACITY
      else
        l <> nullptr /\ r <> nullptr /\ wf l /\ wf r
        /\ h = 1 + Z.max (rope_node_get_height l) (rope_node_get_height r)
        /\ w = rope_node_get_weight l
  end.

(** The invariant of the facade: the tree is well formed and the cached
    length is the number of bytes in the leaves. *)
Definition rope_ok (rope : Rope) : Prop :=
  wf (root rope) /\ total_length rope = leaf_length_sum (root rope).

(** [remove l pos len]: [l] without the [len] bytes from index [pos]. *)
Definition remove (l : list byte) (pos len : Z) : list byte :=
  take pos l ++ drop (pos + len) l.

(** The storage after a write of [src] at offset [off]. *)
Definition write (buffer : list byte) (off : Z) (src : list byte)
  : list byte :=
  take off buffer ++ src ++ drop (off + Zlength src) buffer.

(** The byte runs of the leaves, from left to right. *)
Fixpoint leaves (node : RopeNode) : list (list byte) :=
  match node with
  | nullptr => []
  | Node l r _ _ is_leaf data =>
      if is_leaf then [data] else leaves l ++ leaves r
  end.

(** What an insertion of [str] into the subtree [node] stores: a null
    subtree takes the whole string, every other one goes through a single
    new leaf of [rope_node_create_leaf]. *)
Definition inserted (node : RopeNode) (str : list byte) : list byte :=
  match node with
  | nullptr => str
  | Node _ _ _ _ _ _ => take ROPE_NODE_CAPACITY str
  end.

(** The number of bytes that a request of [len] bytes at [pos] can get. *)
Definition available (rope : Rope) (pos len : Z) : Z :=
  if pos <? total_length rope
  then Z.min len (total_length rope - pos)
  else 0.

(** ** The routing of positions *)











(** ["Hello, World!"] in one leaf. *)
Definition hello_world : list byte := 
  ["H"; "e"; "l"; "l"; "o"; ","; " "; "W"; "o"; "r"; "l"; "d"; "!"]%byte.

Definition hello_rope : Rope :=
  mkRope (rope_node_create_leaf hello_world) 13.

(** ** The states of the facade *)

(** One call of a mutating operation of the facade that returns. *)
Inductive step : Rope -> Rope -> Prop :=
| step_insert rope pos str rope' :
    0 <= pos -> rope_insert rope pos str = Some rope' -> step rope rope'
| step_delete rope pos len rope' :
    0 <= pos -> 0 <= len ->
    rope_delete rope pos len = Some rope' -> step rope rope'
| step_from_string rope str rope' :
    rope_from_string rope str = Some rope' -> step rope rope'
| step_free rope :
    step rope (rope_free rope).

(** The same, with the insertions that stay within one leaf or go into the
    empty rope, at a position of the rope. *)
Inductive step_within_capacity : Rope -> Rope -> Prop :=
| within_insert rope pos str rope' :
    0 <= pos <= total_length rope ->
    Zlength str <= ROPE_NODE_CAPACITY \/ root rope = nullptr ->
    rope_insert rope pos str = Some rope' ->
    step_within_capacity rope rope'
| within_delete rope pos len rope' :
    0 <= pos -> 0 <= len ->
    rope_delete rope pos len = Some rope' ->
    step_within_capacity rope rope'
| within_from_string rope str rope' :
    rope_from_string rope str = Some rope' ->
    step_within_capacity rope rope'
| within_free rope :
    step_within_capacity rope (rope_free rope).

(** The ropes that the operations produce from the empty rope. *)
Inductive reachable : Rope -> Prop :=
| reachable_init : reachable rope_init
| reachable_step rope rope' :
    reachable rope -> step rope rope' -> reachable rope'.

(** ** The rest of [rope.h]: substrings *)

(** The loop of [rope_substr]: [count] more bytes, the next one at index
    [i] of the storage. *)
Fixpoint rope_substr_loop (rope : Rope) (pos i : Z) (count : nat)
  (buffer : list byte) : option (list byte) :=
  match count with
  | O => Some buffer
  | S count' =>
      c <- rope_char_at rope (pos + i) ;;
      buffer' <- memcpy buffer i [c] ;;
      rope_substr_loop rope pos (i + 1) count' buffer'
  end.

(** The sum of two [size_t] values, which wraps around at [2^64]: the sum
    [pos + length] of [rope_substr] is one of two arguments of the caller
    and is not bounded by what the memory holds. *)
Definition SIZE_MAX : Z := 2 ^ 64 - 1.

Definition size_t_add (a b : Z) : Z := (a + b) mod (SIZE_MAX + 1).

(** [rope_substr]: when [pos + length] wraps, the test of the clamp fails
    and [length] stays as it is. *)
Definition rope_substr (rope : Rope) (pos length : Z) (buffer : list byte)
  : option (list byte) :=
  if rope_length rope <=? pos then memcpy buffer 0 [NUL]
  else
    let rope_len := rope_length rope in
    let length :=
      if rope_len <? size_t_add pos length then rope_len - pos else length in
    buffer' <- rope_substr_loop rope pos 0 (Z.to_nat length) buffer ;;
    memcpy buffer' length [NUL].

(** ** The editor on top of the rope ([src/editor.h])

    The functions of the editor that work on the rope: the line helpers,
    the cursor movements, the undo and redo stacks, cut and paste.  [Editor]
    has the fields of the source that these functions read or write; the
    output on [stdout] is left out.  The array that goes to the clipboard
    of the platform is a result of [editor_copy] and [editor_cut], the one
    that comes from it an argument of [editor_paste].  A [std::vector] is
    the list of its elements from front to back. *)

Definition newline : byte := x0a.

(** The byte that the rope has at [i]: NUL behind its last byte. *)
Definition byte_at (text : list byte) (i : Z) : byte :=
  nth (Z.to_nat i) text NUL.

(** The loop of [editor_line_start], at [line_start > 0]. *)
Fixpoint editor_line_start_loop (rope : Rope) (line_start : nat) : option Z :=
  match line_start with
  | O => Some 0
  | S before =>
      c <- rope_char_at rope (Z.of_nat before) ;;
      if Byte.eqb c newline then Some (Z.of_nat line_start)
      else editor_line_start_loop rope before
  end.

Definition editor_line_start (rope : Rope) (pos : Z) : option Z :=
  if pos =? 0 then Some 0
  else editor_line_start_loop rope (Z.to_nat pos).

(** The loop of [editor_line_end]: [remaining] is [rope_len - line_end],
    the loop runs while it is positive. *)
Fixpoint editor_line_end_loop (rope : Rope) (line_end : Z) (remaining : nat)
  : option Z :=
  match remaining with
  | O => Some line_end
  | S remaining' =>
      c <- rope_char_at rope line_end ;;
      if Byte.eqb c newline then Some line_end
      else editor_line_end_loop rope (line_end + 1) remaining'
  end.

Definition editor_line_end (rope : Rope) (pos : Z) : option Z :=
  let rope_len := rope_length rope in
  editor_line_end_loop rope pos (Z.to_nat (rope_len - pos)).

Definition editor_get_column (rope : Rope) (pos : Z) : option Z :=
  line_start <- editor_line_start rope pos ;;
  Some (pos - line_start).

(** The loop of [editor_get_line_number]: [count] more positions from
    [i]. *)
Fixpoint editor_get_line_number_loop (rope : Rope) (i : Z) (count : nat)
  (line : Z) : option Z :=
  match count with
  | O => Some line
  | S count' =>
      c <- rope_char_at rope i ;;
      editor_get_line_number_loop rope (i + 1) count'
        (if Byte.eqb c newline then line + 1 else line)
  end.

Definition editor_get_line_number (rope : Rope) (pos : Z) : option Z :=
  editor_get_line_number_loop rope 0
    (Z.to_nat (Z.min pos (rope_length rope))) 1.

Inductive CommandType : Type := CMD_INSERT | CMD_DELETE.

(** A command of the undo and redo stacks; [cmd_content] is the copy of
    [cmd_length] bytes that [editor_push_command] makes. *)
Record Command : Type := mkCommand {
  cmd_type : CommandType;
  cmd_pos : Z;
  cmd_content : list byte;
  cmd_length : Z
}.

Record Editor : Type := mkEditor {
  rope : Rope;
  cursor_pos : Z;
  cursor_preferred_col : Z;
  has_selection : bool;
  selection_start : Z;
  selection_end : Z;
  undo_stack : list Command;
  redo_stack : list Command;
  rope_version : Z
}.

Definition MAX_UNDO_STACK : Z := 1000.

Definition set_cursor (editor : Editor) (pos preferred_col : Z) : Editor :=
  mkEditor (rope editor) pos preferred_col
    (has_selection editor) (selection_start editor) (selection_end editor)
    (undo_stack editor) (redo_stack editor) (rope_version editor).

Definition editor_move_up (editor : Editor) : option Editor :=
  line_start <- editor_line_start (rope editor) (cursor_pos editor) ;;
  if line_start =? 0 then Some editor
  else
    let prev_line_end := line_start - 1 in
    prev_line_start <- editor_line_start (rope editor) prev_line_end ;;
    let prev_line_len := prev_line_end - prev_line_start in
    let target_col := cursor_preferred_col editor in
    let target_col :=
      if prev_line_len <? target_col then prev_line_len else target_col in
    Some (set_cursor editor (prev_line_start + target_col)
            (cursor_preferred_col editor)).

Definition editor_move_down (editor : Editor) : option Editor :=
  line_end <- editor_line_end (rope editor) (cursor_pos editor) ;;
  let rope_len := rope_length (rope editor) in
  if rope_len <=? line_end then Some editor
  else
    let next_line_start := line_end + 1 in
    next_line_end <- editor_line_end (rope editor) next_line_start ;;
    let next_line_len := next_line_end - next_line_start in
    let target_col := cursor_preferred_col editor in
    let target_col :=
      if next_line_len <? target_col then next_line_len else target_col in
    Some (set_cursor editor (next_line_start + target_col)
            (cursor_preferred_col editor)).

Definition editor_move_home (editor : Editor) : option Editor :=
  line_start <- editor_line_start (rope editor) (cursor_pos editor) ;;
  Some (set_cursor editor line_start 0).

Definition editor_move_end (editor : Editor) : option Editor :=
  line_end <- editor_line_end (rope editor) (cursor_pos editor) ;;
  column <- editor_get_column (rope editor) line_end ;;
  Some (set_cursor editor line_end column).

Definition editor_select_all (editor : Editor) : Editor :=
  let selection_end := rope_length (rope editor) in
  mkEditor (rope editor) selection_end (cursor_preferred_col editor)
    true 0 selection_end
    (undo_stack editor) (redo_stack editor) (rope_version editor).

(** [while (undo_stack.size() > MAX_UNDO_STACK) erase(begin())]. *)
Fixpoint limit_undo_stack (stack : list Command) : list Command :=
  match stack with
  | [] => []
  | _ :: rest =>
      if MAX_UNDO_STACK <? Zlength stack then limit_undo_stack rest
      else stack
  end.

(** [editor_push_command]: the array of [length + 1] bytes of the command
    is written completely, with [length] bytes read at [content] and the
    terminator; a read beyond the object at [content] fails. *)
Definition editor_push_command (editor : Editor) (type : CommandType)
  (pos : Z) (content : list byte) (length : Z) : option Editor :=
  if Zlength content <? length then None
  else
    let cmd := mkCommand type pos (take length content ++ [NUL]) length in
    Some (mkEditor (rope editor) (cursor_pos editor)
            (cursor_preferred_col editor)
            (has_selection editor) (selection_start editor)
            (selection_end editor)
            (limit_undo_stack (undo_stack editor ++ [cmd])) []
            (rope_version editor)).

(** [stack.back()], if there is one. *)
Definition back (stack : list Command) : option Command :=
  match rev stack with
  | [] => None
  | cmd :: _ => Some cmd
  end.

(** The editor after a command of a stack has been applied: the rope, the
    cursor and the two stacks are new, the version is incremented. *)
Definition after_command (editor : Editor) (rope' : Rope) (cursor : Z)
  (undo redo : list Command) : Editor :=
  mkEditor rope' cursor (cursor_preferred_col editor)
    (has_selection editor) (selection_start editor) (selection_end editor)
    undo redo (rope_version editor + 1).

Definition editor_undo (editor : Editor) : option Editor :=
  match back (undo_stack editor) with
  | None => Some editor
  | Some cmd =>
      let undo := removelast (undo_stack editor) in
      let redo := redo_stack editor ++ [cmd] in
      match cmd_type cmd with
      | CMD_INSERT =>
          rope' <- rope_delete (rope editor) (cmd_pos cmd) (cmd_length cmd) ;;
          Some (after_command editor rope' (cmd_pos cmd) undo redo)
      | CMD_DELETE =>
          rope' <- rope_insert (rope editor) (cmd_pos cmd)
                     (take (cmd_length cmd) (cmd_content cmd)) ;;
          Some (after_command editor rope' (cmd_pos cmd + cmd_length cmd)
                  undo redo)
      end
  end.

Definition editor_redo (editor : Editor) : option Editor :=
  match back (redo_stack editor) with
  | None => Some editor
  | Some cmd =>
      let redo := removelast (redo_stack editor) in
      let undo := undo_stack editor ++ [cmd] in
      match cmd_type cmd with
      | CMD_INSERT =>
          rope' <- rope_insert (rope editor) (cmd_pos cmd)
                     (take (cmd_length cmd) (cmd_content cmd)) ;;
          Some (after_command editor rope' (cmd_pos cmd + cmd_length cmd)
                  undo redo)
      | CMD_DELETE =>
          rope' <- rope_delete (rope editor) (cmd_pos cmd) (cmd_length cmd) ;;
          Some (after_command editor rope' (cmd_pos cmd) undo redo)
      end
  end.

(** The selection as [start] and [end]. *)
Definition selection_range (editor : Editor) : Z * Z :=
  if selection_start editor <? selection_end editor
  then (selection_start editor, selection_end editor)
  else (selection_end editor, selection_start editor).

(** The part of [editor_cut] and [editor_paste] that removes the
    selection: the text goes to the undo stack, then it is deleted. *)
Definition delete_selection (garbage : nat -> byte) (editor : Editor)
  : option Editor :=
  let (start, end_) := selection_range editor in
  let length := end_ - start in
  let deleted_text := new_char_array garbage (length + 1) in
  deleted_text <- rope_substr (rope editor) start length deleted_text ;;
  editor <- editor_push_command editor CMD_DELETE start deleted_text length ;;
  rope' <- rope_delete (rope editor) start length ;;
  Some (mkEditor rope' start (cursor_preferred_col editor)
          false (selection_start editor) (selection_end editor)
          (undo_stack editor) (redo_stack editor) (rope_version editor + 1)).

(** [editor_copy]: the array that goes to [platform_set_clipboard], if
    there is a selection; the editor itself is unchanged. *)
Definition editor_copy (garbage : nat -> byte) (editor : Editor)
  : option (option (list byte)) :=
  if negb (has_selection editor) then Some None
  else
    let (start, end_) := selection_range editor in
    let length := end_ - start in
    let selected_text := new_char_array garbage (length + 1) in
    selected_text <- rope_substr (rope editor) start length selected_text ;;
    selected_text <- memcpy selected_text length [NUL] ;;
    Some (Some selected_text).

(** [editor_cut]: the array that goes to the clipboard and the editor
    after the call; [garbage] and [garbage'] are the two arrays of the
    source. *)
Definition editor_cut (garbage garbage' : nat -> byte) (editor : Editor)
  : option (option (list byte) * Editor) :=
  if negb (has_selection editor) then Some (None, editor)
  else
    selected_text <- editor_copy garbage editor ;;
    editor <- delete_selection garbage' editor ;;
    Some (selected_text, editor).

(** [editor_paste], with the result of [platform_get_clipboard]: a null
    pointer or the memory at the pointer. *)
Definition editor_paste (garbage : nat -> byte) (editor : Editor)
  (clipboard_text : option (list byte)) : option Editor :=
  match clipboard_text with
  | None => Some editor
  | Some clipboard_text =>
      let paste_len := strlen clipboard_text in
      if paste_len =? 0 then Some editor
      else
        editor <- (if has_selection editor
                   then delete_selection garbage editor
                   else Some editor) ;;
        editor <- editor_push_command editor CMD_INSERT (cursor_pos editor)
                    clipboard_text paste_len ;;
        rope' <- rope_insert (rope editor) (cursor_pos editor)
                   (take paste_len clipboard_text) ;;
        Some (mkEditor rope' (cursor_pos editor + paste_len)
                (cursor_preferred_col editor)
                (has_selection editor) (selection_start editor)
                (selection_end editor)
                (undo_stack editor) (redo_stack editor)
                (rope_version editor + 1))
  end.

(** The ropes that the operations produce from the empty rope without an
    insertion longer than a leaf (the empty rope apart). *)
Inductive reachable_within_capacity : Rope -> Prop :=
| within_init : reachable_within_capacity rope_init
| within_step rope rope' :
    reachable_within_capacity rope ->
    step_within_capacity rope rope' ->
    reachable_within_capacity rope'.

(** [ls] is the start of the line of position [pos] in [text]: at 0 or
    behind a newline, with no newline from there to [pos]. *)
Definition line_start_of (text : list byte) (pos ls : Z) : Prop :=
  0 <= ls <= pos
  /\ (ls = 0 \/ byte_at text (ls - 1) = newline)
  /\ forall i, ls <= i < pos -> byte_at text i <> newline.

(** [le] is the end of the line of position [pos] in a text of [len] bytes:
    at a newline or at the end of the text, with no newline from [pos] to
    there. *)
Definition line_end_of (text : list byte) (len pos le : Z) : Prop :=
  pos <= le <= Z.max pos len
  /\ (le < len -> byte_at text le = newline)
  /\ forall i, pos <= i < le -> byte_at text i <> newline.

(** The number of newlines in a byte run. *)
Definition newlines (l : list byte) : Z :=
  Zlength (filter (fun c => Byte.eqb c newline) l).

(** How far an insertion lets a subtree grow: by one level, or from a leaf
    to the three leaves of a split, with the two left ones under one
    node. *)
Definition grown (node t : RopeNode) : Prop :=
  rope_node_get_height node <= rope_node_get_height t
                            <= rope_node_get_height node + 1
  \/ (rope_node_get_height node = 1 /\ rope_node_get_height t = 3
      /\ rope_node_balance_factor t = 1).

(** ** Examples of the editor *)

(** The lines ["ab"] and ["cd"] in one leaf. *)
Definition two_lines : list byte := ["a"; "b"; x0a; "c"; "d"]%byte.

Definition lines_rope : Rope :=
  mkRope (rope_node_create_leaf two_lines) 5.

(** The cursor on the ["d"] of the second line. *)
Definition lines_editor : Editor :=
  mkEditor lines_rope 4 1 false 0 0 [] [] 0.

(** The cursor behind the comma of ["Hello, World!"]. *)
Definition hello_editor : Editor :=
  mkEditor hello_rope 6 0 false 0 0 [] [] 0.

(** ["World"] selected from its end to its start. *)
Definition hello_selection : Editor :=
  mkEditor hello_rope 7 0 true 12 7 [] [] 0.

(** The cursor on the ["b"] of the first of the two lines. *)
Definition first_line_editor : Editor :=
  mkEditor lines_rope 1 1 false 0 0 [] [] 0.

(** The leaves ["b"], ["c"] and ["d"] in a tree of height 3. *)
Definition three_leaves : RopeNode :=
  rope_node_create_internal
    (rope_node_create_leaf ["b"%byte])
    (rope_node_create_internal
       (rope_node_create_leaf ["c"%byte]) (rope_node_create_leaf ["d"%byte])).

(** A full leaf and the leaf ["b"]: an insertion into the full leaf splits
    it and makes the left subtree two levels higher than the right one. *)
Definition full_leaf_rope : Rope :=
  mkRope
    (rope_node_create_internal
       (rope_node_create_leaf (repeat "a"%byte 512))
       (rope_node_create_leaf ["b"%byte]))
    513.

(** Five leaves, two in a left subtree of height 2 and three in a right
    subtree of height 3: without the first byte the left subtree is one
    leaf, two levels lower than the right one. *)
Definition five_leaves_rope : Rope :=
  mkRope
    (rope_node_create_internal
       (rope_node_create_internal
          (rope_node_create_leaf ["a"%byte]) (rope_node_create_leaf ["e"%byte]))
       three_leaves)
    5.

(** * Byte runs *)

Section ByteRuns.

Implicit Types (l a b : list byte) (n pos len : Z).

Lemma Zlength_nonneg l : 0 <= Zlength l.
Proof. rewrite Zlength_correct. lia. Qed.

Lemma Zlength_app a b : Zlength (a ++ b) = Zlength a + Zlength b.
Proof. rewrite !Zlength_correct, length_app. lia. Qed.

Lemma Zlength_take n l : Zlength (take n l) = Z.min (Z.max 0 n) (Zlength l).
Proof. unfold take. rewrite !Zlength_correct, length_firstn. lia. Qed.

Lemma Zlength_drop n l : Zlength (drop n l) = Zlength l - Z.min (Z.max 0 n) (Zlength l).
Proof. unfold drop. rewrite !Zlength_correct, length_skipn. lia. Qed.

Lemma take_drop n l : take n l ++ drop n l = l.
Proof. apply firstn_skipn. Qed.

Lemma take_all n l : Zlength l <= n -> take n l = l.
Proof.
  intros H. unfold take. apply firstn_all2.
  rewrite Zlength_correct in H. lia.
Qed.

Lemma drop_all n l : Zlength l <= n -> drop n l = [].
Proof.
  intros H. unfold drop. apply skipn_all2.
  rewrite Zlength_correct in H. lia.
Qed.

Lemma take_nonpos n l : n <= 0 -> take n l = [].
Proof.
  intros H. unfold take. replace (Z.to_nat n) with 0%nat by lia.
  reflexivity.
Qed.

Lemma drop_nonpos n l : n <= 0 -> drop n l = l.
Proof.
  intros H. unfold drop. replace (Z.to_nat n) with 0%nat by lia.
  reflexivity.
Qed.

Lemma take_app n a b :
  take n (a ++ b) = take n a ++ take (n - Zlength a) b.
Proof.
  unfold take. rewrite firstn_app. do 2 f_equal.
  rewrite Zlength_correct. lia.
Qed.

Lemma drop_app n a b :
  drop n (a ++ b) = drop n a ++ drop (n - Zlength a) b.
Proof.
  unfold drop. rewrite skipn_app. do 2 f_equal.
  rewrite Zlength_correct. lia.
Qed.

Lemma take_take n m l : take n (take m l) = take (Z.min n m) l.
Proof.
  unfold take. rewrite firstn_firstn. f_equal. lia.
Qed.

Lemma drop_drop n m l : 0 <= n -> 0 <= m -> drop n (drop m l) = drop (m + n) l.
Proof.
  intros Hn Hm. unfold drop. rewrite skipn_skipn. f_equal. lia.
Qed.

Lemma Zlength_slice l pos len :
  0 <= pos -> 0 <= len ->
  Zlength (slice l pos len) =
  if pos <? Zlength l then Z.min len (Zlength l - pos) else 0.
Proof.
  intros Hp Hl. unfold slice. rewrite Zlength_take, Zlength_drop.
  destruct (Z.ltb_spec pos (Zlength l)); lia.
Qed.

Lemma Zlength_remove l pos len :
  0 <= pos -> 0 <= len ->
  Zlength (remove l pos len) =
  Zlength l - Z.min len (Zlength l - Z.min pos (Zlength l)).
Proof.
  intros Hp Hl. unfold remove.
  rewrite Zlength_app, Zlength_take, Zlength_drop. lia.
Qed.

End ByteRuns.

Section Slices.

Implicit Types (l a b : list byte) (n pos len off : Z).

Lemma take_min_length n l : take (Z.min n (Zlength l)) l = take n l.
Proof.
  destruct (Z.le_ge_cases n (Zlength l)).
  - rewrite Z.min_l by lia. reflexivity.
  - rewrite Z.min_r by lia. rewrite !take_all by lia. reflexivity.
Qed.

Lemma slice_clip l pos len :
  0 <= pos -> pos < Zlength l ->
  slice l pos (Z.min len (Zlength l - pos)) = slice l pos len.
Proof.
  intros Hp Hlt. unfold slice.
  replace (Zlength l - pos) with (Zlength (drop pos l))
    by (rewrite Zlength_drop; lia).
  apply take_min_length.
Qed.

Lemma slice_beyond l pos len : Zlength l <= pos -> slice l pos len = [].
Proof.
  intros H. unfold slice. rewrite drop_all by lia. unfold take.
  apply firstn_nil.
Qed.

Lemma slice_zero' l pos len : len <= 0 -> slice l pos len = [].
Proof. intros H. unfold slice. apply take_nonpos. lia. Qed.

Lemma slice_zero l pos : slice l pos 0 = [].
Proof. apply slice_zero'. lia. Qed.

Lemma slice_app_left a b pos len :
  0 <= pos -> pos < Zlength a -> 0 <= len ->
  slice (a ++ b) pos len =
  slice a pos len ++ slice b 0 (len - Zlength (slice a pos len)).
Proof.
  intros Hp Hlt Hl. unfold slice.
  rewrite drop_app, take_app.
  rewrite (drop_nonpos (pos - Zlength a)) by lia.
  rewrite (drop_nonpos 0) by lia.
  f_equal. rewrite Zlength_take.
  destruct (Z.le_ge_cases len (Zlength (drop pos a))).
  - rewrite !take_nonpos by lia. reflexivity.
  - f_equal. lia.
Qed.

Lemma slice_app_right a b pos len :
  Zlength a <= pos ->
  slice (a ++ b) pos len = slice b (pos - Zlength a) len.
Proof.
  intros H. unfold slice. rewrite drop_app, drop_all by lia. reflexivity.
Qed.

Lemma slice_full l : slice l 0 (Zlength l) = l.
Proof.
  unfold slice. rewrite drop_nonpos by lia. apply take_all. lia.
Qed.

Lemma remove_app_left_span a b pos len :
  0 <= pos -> pos < Zlength a -> Zlength a - pos < len ->
  remove (a ++ b) pos len =
  remove a pos (Zlength a - pos) ++ remove b 0 (len - (Zlength a - pos)).
Proof.
  intros Hp Hlt Hl. unfold remove.
  rewrite take_app, drop_app.
  rewrite (take_nonpos (pos - Zlength a)) by lia.
  rewrite (drop_all (pos + len) a) by lia.
  rewrite (drop_all (pos + (Zlength a - pos)) a) by lia.
  rewrite (take_nonpos 0) by lia.
  rewrite !app_nil_r. simpl. do 2 f_equal. lia.
Qed.

Lemma remove_app_left_only a b pos len :
  0 <= pos -> 0 <= len -> pos + len <= Zlength a ->
  remove (a ++ b) pos len = remove a pos len ++ b.
Proof.
  intros Hp Hl Hle. unfold remove.
  rewrite take_app, drop_app.
  rewrite (take_nonpos (pos - Zlength a)) by lia.
  rewrite (drop_nonpos (pos + len - Zlength a)) by lia.
  rewrite app_nil_r, app_assoc. reflexivity.
Qed.

Lemma remove_app_right a b pos len :
  Zlength a <= pos -> 0 <= len ->
  remove (a ++ b) pos len = a ++ remove b (pos - Zlength a) len.
Proof.
  intros Hp Hl. unfold remove.
  rewrite take_app, drop_app.
  rewrite (take_all pos a) by lia.
  rewrite (drop_all (pos + len) a) by lia.
  simpl. rewrite app_assoc. do 2 f_equal. lia.
Qed.

Lemma remove_beyond l pos len : Zlength l <= pos -> 0 <= len -> remove l pos len = l.
Proof.
  intros H Hl. unfold remove. rewrite take_all, drop_all by lia.
  apply app_nil_r.
Qed.

Lemma remove_zero l pos : remove l pos 0 = l.
Proof. unfold remove. rewrite Z.add_0_r. apply take_drop. Qed.

Lemma memcpy_write buffer off src :
  off + Zlength src <= Zlength buffer ->
  memcpy buffer off src = Some (write buffer off src).
Proof.
  intros H. unfold memcpy.
  destruct (Z.leb_spec (off + Zlength src) (Zlength buffer)); [reflexivity | lia].
Qed.

Lemma Zlength_write buffer off src :
  0 <= off -> off + Zlength src <= Zlength buffer ->
  Zlength (write buffer off src) = Zlength buffer.
Proof.
  intros Ho H. unfold write. pose proof (Zlength_nonneg src).
  rewrite !Zlength_app, Zlength_take, Zlength_drop. lia.
Qed.

Lemma write_nil buffer off : write buffer off [] = buffer.
Proof.
  unfold write. rewrite Zlength_nil, Z.add_0_r. simpl. apply take_drop.
Qed.

Lemma write_write buffer off s1 s2 :
  0 <= off -> off + Zlength s1 + Zlength s2 <= Zlength buffer ->
  write (write buffer off s1) (off + Zlength s1) s2 = write buffer off (s1 ++ s2).
Proof.
  intros Ho H. unfold write.
  pose proof (Zlength_nonneg s1). pose proof (Zlength_nonneg s2).
  assert (Ht : Zlength (take off buffer) = off)
    by (rewrite Zlength_take; lia).
  rewrite !take_app, !drop_app, Ht, !Zlength_app.
  rewrite (take_all (off + Zlength s1) (take off buffer)) by lia.
  rewrite (take_all (off + Zlength s1 - off) s1) by lia.
  rewrite (take_nonpos (off + Zlength s1 - off - Zlength s1)) by lia.
  rewrite (drop_all (off + Zlength s1 + Zlength s2) (take off buffer)) by lia.
  rewrite (drop_all (off + Zlength s1 + Zlength s2 - off) s1) by lia.
  rewrite drop_drop by lia.
  rewrite app_nil_r. simpl. rewrite <- !app_assoc.
  repeat (f_equal; try lia).
Qed.

End Slices.

(** * Weights and reading *)

Lemma rope_node_get_weight_content node :
  rope_node_get_weight node = Zlength (content node).
Proof.
  induction node as [| l IHl r IHr h w is_leaf data]; simpl.
  - reflexivity.
  - destruct is_leaf; [reflexivity |].
    rewrite Zlength_app. lia.
Qed.

Lemma leaf_length_sum_content node :
  leaf_length_sum node = Zlength (content node).
Proof.
  induction node as [| l IHl r IHr h w is_leaf data]; simpl.
  - reflexivity.
  - destruct is_leaf; [reflexivity |].
    rewrite Zlength_app. lia.
Qed.

(** [rope_node_copy] on any tree: it writes the slice of the content and
    nothing else, and returns its length. *)
Lemma rope_node_copy_slice node :
  forall pos buffer off len,
    0 <= pos -> 0 <= len -> 0 <= off -> off + len <= Zlength buffer ->
    rope_node_copy node pos buffer off len =
    Some (Zlength (slice (content node) pos len),
          write buffer off (slice (content node) pos len)).
Proof.
  induction node as [| l IHl r IHr h w is_leaf data];
    intros pos buffer off len Hpos Hlen Hoff Hroom.
  - simpl. unfold slice, drop, take. rewrite skipn_nil, firstn_nil.
    rewrite write_nil. reflexivity.
  - simpl. destruct (Z.eqb_spec len 0) as [-> | Hnz].
    { rewrite slice_zero, write_nil. reflexivity. }
    destruct is_leaf.
    + destruct (Z.leb_spec (Zlength data) pos) as [Hout | Hin].
      * rewrite slice_beyond by lia. rewrite write_nil. reflexivity.
      * rewrite slice_clip by lia.
        assert (Hs : Zlength (slice data pos len) = Z.min len (Zlength data - pos)).
        { rewrite Zlength_slice by lia.
          destruct (Z.ltb_spec pos (Zlength data)); lia. }
        rewrite memcpy_write by lia. simpl. rewrite Hs. reflexivity.
    + rewrite rope_node_get_weight_content.
      destruct (Z.ltb_spec pos (Zlength (content l))) as [Hleft | Hright].
      * rewrite IHl by lia. simpl.
        rewrite (slice_app_left (content l) (content r)) by lia.
        set (s1 := slice (content l) pos len).
        assert (Hs1 : Zlength s1 = Z.min len (Zlength (content l) - pos)).
        { subst s1. rewrite Zlength_slice by lia.
          destruct (Z.ltb_spec pos (Zlength (content l))); lia. }
        destruct (Z.ltb_spec (Zlength s1) len) as [Hmore | Hdone].
        -- rewrite IHr; [| lia | lia | lia | rewrite Zlength_write; lia].
           simpl. rewrite write_write, Zlength_app.
           ++ reflexivity.
           ++ lia.
           ++ rewrite Zlength_slice by lia.
              destruct (Z.ltb_spec 0 (Zlength (content r))); lia.
        -- rewrite slice_zero' by lia. rewrite app_nil_r. reflexivity.
      * rewrite IHr by lia.
        rewrite (slice_app_right (content l) (content r)) by lia.
        reflexivity.
Qed.

(** * Well-formed trees and the balancer *)

Lemma content_leaves node : content node = concat (leaves node).
Proof.
  induction node as [| l IHl r IHr h w is_leaf data]; simpl.
  - reflexivity.
  - destruct is_leaf; simpl.
    + rewrite app_nil_r. reflexivity.
    + rewrite concat_app. congruence.
Qed.

Lemma no_empty_leaf_leaves node :
  no_empty_leaf node = forallb (fun d => negb (Zlength d =? 0)) (leaves node).
Proof.
  induction node as [| l IHl r IHr h w is_leaf data]; simpl.
  - reflexivity.
  - destruct is_leaf; simpl.
    + rewrite andb_true_r. reflexivity.
    + rewrite forallb_app. congruence.
Qed.

Lemma wf_height_nonneg node : wf node -> 0 <= rope_node_get_height node.
Proof.
  induction node as [| l IHl r IHr h w is_leaf data];
    cbn [wf rope_node_get_height].
  - lia.
  - destruct is_leaf.
    + intros (_ & _ & -> & _). lia.
    + intros (_ & _ & Wl & Wr & -> & _).
      specialize (IHl Wl). specialize (IHr Wr). lia.
Qed.

Lemma wf_height_pos node :
  wf node -> node <> nullptr -> 1 <= rope_node_get_height node.
Proof.
  destruct node as [| l r h w [|] data]; cbn [wf rope_node_get_height];
    intros H Hn.
  - congruence.
  - destruct H as (_ & _ & -> & _). lia.
  - destruct H as (_ & _ & Wl & Wr & -> & _).
    pose proof (wf_height_nonneg l Wl). lia.
Qed.

Lemma wf_height_leaf l r h w data :
  wf (Node l r h w true data) -> h = 1.
Proof. simpl. tauto. Qed.

Lemma wf_height_internal l r h w data :
  wf (Node l r h w false data) -> 2 <= h.
Proof.
  cbn [wf]. intros (Hl & Hr & Wl & Wr & Hh & Hw).
  pose proof (wf_height_pos l Wl Hl). lia.
Qed.

(** In a well-formed tree the cached height is the height of the tree. *)
Lemma wf_tree_height node :
  wf node -> rope_node_get_height node = tree_height node.
Proof.
  induction node as [| l IHl r IHr h w is_leaf data];
    cbn [wf rope_node_get_height tree_height].
  - reflexivity.
  - destruct is_leaf.
    + intros (_ & _ & -> & _). reflexivity.
    + intros (_ & _ & Wl & Wr & -> & _).
      rewrite IHl, IHr by assumption. reflexivity.
Qed.

Lemma wf_no_null_child node : wf node -> no_null_child node = true.
Proof.
  induction node as [| l IHl r IHr h w is_leaf data]; simpl.
  - reflexivity.
  - destruct is_leaf; [reflexivity |].
    intros (Hl & Hr & Wl & Wr & _).
    rewrite IHl, IHr by assumption.
    destruct l, r; simpl; congruence.
Qed.

Lemma wf_create_leaf str : wf (rope_node_create_leaf str).
Proof.
  unfold rope_node_create_leaf. cbn [wf].
  pose proof (Zlength_nonneg str).
  rewrite Zlength_take. unfold ROPE_NODE_CAPACITY.
  repeat split; try reflexivity; lia.
Qed.

Lemma leaves_create_leaf str :
  leaves (rope_node_create_leaf str) = [take ROPE_NODE_CAPACITY str].
Proof.
  unfold rope_node_create_leaf. cbn [leaves]. f_equal.
  rewrite Z.min_comm. apply take_min_length.
Qed.

Lemma wf_create_internal l r :
  wf l -> wf r -> l <> nullptr -> r <> nullptr ->
  wf (rope_node_create_internal l r).
Proof.
  intros Wl Wr Hl Hr. unfold rope_node_create_internal.
  cbn [wf rope_node_update]. tauto.
Qed.

Lemma leaves_create_internal l r :
  leaves (rope_node_create_internal l r) = leaves l ++ leaves r.
Proof. reflexivity. Qed.

(** The node that a case of [rope_node_balance] returns is given by
    computation; its invariant consists of facts about the subtrees, which
    are hypotheses, and of cached fields, which [rope_node_update] has just
    written. *)
Ltac rebuilt :=
  eexists; split; [reflexivity |]; simpl;
  repeat split; try assumption; try discriminate; try reflexivity;
  rewrite <- ?app_assoc; reflexivity.

(** The result of [rope_node_balance] on an internal node with well-formed
    children, whatever its cached fields: the call succeeds, the result is
    well formed and has the same leaves in the same order. *)
Lemma rope_node_balance_wf l r h w data :
  wf l -> wf r -> l <> nullptr -> r <> nullptr ->
  exists t,
    rope_node_balance (Node l r h w false data) = Some t
    /\ wf t /\ t <> nullptr /\ leaves t = leaves l ++ leaves r.
Proof.
  intros Wl Wr Hl Hr.
  pose proof (wf_height_pos l Wl Hl) as Pl.
  pose proof (wf_height_pos r Wr Hr) as Pr.
  unfold rope_node_balance. cbn [rope_node_update rope_node_balance_factor].
  destruct (Z.ltb_spec 1 (rope_node_get_height l - rope_node_get_height r))
    as [Hheavy | Hnot].
  - (* left-heavy: the left child is an internal node *)
    destruct l as [| ll lr lh lw [|] ld]; [congruence | |].
    { apply wf_height_leaf in Wl. simpl in Hheavy. lia. }
    pose proof Wl as (Hll & Hlr & Wll & Wlr & Hlh & Hlw).
    cbn [rope_node_balance_factor].
    destruct (Z.ltb_spec (rope_node_get_height ll - rope_node_get_height lr) 0)
      as [Hdouble | Hsingle].
    + pose proof (wf_height_pos ll Wll Hll) as Pll.
      destruct lr as [| m1 m2 mh mw [|] md]; [congruence | |].
      { apply wf_height_leaf in Wlr. simpl in Hdouble. lia. }
      pose proof Wlr as (Hm1 & Hm2 & Wm1 & Wm2 & Hmh & Hmw).
      rebuilt.
    + rebuilt.
  - destruct (Z.ltb_spec (rope_node_get_height l - rope_node_get_height r) (-1))
      as [Hheavy | Hbal].
    + (* right-heavy: the right child is an internal node *)
      destruct r as [| rl rr rh rw [|] rd]; [congruence | |].
      { apply wf_height_leaf in Wr. simpl in Hheavy. lia. }
      pose proof Wr as (Hrl & Hrr & Wrl & Wrr & Hrh & Hrw).
      cbn [rope_node_balance_factor].
      destruct (Z.ltb_spec 0 (rope_node_get_height rl - rope_node_get_height rr))
        as [Hdouble | Hsingle].
      * pose proof (wf_height_pos rr Wrr Hrr) as Prr.
        destruct rl as [| m1 m2 mh mw [|] md]; [congruence | |].
        { apply wf_height_leaf in Wrl. simpl in Hdouble. lia. }
        pose proof Wrl as (Hm1 & Hm2 & Wm1 & Wm2 & Hmh & Hmw).
        rebuilt.
      * rebuilt.
    + rebuilt.
Qed.

Lemma rope_node_balance_content l r h w data :
  wf l -> wf r -> l <> nullptr -> r <> nullptr ->
  exists t,
    rope_node_balance (Node l r h w false data) = Some t
    /\ wf t /\ t <> nullptr /\ content t = content l ++ content r.
Proof.
  intros Wl Wr Hl Hr.
  destruct (rope_node_balance_wf l r h w data Wl Wr Hl Hr)
    as (t & Ht & Wt & Nt & Lt).
  exists t. repeat split; try assumption.
  rewrite !content_leaves, Lt. apply concat_app.
Qed.

(** * Insertion *)

(** The empty-rope branch: any string is laid out in leaves, nothing is
    lost. *)
Lemma rope_node_insert_null str :
  forall pos,
  exists t,
    rope_node_insert nullptr pos str = Some t
    /\ wf t /\ t <> nullptr /\ content t = str
    /\ (0 < Zlength str -> no_empty_leaf t = true).
Proof.
  remember (length str) as n eqn:Hn.
  revert str Hn. induction n as [n IH] using lt_wf_ind. intros str Hn pos.
  rewrite rope_node_insert_equation_1.
  destruct (Z_le_gt_dec (Zlength str) ROPE_NODE_CAPACITY) as [Hfit | Hbig];
    cbn.
  - exists (rope_node_create_leaf str).
    split; [reflexivity |]. split; [apply wf_create_leaf |].
    split; [discriminate |].
    rewrite content_leaves, no_empty_leaf_leaves, leaves_create_leaf.
    rewrite take_all by lia. cbn. rewrite app_nil_r.
    split; [reflexivity |]. intros Hpos.
    destruct (Z.eqb_spec (Zlength str) 0); [lia | reflexivity].
  - pose proof (split_mid_bounds (Zlength str) ltac:(lia)) as Hmid.
    set (mid := split_mid (Zlength str)) in *.
    unfold ROPE_NODE_CAPACITY in *.
    assert (Htl : Zlength (take mid str) = mid) by (rewrite Zlength_take; lia).
    assert (Hdl : Zlength (drop mid str) = Zlength str - mid)
      by (rewrite Zlength_drop; lia).
    destruct (IH (length (take mid str))) with (str := take mid str) (pos := 0)
      as (tl & El & Wl & Nl & Cl & Pl); [| reflexivity |].
    { subst n. apply Nat2Z.inj_lt. rewrite <- !Zlength_correct. lia. }
    destruct (IH (length (drop mid str))) with (str := drop mid str) (pos := 0)
      as (tr & Er & Wr & Nr & Cr & Pr); [| reflexivity |].
    { subst n. apply Nat2Z.inj_lt. rewrite <- !Zlength_correct. lia. }
    rewrite El, Er.
    exists (rope_node_create_internal tl tr).
    split; [reflexivity |].
    split; [apply wf_create_internal; assumption |].
    split; [discriminate |].
    cbn. rewrite Cl, Cr, take_drop. split; [reflexivity |].
    intros _. rewrite Pl, Pr by lia. reflexivity.
Qed.

Lemma inserted_not_null node str :
  node <> nullptr -> inserted node str = take ROPE_NODE_CAPACITY str.
Proof. destruct node; [congruence | reflexivity]. Qed.

Lemma rope_node_insert_content node :
  forall pos str,
    wf node -> 0 <= pos <= Zlength (content node) ->
    exists t,
      rope_node_insert node pos str = Some t
      /\ wf t /\ t <> nullptr
      /\ content t =
         take pos (content node) ++ inserted node str ++ drop pos (content node).
Proof.
  induction node as [| l IHl r IHr h w is_leaf data]; intros pos str W Hpos.
  - destruct (rope_node_insert_null str pos) as (t & E & Wt & Nt & Ct & _).
    exists t. repeat split; try assumption.
    cbn. unfold take, drop. rewrite firstn_nil, skipn_nil, app_nil_r.
    assumption.
  - destruct is_leaf.
    + rewrite rope_node_insert_equation_2. cbn zeta.
      cbn [wf] in W. destruct W as (-> & -> & -> & -> & Hcap).
      cbn [content] in *.
      destruct (Z.ltb_spec (Zlength data) pos) as [Hout | _]; [lia |].
      destruct (Z.leb_spec (Zlength data + Zlength str) ROPE_NODE_CAPACITY)
        as [Hfit | Hsplit].
      * eexists. split; [reflexivity |].
        cbn [rope_node_update wf content rope_node_get_height inserted].
        pose proof (Zlength_nonneg data).
        rewrite (take_all ROPE_NODE_CAPACITY str) by lia.
        repeat split; try reflexivity; try discriminate.
        rewrite !Zlength_app, Zlength_take, Zlength_drop. lia.
      * unfold rope_node_create_internal at 1. cbn [rope_node_update].
        edestruct rope_node_balance_wf as (t & E & Wt & Nt & Lt);
          [| | | | rewrite E].
        -- apply wf_create_internal; try apply wf_create_leaf; discriminate.
        -- apply wf_create_leaf.
        -- discriminate.
        -- discriminate.
        -- exists t. repeat split; try assumption.
           rewrite content_leaves, Lt, leaves_create_internal.
           rewrite !leaves_create_leaf. cbn.
           rewrite (take_all _ (take pos data))
             by (rewrite Zlength_take; lia).
           rewrite (take_all _ (drop pos data))
             by (rewrite Zlength_drop; lia).
           rewrite app_nil_r. reflexivity.
    + rewrite rope_node_insert_equation_3.
      cbn [wf] in W. destruct W as (Hl & Hr & Wl & Wr & Hh & Hw).
      cbn [content inserted] in *.
      rewrite Zlength_app in Hpos.
      rewrite Hw, rope_node_get_weight_content.
      pose proof (Zlength_nonneg (content l)).
      pose proof (Zlength_nonneg (content r)).
      rewrite take_app, drop_app.
      destruct (Z.leb_spec pos (Zlength (content l))) as [Hleft | Hright].
      * destruct (IHl pos str Wl ltac:(lia)) as (l' & E & Wl' & Nl' & Cl').
        rewrite E.
        destruct (rope_node_balance_content l' r h (Zlength (content l)) data)
          as (t & Et & Wt & Nt & Ct); try assumption.
        exists t. repeat split; try assumption.
        rewrite Ct, Cl', inserted_not_null by assumption.
        rewrite (take_nonpos (pos - Zlength (content l))) by lia.
        rewrite (drop_nonpos (pos - Zlength (content l))) by lia.
        rewrite app_nil_r, <- !app_assoc. reflexivity.
      * destruct (IHr (pos - Zlength (content l)) str Wr ltac:(lia))
          as (r' & E & Wr' & Nr' & Cr').
        rewrite E.
        destruct (rope_node_balance_content l r' h (Zlength (content l)) data)
          as (t & Et & Wt & Nt & Ct); try assumption.
        exists t. repeat split; try assumption.
        rewrite Ct, Cr', inserted_not_null by assumption.
        rewrite (take_all pos (content l)) by lia.
        rewrite (drop_all pos (content l)) by lia.
        rewrite <- !app_assoc. reflexivity.
Qed.

(** * Deletion *)

Lemma remove_clip l pos len :
  0 <= pos -> pos < Zlength l ->
  remove l pos (Z.min len (Zlength l - pos)) = remove l pos len.
Proof.
  intros Hp Hlt. unfold remove.
  destruct (Z.le_ge_cases len (Zlength l - pos)).
  - rewrite Z.min_l by lia. reflexivity.
  - rewrite Z.min_r by lia. rewrite !drop_all by lia. reflexivity.
Qed.

Lemma rope_node_balance_no_empty_leaf l r h w data t :
  wf l -> wf r -> l <> nullptr -> r <> nullptr ->
  rope_node_balance (Node l r h w false data) = Some t ->
  no_empty_leaf t = no_empty_leaf l && no_empty_leaf r.
Proof.
  intros Wl Wr Hl Hr E.
  destruct (rope_node_balance_wf l r h w data Wl Wr Hl Hr)
    as (t' & Et & _ & _ & Lt).
  rewrite E in Et. injection Et as <-.
  rewrite !no_empty_leaf_leaves, Lt. apply forallb_app.
Qed.

(** [rope_node_delete] on a well-formed tree: the call succeeds, the
    result is well formed (or null), and its content is the old one
    without the range; it introduces no empty leaf. *)
Lemma rope_node_delete_content node :
  forall pos len,
    wf node -> 0 <= pos -> 0 <= len ->
    exists t,
      rope_node_delete node pos len = Some t
      /\ wf t
      /\ content t = remove (content node) pos len
      /\ (no_empty_leaf node = true -> no_empty_leaf t = true).
Proof.
  induction node as [| l IHl r IHr h w is_leaf data];
    intros pos len W Hpos Hlen.
  - exists nullptr. cbn. unfold remove, take, drop.
    rewrite firstn_nil, skipn_nil. auto.
  - cbn [rope_node_delete].
    destruct (Z.eqb_spec len 0) as [-> | Hnz].
    { eexists. split; [reflexivity |]. rewrite remove_zero. auto. }
    destruct is_leaf.
    + cbn [content wf no_empty_leaf] in *.
      destruct W as (-> & -> & -> & -> & Hcap).
      destruct (Z.leb_spec (Zlength data) pos) as [Hout | Hin].
      { eexists. split; [reflexivity |].
        rewrite remove_beyond by lia. cbn [wf content no_empty_leaf].
        auto 6. }
      fold (remove data pos (Z.min len (Zlength data - pos))).
      rewrite remove_clip by lia.
      destruct (Z.eqb_spec (Zlength (remove data pos len)) 0) as [Hz | Hz].
      * exists nullptr. cbn. rewrite (Zlength_nil_inv _ Hz). auto.
      * eexists. split; [reflexivity |].
        cbn [rope_node_update wf content no_empty_leaf rope_node_get_height].
        rewrite Zlength_remove by lia.
        repeat split; try reflexivity; try lia.
        intros _. rewrite <- Zlength_remove by lia.
        destruct (Z.eqb_spec (Zlength (remove data pos len)) 0);
          [contradiction | reflexivity].
    + cbn [wf content no_empty_leaf] in *.
      destruct W as (Hl & Hr & Wl & Wr & Hh & Hw).
      rewrite rope_node_get_weight_content.
      pose proof (Zlength_nonneg (content l)) as Pl.
      (* the children after the recursive calls *)
      assert (Hchildren : exists l' r',
        (if pos <? Zlength (content l)
         then
           l'0 <- rope_node_delete l pos (Z.min len (Zlength (content l) - pos)) ;;
           (if Z.min len (Zlength (content l) - pos) <? len
            then
              r'0 <- rope_node_delete r 0
                       (len - Z.min len (Zlength (content l) - pos)) ;;
              Some (l'0, r'0)
            else Some (l'0, r))
         else
           r'0 <- rope_node_delete r (pos - Zlength (content l)) len ;;
           Some (l, r'0)) = Some (l', r')
        /\ wf l' /\ wf r'
        /\ content l' ++ content r' = remove (content l ++ content r) pos len
        /\ (no_empty_leaf l && no_empty_leaf r = true ->
            no_empty_leaf l' && no_empty_leaf r' = true)).
      { destruct (Z.ltb_spec pos (Zlength (content l))) as [Hleft | Hright].
        - destruct (IHl pos (Z.min len (Zlength (content l) - pos)) Wl)
            as (l' & El & Wl' & Cl' & Pl'); [lia | lia |].
          rewrite El. cbn [bind].
          destruct (Z.ltb_spec (Z.min len (Zlength (content l) - pos)) len)
            as [Hspan | Hinside].
          + destruct (IHr 0 (len - Z.min len (Zlength (content l) - pos)) Wr)
              as (r' & Er & Wr' & Cr' & Pr'); [lia | lia |].
            rewrite Er. cbn [bind].
            exists l', r'. split; [reflexivity |].
            split; [assumption |]. split; [assumption |].
            split.
            * rewrite Cl', Cr'.
              rewrite Z.min_r by lia.
              symmetry. apply remove_app_left_span; lia.
            * rewrite !andb_true_iff. intros [? ?]. auto.
          + exists l', r. split; [reflexivity |].
            split; [assumption |]. split; [assumption |].
            split.
            * rewrite Cl'. rewrite Z.min_l by lia.
              symmetry. apply remove_app_left_only; lia.
            * rewrite !andb_true_iff. intros [? ?]. auto.
        - destruct (IHr (pos - Zlength (content l)) len Wr)
            as (r' & Er & Wr' & Cr' & Pr'); [lia | lia |].
          rewrite Er. cbn [bind].
          exists l, r'. split; [reflexivity |].
          split; [assumption |]. split; [assumption |].
          split.
          + rewrite Cr'. symmetry. apply remove_app_right; lia.
          + rewrite !andb_true_iff. intros [? ?]. auto. }
      destruct Hchildren as (l' & r' & E & Wl' & Wr' & C & P).
      rewrite E. cbn [bind]. rewrite <- C.
      destruct l' as [| a1 a2 a3 a4 a5 a6].
      * destruct r' as [| b1 b2 b3 b4 b5 b6].
        -- exists nullptr. cbn. auto.
        -- eexists. split; [reflexivity |].
           split; [assumption |]. split; [reflexivity |].
           intros Hne. apply P in Hne. exact Hne.
      * destruct r' as [| b1 b2 b3 b4 b5 b6].
        -- eexists. split; [reflexivity |].
           split; [assumption |]. split; [symmetry; apply app_nil_r |].
           intros Hne. apply P in Hne. rewrite andb_true_r in Hne. exact Hne.
        -- edestruct rope_node_balance_content as (t & Et & Wt & _ & Ct);
             [exact Wl' | exact Wr' | discriminate | discriminate |].
           exists t. split; [exact Et |].
           split; [assumption |]. split; [assumption |].
           intros Hne. apply P in Hne.
           erewrite rope_node_balance_no_empty_leaf;
             [exact Hne | exact Wl' | exact Wr' | discriminate | discriminate
             | exact Et].
Qed.

(** * The facade: reading *)

Lemma rope_copy_node rope pos buffer len :
  rope_copy rope pos buffer len = rope_node_copy (root rope) pos buffer 0 len.
Proof.
  unfold rope_copy. destruct (root rope); reflexivity.
Qed.

Lemma rope_copy_slice rope pos buffer len :
  0 <= pos -> 0 <= len -> len <= Zlength buffer ->
  rope_copy rope pos buffer len =
  Some (Zlength (slice (content (root rope)) pos len),
        write buffer 0 (slice (content (root rope)) pos len)).
Proof.
  intros Hp Hl Hroom. rewrite rope_copy_node.
  apply rope_node_copy_slice; lia.
Qed.

Lemma Zlength_new_char_array garbage n :
  0 <= n -> Zlength (new_char_array garbage n) = n.
Proof.
  intros Hn. unfold new_char_array.
  rewrite Zlength_correct, length_map, length_seq. lia.
Qed.

Lemma write_prefix buffer src :
  write buffer 0 src = src ++ drop (Zlength src) buffer.
Proof.
  unfold write. rewrite take_nonpos by lia. reflexivity.
Qed.

Lemma write_last l rest c :
  Zlength rest = 1 ->
  write (l ++ rest) (Zlength l) [c] = l ++ [c].
Proof.
  intros H. unfold write.
  rewrite take_app, drop_app, (take_all _ l), (drop_all _ l);
    try (rewrite ?Zlength_cons, ?Zlength_nil; lia).
  rewrite take_nonpos by lia.
  rewrite drop_all by (rewrite Zlength_cons, Zlength_nil; lia).
  rewrite !app_nil_r. reflexivity.
Qed.

(** [rope_to_string] when the cached length is the number of bytes in the
    leaves: the content followed by the terminator, whatever the fresh
    array held. *)
Lemma rope_to_string_content garbage rope :
  total_length rope = leaf_length_sum (root rope) ->
  rope_to_string garbage rope = Some (content (root rope) ++ [NUL]).
Proof.
  intros Hlen. rewrite leaf_length_sum_content in Hlen.
  unfold rope_to_string.
  pose proof (Zlength_nonneg (content (root rope))) as Hc.
  pose proof (Zlength_new_char_array garbage (total_length rope + 1)
                ltac:(lia)) as Hbuf.
  set (str := new_char_array garbage (total_length rope + 1)) in *.
  rewrite rope_copy_slice by lia. cbn [bind snd].
  rewrite Hlen, slice_full, write_prefix.
  rewrite memcpy_write.
  - rewrite write_last; [reflexivity |].
    rewrite Zlength_drop. lia.
  - rewrite Zlength_app, Zlength_drop, Zlength_cons, Zlength_nil. lia.
Qed.

Lemma slice_one l i :
  0 <= i < Zlength l ->
  exists b, slice l i 1 = [b] /\ nth_error l (Z.to_nat i) = Some b.
Proof.
  intros Hi. unfold slice, take, drop.
  rewrite Zlength_correct in Hi.
  destruct (nth_error l (Z.to_nat i)) as [b |] eqn:E.
  - exists b. split; [| reflexivity].
    apply nth_error_split in E. destruct E as (l1 & l2 & -> & Hl1).
    rewrite skipn_app, Hl1, Nat.sub_diag.
    rewrite skipn_all2 by lia. reflexivity.
  - apply nth_error_None in E. lia.
Qed.

Lemma c_str_prefix str : take (strlen str) str = c_str str.
Proof.
  unfold strlen, take. rewrite Zlength_correct, Nat2Z.id.
  induction str as [| c rest IH]; cbn [c_str].
  - reflexivity.
  - destruct (Byte.eqb c NUL); cbn [length firstn]; [reflexivity |].
    rewrite IH. reflexivity.
Qed.

Lemma c_str_no_nul str : ~ In NUL str -> c_str str = str.
Proof.
  induction str as [| c rest IH]; cbn [c_str In]; intros Hnot.
  - reflexivity.
  - destruct (Byte.eqb c NUL) eqn:E.
    + apply Byte.byte_dec_bl in E. tauto.
    + rewrite IH by tauto. reflexivity.
Qed.

(** [fromString] always succeeds: the rope holds the C string at [str], in
    one leaf or in a tree of leaves, and satisfies the invariant of the
    facade. *)
Lemma rope_from_string_content (rope0 : Rope) (str : list byte) :
  exists rope,
    rope_from_string rope0 str = Some rope
    /\ rope_ok rope
    /\ total_length rope = strlen str
    /\ content (root rope) = c_str str.
Proof.
  unfold rope_from_string. rewrite c_str_prefix.
  pose proof (Zlength_nonneg (c_str str)) as Hnn.
  unfold strlen.
  destruct (Z.eqb_spec (Zlength (c_str str)) 0) as [Hz | Hnz].
  - exists (mkRope nullptr 0).
    rewrite (Zlength_nil_inv _ Hz).
    repeat split; reflexivity.
  - destruct (Z.leb_spec (Zlength (c_str str)) ROPE_NODE_CAPACITY)
      as [Hfit | Hbig].
    + eexists. split; [reflexivity |].
      assert (Hc : content (rope_node_create_leaf (c_str str)) = c_str str).
      { rewrite content_leaves, leaves_create_leaf, take_all by lia.
        cbn. apply app_nil_r. }
      split; [| split; [reflexivity | exact Hc]].
      split; cbn [root total_length].
      * apply wf_create_leaf.
      * rewrite leaf_length_sum_content, Hc. reflexivity.
    + unfold rope_insert. cbn [root total_length].
      destruct (Z.eqb_spec (Zlength (c_str str)) 0) as [? | _]; [lia |].
      destruct (rope_node_insert_null (c_str str) 0)
        as (t & E & Wt & Nt & Ct & _).
      rewrite E. cbn [bind].
      eexists. split; [reflexivity |].
      split; [| split; [reflexivity | exact Ct]].
      split; cbn [root total_length].
      * exact Wt.
      * rewrite leaf_length_sum_content, Ct. reflexivity.
Qed.

(** * Properties of the public operations *)

(** C4. [toString (fromString s) = s] for every C string: the rope built
    from the memory at [str] is materialised as the bytes before the first
    NUL of [str], followed by the terminator, whatever the length of the
    string (one leaf or a tree of leaves) and whatever the fresh array
    held.  The rope built also satisfies the invariant of the facade. *)
Theorem rope_to_string_from_string (garbage : nat -> byte)
  (rope0 : Rope) (str : list byte) :
  exists rope,
    rope_from_string rope0 str = Some rope
    /\ rope_ok rope
    /\ total_length rope = strlen str
    /\ rope_to_string garbage rope = Some (c_str str ++ [NUL]).
Proof.
  destruct (rope_from_string_content rope0 str) as (rope & E & Hok & Hl & Hc).
  exists rope. repeat split; try assumption; try apply Hok.
  rewrite rope_to_string_content by apply Hok.
  rewrite Hc. reflexivity.
Qed.

(** The same for a string without NUL: the materialisation is the string
    itself. *)
Corollary rope_to_string_from_string_nul_free garbage rope0 str :
  ~ In NUL str ->
  exists rope,
    rope_from_string rope0 str = Some rope
    /\ rope_to_string garbage rope = Some (str ++ [NUL]).
Proof.
  intros Hnot.
  destruct (rope_from_string_content rope0 str) as (rope & E & Hok & _ & Hc).
  exists rope. split; [assumption |].
  rewrite rope_to_string_content by apply Hok.
  rewrite Hc, (c_str_no_nul str Hnot). reflexivity.
Qed.

(** What C8 says, on a rope whose cached length is that of its leaves (the
    invariant of the data model), for every [pos], [len] and storage of at
    least [len] bytes: the call returns [min len (length - pos)] when
    [pos < length] and 0 otherwise; exactly that many bytes are written,
    at the front of [out], and they are the bytes of the content from
    [pos]; the rest of [out] is untouched. *)
Theorem rope_copy_clamped (rope : Rope) (pos len : Z) (out : list byte) :
  total_length rope = leaf_length_sum (root rope) ->
  0 <= pos -> 0 <= len -> len <= Zlength out ->
  exists bytes,
    rope_copy rope pos out len
    = Some (available rope pos len, bytes ++ drop (available rope pos len) out)
    /\ bytes = slice (content (root rope)) pos (available rope pos len)
    /\ Zlength bytes = available rope pos len
    /\ pos + available rope pos len <= Z.max pos (total_length rope).
Proof.
  intros Hlen Hpos Hl Hroom. rewrite leaf_length_sum_content in Hlen.
  exists (slice (content (root rope)) pos len).
  assert (Hn : Zlength (slice (content (root rope)) pos len)
               = available rope pos len).
  { rewrite Zlength_slice by lia. unfold available. rewrite Hlen.
    reflexivity. }
  rewrite rope_copy_slice by lia.
  rewrite write_prefix. rewrite Hn.
  split; [reflexivity |]. split; [| split; [reflexivity |]].
  - unfold available. rewrite Hlen.
    destruct (Z.ltb_spec pos (Zlength (content (root rope)))).
    + symmetry. apply slice_clip; lia.
    + rewrite slice_beyond, slice_zero by lia. reflexivity.
  - unfold available.
    destruct (Z.ltb_spec pos (total_length rope)); lia.
Qed.

(** What C9 says, on a rope whose cached length is that of its leaves:
    [charAt i] for [i] in [[0, length)] is the [i]-th byte of
    [toString]. *)
Theorem rope_char_at_to_string (garbage : nat -> byte) (rope : Rope) (i : Z) :
  total_length rope = leaf_length_sum (root rope) ->
  0 <= i < total_length rope ->
  exists b str,
    rope_char_at rope i = Some b
    /\ rope_to_string garbage rope = Some str
    /\ nth_error str (Z.to_nat i) = Some b.
Proof.
  intros Hlen Hi.
  rewrite (rope_to_string_content garbage rope Hlen).
  rewrite leaf_length_sum_content in Hlen.
  destruct (slice_one (content (root rope)) i ltac:(lia)) as (b & Hs & Hb).
  exists b, (content (root rope) ++ [NUL]).
  split; [| split; [reflexivity |]].
  - unfold rope_char_at.
    rewrite rope_copy_slice
      by (rewrite ?Zlength_cons, ?Zlength_nil; lia).
    rewrite Hs. reflexivity.
  - rewrite nth_error_app1; [exact Hb |].
    rewrite Zlength_correct in Hlen. lia.
Qed.

(** Beyond the end of a rope whose leaves hold no more than the cached
    length: [charAt] returns NUL, [copy] returns 0 and leaves the storage
    as it was. *)
Lemma rope_char_at_beyond_leaves (rope : Rope) (pos : Z) :
  leaf_length_sum (root rope) <= total_length rope ->
  total_length rope <= pos ->
  rope_char_at rope pos = Some NUL
  /\ forall out len,
       0 <= len <= Zlength out -> rope_copy rope pos out len = Some (0, out).
Proof.
  intros Hlen Hpos. rewrite leaf_length_sum_content in Hlen.
  pose proof (Zlength_nonneg (content (root rope))) as Hnn.
  split.
  - unfold rope_char_at.
    rewrite rope_copy_slice
      by (rewrite ?Zlength_cons, ?Zlength_nil; lia).
    rewrite slice_beyond by lia. reflexivity.
  - intros out len Hl.
    rewrite rope_copy_slice by lia.
    rewrite slice_beyond by lia. rewrite write_nil. reflexivity.
Qed.

(** [delete] on a rope that satisfies the invariant of the facade, for any
    [pos] and [len]: the call returns, the range is removed from the
    content and the invariant holds again. *)
Lemma rope_delete_content (rope : Rope) (pos len : Z) :
  rope_ok rope -> 0 <= pos -> 0 <= len ->
  exists rope',
    rope_delete rope pos len = Some rope'
    /\ rope_ok rope'
    /\ content (root rope') = remove (content (root rope)) pos len.
Proof.
  intros [W Hlen] Hpos Hl.
  pose proof Hlen as Hc. rewrite leaf_length_sum_content in Hc.
  unfold rope_delete.
  destruct (Z.eqb_spec len 0) as [-> | Hnz].
  - exists rope. rewrite remove_zero. repeat split; assumption.
  - destruct (rope_node_delete_content (root rope) pos len W Hpos Hl)
      as (t & E & Wt & Ct & _).
    rewrite E. cbn [bind].
    eexists. split; [reflexivity |]. cbn [root total_length].
    split; [| exact Ct].
    split; cbn [root total_length]; [exact Wt |].
    rewrite leaf_length_sum_content, Ct, Zlength_remove by lia.
    rewrite Hc. reflexivity.
Qed.

(** What C5 says, on a rope that satisfies the invariants of the data
    model, for [pos] in [[0, length)] and any [len]: exactly
    [min len (length - pos)] bytes go, those from [pos]; [toString]
    afterwards is the old first [pos] bytes followed by the old bytes from
    [pos + min len (length - pos)], and the length decreases by that
    count.  The invariants hold again afterwards. *)
Theorem rope_delete_clamped (garbage garbage' : nat -> byte)
  (rope : Rope) (pos len : Z) :
  rope_ok rope ->
  0 <= pos < total_length rope -> 0 <= len ->
  exists rope' old,
    rope_delete rope pos len = Some rope'
    /\ rope_ok rope'
    /\ rope_to_string garbage rope = Some (old ++ [NUL])
    /\ rope_to_string garbage' rope'
       = Some (take pos old
               ++ drop (pos + Z.min len (total_length rope - pos)) old
               ++ [NUL])
    /\ total_length rope'
       = total_length rope - Z.min len (total_length rope - pos).
Proof.
  intros Hok Hpos Hl.
  destruct (rope_delete_content rope pos len Hok ltac:(lia) Hl)
    as (rope' & E & Hok' & Ct).
  exists rope', (content (root rope)).
  pose proof (proj2 Hok) as Hc. rewrite leaf_length_sum_content in Hc.
  pose proof (proj2 Hok') as Hc'. rewrite leaf_length_sum_content in Hc'.
  split; [exact E |]. split; [exact Hok' |].
  rewrite !rope_to_string_content by (apply Hok || apply Hok').
  split; [reflexivity |].
  rewrite Ct in *. rewrite Hc.
  rewrite <- (remove_clip (content (root rope)) pos len) by lia.
  split.
  - unfold remove. rewrite <- app_assoc. reflexivity.
  - rewrite Hc', Zlength_remove by lia. lia.
Qed.

(** Insertion of a string that fits a leaf, or into the empty rope: the
    string is placed at [pos] and the invariants of the facade hold
    afterwards. *)
Lemma rope_insert_within_capacity (rope : Rope) (pos : Z) (str : list byte) :
  rope_ok rope ->
  0 <= pos <= total_length rope ->
  Zlength str <= ROPE_NODE_CAPACITY \/ root rope = nullptr ->
  exists rope',
    rope_insert rope pos str = Some rope'
    /\ rope_ok rope'
    /\ content (root rope')
       = take pos (content (root rope)) ++ str ++ drop pos (content (root rope))
    /\ total_length rope' = total_length rope + Zlength str.
Proof.
  intros [W Hlen] Hpos Hsmall.
  pose proof Hlen as Hc. rewrite leaf_length_sum_content in Hc.
  unfold rope_insert.
  destruct (Z.eqb_spec (Zlength str) 0) as [Hz | Hnz].
  - exists rope. rewrite (Zlength_nil_inv _ Hz).
    split; [reflexivity |]. split; [split; assumption |].
    cbn [app]. rewrite take_drop, Zlength_nil. split; [reflexivity | lia].
  - destruct (rope_node_insert_content (root rope) pos str W ltac:(lia))
      as (t & E & Wt & Nt & Ct).
    rewrite E. cbn [bind].
    assert (Hins : inserted (root rope) str = str).
    { destruct Hsmall as [Hfit | Hnull].
      - destruct (root rope); [reflexivity |].
        cbn [inserted]. apply take_all. exact Hfit.
      - rewrite Hnull. reflexivity. }
    rewrite Hins in Ct.
    eexists. split; [reflexivity |]. cbn [root total_length].
    split; [| split; [exact Ct | reflexivity]].
    split; cbn [root total_length]; [exact Wt |].
    rewrite leaf_length_sum_content, Ct.
    rewrite !Zlength_app, Zlength_take, Zlength_drop. lia.
Qed.

(** Deletion keeps the two structural requirements of the data model when
    they hold before: no empty leaf and no null child afterwards. *)
Lemma rope_delete_prunes (rope : Rope) (pos len : Z) :
  wf (root rope) -> no_empty_leaf (root rope) = true ->
  0 <= pos -> 0 <= len ->
  exists rope',
    rope_delete rope pos len = Some rope'
    /\ no_empty_leaf (root rope') = true
    /\ no_null_child (root rope') = true.
Proof.
  intros W Hne Hpos Hlen. unfold rope_delete.
  destruct (Z.eqb_spec len 0) as [-> | Hnz].
  - exists rope. split; [reflexivity |].
    split; [assumption | apply wf_no_null_child; assumption].
  - destruct (rope_node_delete_content (root rope) pos len W Hpos Hlen)
      as (t & E & Wt & _ & Pt).
    rewrite E. cbn [bind]. eexists. split; [reflexivity |].
    cbn [root]. split; [apply Pt; assumption | apply wf_no_null_child; assumption].
Qed.

(** * The states that the operations reach *)

(** An insertion behind the end of a non-empty tree arrives at a leaf with
    a position behind its bytes. *)
Lemma rope_node_insert_out_of_range node :
  forall pos str,
    wf node -> node <> nullptr -> Zlength (content node) < pos ->
    rope_node_insert node pos str = None.
Proof.
  induction node as [| l IHl r IHr h w is_leaf data];
    intros pos str W Hn Hpos; [congruence |].
  destruct is_leaf.
  - rewrite rope_node_insert_equation_2. cbn zeta. cbn [content] in Hpos.
    destruct (Z.ltb_spec (Zlength data) pos) as [_ | ?]; [| lia].
    destruct (Zlength data + Zlength str <=? ROPE_NODE_CAPACITY); reflexivity.
  - rewrite rope_node_insert_equation_3.
    cbn [wf] in W. destruct W as (Hl & Hr & Wl & Wr & Hh & Hw).
    cbn [content] in Hpos. rewrite Zlength_app in Hpos.
    pose proof (Zlength_nonneg (content r)).
    rewrite Hw, rope_node_get_weight_content.
    destruct (Z.leb_spec pos (Zlength (content l))) as [? | _]; [lia |].
    rewrite IHr by (assumption || lia). reflexivity.
Qed.

(** Whenever an insertion into a well-formed tree returns, the result is
    well formed and holds at most [len] bytes more. *)
Lemma rope_node_insert_some node pos str t :
  wf node -> 0 <= pos ->
  rope_node_insert node pos str = Some t ->
  wf t /\ t <> nullptr
  /\ Zlength (content t) <= Zlength (content node) + Zlength str.
Proof.
  intros W Hpos E.
  destruct node as [| l r h w is_leaf data].
  - destruct (rope_node_insert_null str pos) as (t' & E' & Wt & Nt & Ct & _).
    rewrite E in E'. injection E' as <-.
    rewrite Ct. cbn [content]. rewrite Zlength_nil. auto with zarith.
  - set (node := Node l r h w is_leaf data) in *.
    destruct (Z.le_gt_cases pos (Zlength (content node))) as [Hin | Hout].
    + destruct (rope_node_insert_content node pos str W ltac:(lia))
        as (t' & E' & Wt & Nt & Ct).
      rewrite E in E'. injection E' as <-.
      split; [assumption |]. split; [assumption |].
      rewrite Ct, !Zlength_app, Zlength_take, Zlength_drop.
      subst node. cbn [inserted]. rewrite Zlength_take.
      pose proof (Zlength_nonneg str). unfold ROPE_NODE_CAPACITY. lia.
    + rewrite rope_node_insert_out_of_range in E;
        [discriminate | assumption | discriminate | lia].
Qed.

(** Every operation keeps the tree well formed and the bytes in the leaves
    within the cached length. *)
Lemma step_invariant rope rope' :
  step rope rope' ->
  wf (root rope) /\ leaf_length_sum (root rope) <= total_length rope ->
  wf (root rope') /\ leaf_length_sum (root rope') <= total_length rope'.
Proof.
  intros Hstep [W Hle]. rewrite leaf_length_sum_content in *.
  destruct Hstep as [rope pos str rope' Hpos E
                    | rope pos len rope' Hpos Hlen E
                    | rope str rope' E
                    | rope].
  - unfold rope_insert in E.
    destruct (Zlength str =? 0); [injection E as <-; auto |].
    destruct (rope_node_insert (root rope) pos str) as [t |] eqn:Et;
      [| discriminate].
    cbn [bind] in E. injection E as <-. cbn [root total_length].
    destruct (rope_node_insert_some _ _ _ _ W Hpos Et) as (Wt & _ & Ct).
    split; [assumption | lia].
  - unfold rope_delete in E.
    destruct (len =? 0); [injection E as <-; auto |].
    destruct (rope_node_delete_content (root rope) pos len W Hpos Hlen)
      as (t & Et & Wt & Ct & _).
    rewrite Et in E. cbn [bind] in E. injection E as <-.
    cbn [root total_length]. split; [assumption |].
    rewrite Ct, Zlength_remove by lia.
    pose proof (Zlength_nonneg (content (root rope))). lia.
  - destruct (rope_from_string_content rope str) as (r & Er & [Wr Hr] & _).
    rewrite E in Er. injection Er as <-.
    rewrite leaf_length_sum_content in Hr. split; [assumption | lia].
  - cbn. split; [exact I | lia].
Qed.

Lemma reachable_invariant rope :
  reachable rope ->
  wf (root rope) /\ leaf_length_sum (root rope) <= total_length rope.
Proof.
  induction 1 as [| rope rope' _ IH Hstep].
  - cbn. split; [exact I | lia].
  - exact (step_invariant rope rope' Hstep IH).
Qed.

(** As long as no insertion is longer than a leaf (the empty rope apart),
    every operation keeps the invariant of the facade. *)
Lemma step_within_capacity_ok rope rope' :
  step_within_capacity rope rope' -> rope_ok rope -> rope_ok rope'.
Proof.
  intros Hstep Hok.
  destruct Hstep as [rope pos str rope' Hpos Hsmall E
                    | rope pos len rope' Hpos Hlen E
                    | rope str rope' E
                    | rope].
  - destruct (rope_insert_within_capacity rope pos str Hok Hpos Hsmall)
      as (r & Er & Hr & _).
    congruence.
  - destruct (rope_delete_content rope pos len Hok Hpos Hlen)
      as (r & Er & Hr & _).
    congruence.
  - destruct (rope_from_string_content rope str) as (r & Er & Hr & _).
    congruence.
  - split; [exact I | reflexivity].
Qed.

(** No internal node of a rope that the operations produce has a null
    child. *)
Corollary reachable_no_null_child rope :
  reachable rope -> no_null_child (root rope) = true.
Proof.
  intros H. apply wf_no_null_child. apply reachable_invariant. assumption.
Qed.

(** C10. On every rope that the operations produce from the empty rope
    (the empty rope included) and for every [pos >= length]: [charAt]
    returns NUL, and [copy] returns 0 and leaves the storage as it was. *)
Theorem rope_char_at_out_of_range (rope : Rope) (pos : Z) :
  reachable rope ->
  total_length rope <= pos ->
  rope_char_at rope pos = Some NUL
  /\ forall out len,
       0 <= len <= Zlength out -> rope_copy rope pos out len = Some (0, out).
Proof.
  intros Hreach Hpos.
  apply rope_char_at_beyond_leaves; [| assumption].
  apply reachable_invariant. assumption.
Qed.











(** * The defects *)

(** C1 at its failing input: a string of 1537 bytes put into the empty
    rope (by [insert] or by [fromString]) is cut at 512 and the rest at
    512 again; the root has a leaf on the left and a tree of height 3 on
    the right, a balance factor of -2, and no rebalancing takes place on
    this path. *)
Theorem rope_insert_bulk_unbalanced :
  exists rope l r h w data,
    rope_insert rope_init 0 (repeat "a"%byte 1537) = Some rope
    /\ rope_from_string rope_init (repeat "a"%byte 1537) = Some rope
    /\ root rope = Node l r h w false data
    /\ tree_height l = 1 /\ tree_height r = 3
    /\ rope_node_balance_factor (root rope) = -2
    /\ avl_balanced (root rope) = false.
Proof.
  do 6 eexists. split; [vm_compute; reflexivity |].
  split; [vm_compute; reflexivity |].
  split; [reflexivity |].
  repeat split; vm_compute; reflexivity.
Qed.

(** C2 at its failing input: 600 bytes inserted at the end of the rope
    ["a"].  The leaf is split and the new text goes through
    [rope_node_create_leaf], which keeps 512 bytes; the cached length grows
    by 600. *)
Theorem rope_insert_oversized_length :
  exists rope rope',
    rope_from_string rope_init ["a"%byte] = Some rope
    /\ rope_ok rope
    /\ rope_insert rope 1 (repeat "b"%byte 600) = Some rope'
    /\ total_length rope' = 601
    /\ leaf_length_sum (root rope') = 513.
Proof.
  eexists. eexists. split; [vm_compute; reflexivity |].
  split.
  { split; [| reflexivity]. cbn. unfold ROPE_NODE_CAPACITY.
    repeat split; try reflexivity; lia. }
  split; [vm_compute; reflexivity |].
  split; vm_compute; reflexivity.
Qed.

(** C3 at its failing input: 600 bytes ["b"] inserted at position 0 of the
    rope ["a"].  The rope holds the first 512 of them and then ["a"]; the
    length is 601; byte 512 of [toString] is ["a"], not ["b"], whatever the
    fresh array held. *)
Theorem rope_insert_oversized_content :
  exists rope rope',
    rope_from_string rope_init ["a"%byte] = Some rope
    /\ rope_insert rope 0 (repeat "b"%byte 600) = Some rope'
    /\ content (root rope') = repeat "b"%byte 512 ++ ["a"%byte]
    /\ total_length rope' = total_length rope + 600
    /\ forall garbage,
         rope_to_string garbage rope'
         <> Some (repeat "b"%byte 600 ++ ["a"%byte] ++ [NUL]).
Proof.
  eexists. eexists. split; [vm_compute; reflexivity |].
  split; [vm_compute; reflexivity |].
  split; [vm_compute; reflexivity |].
  split; [vm_compute; reflexivity |].
  intros garbage H.
  apply (f_equal (fun o => match o with
                           | Some str => nth_error str 512
                           | None => None
                           end)) in H.
  vm_compute in H. discriminate H.
Qed.

(** C6 at its failing input: one byte inserted at position 0 of a rope of
    one full leaf.  The leaf is split at offset 0, and the left part, a leaf
    of length zero, stays in the tree. *)
Theorem rope_insert_front_empty_leaf :
  exists rope rope',
    rope_from_string rope_init (repeat "a"%byte 512) = Some rope
    /\ no_empty_leaf (root rope) = true
    /\ rope_insert rope 0 ["b"%byte] = Some rope'
    /\ leaves (root rope') = [[]; ["b"%byte]; repeat "a"%byte 512]
    /\ no_empty_leaf (root rope') = false.
Proof.
  eexists. eexists. split; [vm_compute; reflexivity |].
  split; [vm_compute; reflexivity |].
  split; [vm_compute; reflexivity |].
  split; vm_compute; reflexivity.
Qed.

(** C5 at its failing input: after the insertion of C2 the rope has a
    length of 601 and 513 bytes.  [delete (pos = 510, len = 50)] takes the
    3 bytes that the leaves hold from 510 on, and the length decreases by
    50.  Byte 510 of [toString] afterwards is a byte of the fresh array,
    where the claim has byte 560 of the old string. *)
Theorem rope_delete_after_oversized_insert :
  exists rope rope' rope'',
    rope_from_string rope_init ["a"%byte] = Some rope
    /\ rope_insert rope 1 (repeat "b"%byte 600) = Some rope'
    /\ rope_length rope' = 601
    /\ rope_delete rope' 510 50 = Some rope''
    /\ rope_length rope'' = 601 - 50
    /\ Zlength (content (root rope'')) = Zlength (content (root rope')) - 3
    /\ forall garbage garbage' : nat -> byte,
         exists old new,
           rope_to_string garbage rope' = Some old
           /\ rope_to_string garbage' rope'' = Some new
           /\ nth_error new 510 = Some (garbage' 510%nat)
           /\ nth_error (take 510 old ++ drop (510 + 50) old) 510
              = Some (garbage 560%nat).
Proof.
  eexists. eexists. eexists. split; [vm_compute; reflexivity |].
  split; [vm_compute; reflexivity |].
  split; [vm_compute; reflexivity |].
  split; [vm_compute; reflexivity |].
  split; [vm_compute; reflexivity |].
  split; [vm_compute; reflexivity |].
  intros garbage garbage'. eexists. eexists.
  split; [vm_compute; reflexivity |].
  split; [vm_compute; reflexivity |].
  split; vm_compute; reflexivity.
Qed.

(** C8 at its failing input: on the rope of C2, with a length of 601,
    [copy (pos = 0, len = 601)] returns 513, the number of bytes in the
    leaves, where the claim has [min 601 (601 - 0)]. *)
Theorem rope_copy_after_oversized_insert :
  exists rope rope',
    rope_from_string rope_init ["a"%byte] = Some rope
    /\ rope_insert rope 1 (repeat "b"%byte 600) = Some rope'
    /\ rope_length rope' = 601
    /\ forall out,
         601 <= Zlength out ->
         exists out', rope_copy rope' 0 out 601 = Some (513, out').
Proof.
  eexists. eexists. split; [vm_compute; reflexivity |].
  split; [vm_compute; reflexivity |].
  split; [vm_compute; reflexivity |].
  intros out Hout. rewrite rope_copy_slice by lia.
  eexists. apply f_equal.
  apply f_equal2; [vm_compute; reflexivity | reflexivity].
Qed.

(** C9 at its failing input: on the rope of C2, with a length of 601,
    [charAt 550] is NUL and byte 550 of [toString] is the byte that the
    fresh array held there. *)
Theorem rope_char_at_after_oversized_insert :
  exists rope rope',
    rope_from_string rope_init ["a"%byte] = Some rope
    /\ rope_insert rope 1 (repeat "b"%byte 600) = Some rope'
    /\ rope_length rope' = 601
    /\ rope_char_at rope' 550 = Some NUL
    /\ forall garbage : nat -> byte,
         exists str,
           rope_to_string garbage rope' = Some str
           /\ nth_error str 550 = Some (garbage 550%nat).
Proof.
  eexists. eexists. split; [vm_compute; reflexivity |].
  split; [vm_compute; reflexivity |].
  split; [vm_compute; reflexivity |].
  split; [vm_compute; reflexivity |].
  intros garbage. eexists.
  split; vm_compute; reflexivity.
Qed.

(** * The scenarios of the specification, as instances *)

Example scenario_from_string :
  exists rope,
    rope_from_string rope_init hello_world = Some rope
    /\ rope_length rope = 13
    /\ rope_to_string (fun _ => xff) rope = Some (hello_world ++ [NUL]).
Proof. eexists. repeat split; vm_compute; reflexivity. Qed.

Example scenario_insert :
  exists rope rope',
    rope_from_string rope_init
        ["H"; "e"; "l"; "l"; "o"; "!"]%byte = Some rope
    /\ rope_insert rope 5 [" "; "W"; "o"; "r"; "l"; "d"]%byte = Some rope'
    /\ rope_length rope' = 12
    /\ rope_to_string (fun _ => xff) rope'
       = Some
           (["H"; "e"; "l"; "l"; "o"; " "; "W"; "o"; "r"; "l"; "d"; "!"]%byte
            ++ [NUL]).
Proof. do 2 eexists. repeat split; vm_compute; reflexivity. Qed.

Example scenario_delete :
  exists rope rope',
    rope_from_string rope_init hello_world = Some rope
    /\ rope_delete rope 5 7 = Some rope'
    /\ rope_length rope' = 6
    /\ rope_to_string (fun _ => xff) rope' = Some
           (["H"; "e"; "l"; "l"; "o"; "!"]%byte ++ [NUL]).
Proof. do 2 eexists. repeat split; vm_compute; reflexivity. Qed.

Lemma hello_rope_ok : rope_ok hello_rope.
Proof.
  split; [| reflexivity]. cbn [root hello_rope wf rope_node_create_leaf].
  repeat split; try reflexivity; vm_compute; discriminate.
Defined.

(** [delete (pos = 5, len = 7)] on ["Hello, World!"]. *)
Lemma rope_delete_clamped_witness :
  rope_ok hello_rope /\ 0 <= 5 < total_length hello_rope /\ 0 <= 7
  /\ exists rope' old,
       rope_delete hello_rope 5 7 = Some rope'
       /\ rope_ok rope'
       /\ rope_to_string (fun _ => xff) hello_rope = Some (old ++ [NUL])
       /\ rope_to_string (fun _ => xff) rope'
          = Some (take 5 old
                  ++ drop (5 + Z.min 7 (total_length hello_rope - 5)) old
                  ++ [NUL])
       /\ total_length rope'
          = total_length hello_rope - Z.min 7 (total_length hello_rope - 5).
Proof.
  split; [exact hello_rope_ok |].
  split; [cbn; lia |]. split; [lia |].
  apply (rope_delete_clamped (fun _ => xff) (fun _ => xff) hello_rope 5 7).
  - exact hello_rope_ok.
  - cbn; lia.
  - lia.
Defined.

(** [copy (pos = 7, len = 10)] on ["Hello, World!"] into 10 bytes. *)
Lemma rope_copy_clamped_witness :
  total_length hello_rope = leaf_length_sum (root hello_rope)
  /\ 0 <= 7 /\ 0 <= 10 /\ 10 <= Zlength (repeat xff 10)
  /\ exists bytes,
       rope_copy hello_rope 7 (repeat xff 10) 10
       = Some (available hello_rope 7 10,
               bytes ++ drop (available hello_rope 7 10) (repeat xff 10))
       /\ bytes = slice (content (root hello_rope)) 7 (available hello_rope 7 10)
       /\ Zlength bytes = available hello_rope 7 10
       /\ 7 + available hello_rope 7 10 <= Z.max 7 (total_length hello_rope).
Proof.
  split; [reflexivity |]. split; [lia |]. split; [lia |].
  split; [vm_compute; discriminate |].
  apply (rope_copy_clamped hello_rope 7 10 (repeat xff 10)).
  - reflexivity.
  - lia.
  - lia.
  - vm_compute; discriminate.
Defined.

(** [charAt 4] on ["Hello, World!"]. *)
Lemma rope_char_at_to_string_witness :
  total_length hello_rope = leaf_length_sum (root hello_rope)
  /\ 0 <= 4 < total_length hello_rope
  /\ exists b str,
       rope_char_at hello_rope 4 = Some b
       /\ rope_to_string (fun _ => xff) hello_rope = Some str
       /\ nth_error str (Z.to_nat 4) = Some b.
Proof.
  split; [reflexivity |]. split; [cbn; lia |].
  apply (rope_char_at_to_string (fun _ => xff) hello_rope 4).
  - reflexivity.
  - cbn; lia.
Defined.

Lemma hello_rope_reachable : reachable hello_rope.
Proof.
  apply (reachable_step rope_init hello_rope reachable_init).
  apply (step_from_string rope_init hello_world hello_rope).
  reflexivity.
Defined.

(** [charAt 13] on ["Hello, World!"]. *)
Lemma rope_char_at_out_of_range_witness :
  reachable hello_rope
  /\ total_length hello_rope <= 13
  /\ rope_char_at hello_rope 13 = Some NUL
  /\ forall out len,
       0 <= len <= Zlength out ->
       rope_copy hello_rope 13 out len = Some (0, out).
Proof.
  split; [exact hello_rope_reachable |]. split; [cbn; lia |].
  apply (rope_char_at_out_of_range hello_rope 13).
  - exact hello_rope_reachable.
  - cbn; lia.
Defined.



(** * More of [rope.h]: reading on any rope, substrings *)

Lemma byte_at_nth_error text i b :
  nth_error text (Z.to_nat i) = Some b -> byte_at text i = b.
Proof. intros H. unfold byte_at. apply nth_error_nth. exact H. Qed.

Lemma byte_at_beyond text i : Zlength text <= i -> byte_at text i = NUL.
Proof.
  intros H. unfold byte_at. apply nth_overflow.
  rewrite Zlength_correct in H. lia.
Qed.

Lemma slice_cons text pos len :
  0 <= pos < Zlength text -> 0 < len ->
  slice text pos len = byte_at text pos :: slice text (pos + 1) (len - 1).
Proof.
  intros Hpos Hlen.
  destruct (slice_one text pos Hpos) as (b & Hs & Hb).
  rewrite (byte_at_nth_error _ _ _ Hb).
  unfold slice in *.
  replace (drop (pos + 1) text) with (drop 1 (drop pos text))
    by (rewrite drop_drop by lia; reflexivity).
  destruct (drop pos text) as [| x rest] eqn:E.
  - unfold take in Hs. rewrite firstn_nil in Hs. discriminate.
  - unfold take in Hs. cbn in Hs. injection Hs as ->.
    unfold take, drop. replace (Z.to_nat len) with (S (Z.to_nat (len - 1)))
      by lia.
    reflexivity.
Qed.

Lemma write_middle l m r c i :
  i = Zlength l -> Zlength m = 1 ->
  write (l ++ m ++ r) i [c] = l ++ [c] ++ r.
Proof.
  intros -> Hm. unfold write. pose proof (Zlength_nonneg l).
  rewrite take_app, (take_all _ l), take_nonpos by lia.
  rewrite drop_app, (drop_all _ l)
    by (rewrite Zlength_cons, Zlength_nil; lia).
  rewrite drop_app, (drop_all _ m)
    by (rewrite Zlength_cons, Zlength_nil; lia).
  rewrite drop_nonpos by (rewrite Zlength_cons, Zlength_nil; lia).
  rewrite app_nil_r. reflexivity.
Qed.

(** [rope_char_at] on any rope and at any position returns: the byte of
    the leaves at [pos], NUL behind them. *)
Lemma rope_char_at_byte_at rope pos :
  0 <= pos ->
  rope_char_at rope pos = Some (byte_at (content (root rope)) pos).
Proof.
  intros Hpos. unfold rope_char_at.
  rewrite rope_copy_slice by (rewrite ?Zlength_cons, ?Zlength_nil; lia).
  cbn [bind snd].
  destruct (Z.lt_ge_cases pos (Zlength (content (root rope)))) as [Hin | Hout].
  - destruct (slice_one (content (root rope)) pos ltac:(lia)) as (b & Hs & Hb).
    rewrite Hs, (byte_at_nth_error _ _ _ Hb). reflexivity.
  - rewrite slice_beyond, byte_at_beyond by lia. reflexivity.
Qed.

Lemma rope_substr_loop_slice rope pos count :
  forall i buffer,
    0 <= pos -> 0 <= i ->
    pos + i + Z.of_nat count <= Zlength (content (root rope)) ->
    i + Z.of_nat count <= Zlength buffer ->
    rope_substr_loop rope pos i count buffer =
    Some (write buffer i (slice (content (root rope)) (pos + i) (Z.of_nat count))).
Proof.
  induction count as [| count IH]; intros i buffer Hpos Hi Hin Hroom.
  - cbn [rope_substr_loop]. rewrite slice_zero, write_nil. reflexivity.
  - cbn [rope_substr_loop].
    rewrite rope_char_at_byte_at by lia. cbn [bind].
    rewrite memcpy_write by (rewrite Zlength_cons, Zlength_nil; lia).
    cbn [bind].
    rewrite IH; try lia.
    + rewrite (slice_cons _ (pos + i) (Z.of_nat (S count))) by lia.
      replace (Z.of_nat (S count) - 1) with (Z.of_nat count) by lia.
      replace (pos + (i + 1)) with (pos + i + 1) by lia.
      set (b := byte_at (content (root rope)) (pos + i)).
      set (rest := slice (content (root rope)) (pos + i + 1) (Z.of_nat count)).
      assert (Hrest : Zlength rest = Z.of_nat count).
      { subst rest. rewrite Zlength_slice by lia.
        destruct (Z.ltb_spec (pos + i + 1) (Zlength (content (root rope))));
          lia. }
      change (b :: rest) with ([b] ++ rest).
      rewrite <- (write_write buffer i [b] rest);
        rewrite ?Zlength_cons, ?Zlength_nil; try lia.
      reflexivity.
    + rewrite Zlength_write; rewrite ?Zlength_cons, ?Zlength_nil; lia.
Qed.

(** The number of bytes that a request gets, on a rope whose cached length
    is that of its leaves. *)
Lemma Zlength_slice_available (rope : Rope) (pos length : Z) :
  total_length rope = leaf_length_sum (root rope) ->
  0 <= pos -> 0 <= length ->
  Zlength (slice (content (root rope)) pos length) = available rope pos length.
Proof.
  intros Hlen Hpos Hl. rewrite leaf_length_sum_content in Hlen.
  rewrite Zlength_slice by lia. unfold available. rewrite Hlen.
  reflexivity.
Qed.

Lemma size_t_add_small a b :
  0 <= a -> 0 <= b -> a + b <= SIZE_MAX -> size_t_add a b = a + b.
Proof.
  intros Ha Hb Hmax. unfold size_t_add. apply Z.mod_small.
  unfold SIZE_MAX in *. lia.
Qed.

Lemma size_t_add_le a b : 0 <= a -> 0 <= b -> size_t_add a b <= a + b.
Proof.
  intros Ha Hb. unfold size_t_add. apply Z.mod_le; [lia |].
  unfold SIZE_MAX. lia.
Qed.

(** [rope_substr] in terms of the content, for a request whose end does
    not wrap around or is inside of the rope. *)
Lemma rope_substr_content (rope : Rope) (pos length : Z) (buffer : list byte) :
  total_length rope = leaf_length_sum (root rope) ->
  0 <= pos -> 0 <= length ->
  pos + length <= SIZE_MAX \/ pos + length <= total_length rope ->
  available rope pos length + 1 <= Zlength buffer ->
  rope_substr rope pos length buffer =
  Some (slice (content (root rope)) pos length
        ++ [NUL] ++ drop (available rope pos length + 1) buffer).
Proof.
  intros Hlen Hpos Hl Hwrap Hroom.
  pose proof (Zlength_slice_available rope pos length Hlen Hpos Hl) as Hn.
  rewrite leaf_length_sum_content in Hlen.
  assert (Htest : (total_length rope <? size_t_add pos length)
                  = (total_length rope <? pos + length)).
  { destruct Hwrap as [Hsmall | Hinside].
    - rewrite size_t_add_small by lia. reflexivity.
    - pose proof (size_t_add_le pos length Hpos Hl).
      destruct (Z.ltb_spec (total_length rope) (size_t_add pos length));
        destruct (Z.ltb_spec (total_length rope) (pos + length));
        try reflexivity; lia. }
  unfold rope_substr, rope_length, available in *. rewrite Htest.
  destruct (Z.leb_spec (total_length rope) pos) as [Hout | Hin].
  - destruct (Z.ltb_spec pos (total_length rope)) as [? | _]; [lia |].
    rewrite memcpy_write by (rewrite Zlength_cons, Zlength_nil; lia).
    rewrite slice_beyond by lia. rewrite write_prefix.
    rewrite Zlength_cons, Zlength_nil. reflexivity.
  - destruct (Z.ltb_spec pos (total_length rope)) as [_ | ?]; [| lia].
    cbn zeta.
    set (n := if total_length rope <? pos + length
              then total_length rope - pos else length).
    assert (En : n = Z.min length (total_length rope - pos)).
    { subst n. destruct (Z.ltb_spec (total_length rope) (pos + length)); lia. }
    rewrite En in *. clear n En.
    set (n := Z.min length (total_length rope - pos)) in *.
    rewrite (rope_substr_loop_slice rope pos (Z.to_nat n) 0 buffer);
      try lia.
    cbn [bind]. rewrite Z2Nat.id by lia. rewrite Z.add_0_r.
    assert (Hs : slice (content (root rope)) pos n
                 = slice (content (root rope)) pos length).
    { subst n. rewrite Hlen. apply slice_clip; lia. }
    rewrite Hs, write_prefix, Hn.
    rewrite memcpy_write.
    + replace (drop n buffer)
        with ((take 1 (drop n buffer)) ++ drop (n + 1) buffer).
      * rewrite write_middle; [reflexivity | congruence |].
        rewrite Zlength_take, Zlength_drop. lia.
      * rewrite <- (drop_drop 1 n) by lia. apply take_drop.
    + rewrite Zlength_app, Zlength_drop, Hn, Zlength_cons, Zlength_nil. lia.
Qed.

(** X1. [rope_substr] on a rope whose cached length is that of its leaves,
    for a request whose end [pos + length] does not wrap around: the
    storage receives the bytes of the content from [pos], at most [length]
    and no more than the rope has, and a terminator behind them; behind
    the terminator it is unchanged.  With [pos] at or behind the end it
    receives the terminator alone. *)
Theorem rope_substr_slice (rope : Rope) (pos length : Z) (buffer : list byte) :
  total_length rope = leaf_length_sum (root rope) ->
  0 <= pos -> 0 <= length -> pos + length <= SIZE_MAX ->
  available rope pos length + 1 <= Zlength buffer ->
  rope_substr rope pos length buffer =
  Some (slice (content (root rope)) pos length
        ++ [NUL] ++ drop (available rope pos length + 1) buffer)
  /\ Zlength (slice (content (root rope)) pos length)
     = available rope pos length.
Proof.
  intros Hlen Hpos Hl Hwrap Hroom. split.
  - apply rope_substr_content; try assumption. left. exact Hwrap.
  - apply Zlength_slice_available; assumption.
Qed.

(** The loop of [rope_substr] with more bytes to write than the storage has
    room for leaves the storage. *)
Lemma rope_substr_loop_overflow rope pos count :
  forall i buffer,
    0 <= pos -> 0 <= i <= Zlength buffer ->
    Zlength buffer - i < Z.of_nat count ->
    rope_substr_loop rope pos i count buffer = None.
Proof.
  induction count as [| count IH]; intros i buffer Hpos Hi Hmore.
  - cbn [Z.of_nat] in Hmore. lia.
  - cbn [rope_substr_loop].
    rewrite rope_char_at_byte_at by lia. cbn [bind].
    destruct (Z_le_gt_dec (i + 1) (Zlength buffer)) as [Hroom | Hfull].
    + rewrite memcpy_write by (rewrite Zlength_cons, Zlength_nil; lia).
      cbn [bind].
      apply IH; [lia | |];
        rewrite Zlength_write by (rewrite ?Zlength_cons, ?Zlength_nil; lia);
        lia.
    + unfold memcpy. rewrite Zlength_cons, Zlength_nil.
      destruct (Z.leb_spec (i + Z.succ 0) (Zlength buffer));
        [lia | reflexivity].
Qed.

(** When [pos + length] wraps around, the wrapped sum is below [pos]: the
    clamp is skipped, and a storage of fewer than [length] bytes is left. *)
Lemma rope_substr_wrap_overflow (rope : Rope) (pos length : Z)
  (buffer : list byte) :
  0 <= pos < rope_length rope -> pos <= SIZE_MAX ->
  0 <= length <= SIZE_MAX -> SIZE_MAX < pos + length ->
  Zlength buffer < length ->
  rope_substr rope pos length buffer = None.
Proof.
  intros Hpos Hmax Hl Hwrap Hsmall. unfold rope_substr.
  destruct (Z.leb_spec (rope_length rope) pos) as [? | _]; [lia |].
  assert (Hsum : size_t_add pos length = pos + length - (SIZE_MAX + 1)).
  { unfold size_t_add.
    replace (pos + length)
      with (pos + length - (SIZE_MAX + 1) + 1 * (SIZE_MAX + 1)) at 1 by lia.
    rewrite Z_mod_plus_full. apply Z.mod_small. lia. }
  cbn zeta. rewrite Hsum.
  destruct (Z.ltb_spec (rope_length rope) (pos + length - (SIZE_MAX + 1)))
    as [? | _]; [lia |].
  rewrite rope_substr_loop_overflow; [reflexivity | lia | | ].
  - pose proof (Zlength_nonneg buffer). lia.
  - rewrite Z2Nat.id by lia. lia.
Qed.

(** [rope_substr (pos = 7, length = 2^64 - 1)] on ["Hello, World!"] into 7
    bytes. *)
Example rope_substr_wrap_overflow_hello :
  rope_substr hello_rope 7 SIZE_MAX (repeat xff 7) = None.
Proof.
  apply rope_substr_wrap_overflow; vm_compute;
    repeat split; try reflexivity; discriminate.
Qed.

(** X2. Reading does not depend on the cached length: on any rope, for any
    [pos] and [len] and storage of at least [len] bytes, [copy] returns;
    it writes the bytes of the leaves from [pos], at most [len], at the
    front of the storage, leaves the rest as it was and returns their
    number; [charAt] returns the byte of the leaves at [pos], NUL behind
    the last one. *)
Theorem rope_copy_any_rope (rope : Rope) (pos len : Z) (out : list byte) :
  0 <= pos -> 0 <= len <= Zlength out ->
  exists bytes,
    rope_copy rope pos out len
    = Some (Zlength bytes, bytes ++ drop (Zlength bytes) out)
    /\ bytes = slice (content (root rope)) pos len
    /\ Zlength bytes <= len
    /\ rope_char_at rope pos = Some (byte_at (content (root rope)) pos).
Proof.
  intros Hpos Hlen.
  exists (slice (content (root rope)) pos len).
  rewrite rope_copy_slice by lia. rewrite write_prefix.
  split; [reflexivity |]. split; [reflexivity |]. split.
  - rewrite Zlength_slice by lia.
    destruct (Z.ltb_spec pos (Zlength (content (root rope)))); lia.
  - apply rope_char_at_byte_at. exact Hpos.
Qed.

(** X3. An insertion of at most [ROPE_NODE_CAPACITY] bytes, or of any
    string into the empty rope, at a position of a rope that satisfies the
    invariant of the facade: [toString] afterwards is the old first [pos]
    bytes, the string, and the old rest; the length grows by the length of
    the string, and the invariant holds again. *)
Theorem rope_insert_to_string (garbage garbage' : nat -> byte)
  (rope : Rope) (pos : Z) (str : list byte) :
  rope_ok rope ->
  0 <= pos <= total_length rope ->
  Zlength str <= ROPE_NODE_CAPACITY \/ root rope = nullptr ->
  exists rope' old,
    rope_insert rope pos str = Some rope'
    /\ rope_ok rope'
    /\ rope_to_string garbage rope = Some (old ++ [NUL])
    /\ rope_to_string garbage' rope'
       = Some (take pos old ++ str ++ drop pos old ++ [NUL])
    /\ total_length rope' = total_length rope + Zlength str.
Proof.
  intros Hok Hpos Hsmall.
  destruct (rope_insert_within_capacity rope pos str Hok Hpos Hsmall)
    as (rope' & E & Hok' & Ct & Hl).
  exists rope', (content (root rope)).
  split; [exact E |]. split; [exact Hok' |].
  rewrite !rope_to_string_content by (apply Hok || apply Hok').
  rewrite Ct, <- !app_assoc. auto.
Qed.

(** X4. Insertion and deletion are inverse: after an insertion as in X3,
    the deletion of as many bytes at the same position gives back the
    content and the length of the rope. *)
Theorem rope_insert_delete (rope : Rope) (pos : Z) (str : list byte) :
  rope_ok rope ->
  0 <= pos <= total_length rope ->
  Zlength str <= ROPE_NODE_CAPACITY \/ root rope = nullptr ->
  exists rope' rope'',
    rope_insert rope pos str = Some rope'
    /\ rope_delete rope' pos (Zlength str) = Some rope''
    /\ rope_ok rope''
    /\ content (root rope'') = content (root rope)
    /\ total_length rope'' = total_length rope.
Proof.
  intros Hok Hpos Hsmall.
  destruct (rope_insert_within_capacity rope pos str Hok Hpos Hsmall)
    as (rope' & E & Hok' & Ct & Hl).
  pose proof (Zlength_nonneg str) as Hs.
  destruct (rope_delete_content rope' pos (Zlength str) Hok' ltac:(lia) Hs)
    as (rope'' & E' & Hok'' & Ct').
  exists rope', rope''.
  pose proof (proj2 Hok) as Hc. rewrite leaf_length_sum_content in Hc.
  assert (Hback : content (root rope'') = content (root rope)).
  { rewrite Ct', Ct. unfold remove.
    assert (Ht : Zlength (take pos (content (root rope))) = pos)
      by (rewrite Zlength_take; lia).
    set (p := take pos (content (root rope))) in *.
    rewrite take_app, Ht, (take_all pos p), take_nonpos by lia.
    rewrite !drop_app, Ht.
    rewrite (drop_all _ p) by lia.
    rewrite (drop_all _ str) by lia.
    rewrite drop_nonpos by lia.
    rewrite app_nil_r. apply take_drop. }
  repeat split; try assumption; try apply Hok''.
  rewrite (proj2 Hok''), leaf_length_sum_content, Hback. congruence.
Qed.

(** X5. The round trip of the specification: the bytes that [copy] reads
    at [pos], deleted and inserted again at [pos], give back the content
    and the length, when they fit a leaf. *)
Theorem rope_delete_reinsert (rope : Rope) (pos len : Z) (out : list byte) :
  rope_ok rope ->
  0 <= pos <= total_length rope -> 0 <= len <= Zlength out ->
  available rope pos len <= ROPE_NODE_CAPACITY ->
  exists bytes rest rope' rope'',
    rope_copy rope pos out len = Some (Zlength bytes, bytes ++ rest)
    /\ rope_delete rope pos len = Some rope'
    /\ rope_insert rope' pos bytes = Some rope''
    /\ rope_ok rope''
    /\ content (root rope'') = content (root rope)
    /\ total_length rope'' = total_length rope.
Proof.
  intros Hok Hpos Hlen Hsmall.
  pose proof (proj2 Hok) as Hc. rewrite leaf_length_sum_content in Hc.
  set (c := content (root rope)) in *.
  set (bytes := slice c pos len).
  assert (Hb : Zlength bytes = available rope pos len).
  { subst bytes. rewrite Zlength_slice by lia. unfold available.
    rewrite Hc. reflexivity. }
  assert (Hbl : Zlength bytes = Z.min len (Zlength c - pos)).
  { rewrite Hb. unfold available. rewrite Hc.
    destruct (Z.ltb_spec pos (Zlength c)); lia. }
  destruct (rope_delete_content rope pos len Hok ltac:(lia) ltac:(lia))
    as (rope' & E & Hok' & Ct).
  fold c in Ct.
  pose proof (proj2 Hok') as Hc'. rewrite leaf_length_sum_content, Ct in Hc'.
  rewrite Zlength_remove in Hc' by lia.
  destruct (rope_insert_within_capacity rope' pos bytes Hok')
    as (rope'' & E' & Hok'' & Ct' & Hl'); [lia | left; lia |].
  exists bytes, (drop (Zlength bytes) out), rope', rope''.
  rewrite rope_copy_slice by lia. fold c bytes. rewrite write_prefix.
  assert (Hback : content (root rope'') = c).
  { rewrite Ct', Ct. unfold remove, bytes, slice.
    assert (Ht : Zlength (take pos c) = pos) by (rewrite Zlength_take; lia).
    set (p := take pos c) in *.
    rewrite take_app, drop_app, Ht, (take_all pos p), (drop_all pos p) by lia.
    rewrite (take_nonpos (pos - pos)), (drop_nonpos (pos - pos)) by lia.
    rewrite app_nil_r. cbn [app]. subst p.
    replace (drop (pos + len) c) with (drop len (drop pos c))
      by (apply drop_drop; lia).
    rewrite (take_drop len (drop pos c)). apply take_drop. }
  repeat split; try assumption; try apply Hok''.
  rewrite Hl', Hc'. lia.
Qed.

(** The only well-formed tree without bytes and without empty leaf is the
    null tree. *)
Lemma wf_no_content node :
  wf node -> no_empty_leaf node = true -> content node = [] ->
  node = nullptr.
Proof.
  induction node as [| l IHl r IHr h w is_leaf data]; [reflexivity |].
  cbn [wf no_empty_leaf content]. destruct is_leaf.
  - intros _ Hne ->. discriminate.
  - intros (Hl & Hr & Wl & Wr & _) Hne Hc.
    apply andb_true_iff in Hne. destruct Hne as [Hnl Hnr].
    apply app_eq_nil in Hc. destruct Hc as [Hcl Hcr].
    exfalso. apply Hl. apply IHl; assumption.
Qed.

(** X6. Deletion prunes: on a well-formed tree without empty leaf, for any
    [pos] and [len], [delete] returns a tree without empty leaf and without
    null child; when no byte is left the root is null. *)
Theorem rope_delete_no_empty_leaf (rope : Rope) (pos len : Z) :
  wf (root rope) -> no_empty_leaf (root rope) = true ->
  0 <= pos -> 0 <= len ->
  exists rope',
    rope_delete rope pos len = Some rope'
    /\ wf (root rope')
    /\ no_empty_leaf (root rope') = true
    /\ no_null_child (root rope') = true
    /\ (content (root rope') = [] -> root rope' = nullptr).
Proof.
  intros W Hne Hpos Hlen.
  assert (Hres : exists rope',
             rope_delete rope pos len = Some rope'
             /\ wf (root rope') /\ no_empty_leaf (root rope') = true).
  { unfold rope_delete. destruct (len =? 0).
    - exists rope. auto.
    - destruct (rope_node_delete_content (root rope) pos len W Hpos Hlen)
        as (t & E & Wt & _ & Pt).
      rewrite E. cbn [bind]. eexists. split; [reflexivity |].
      cbn [root]. auto. }
  destruct Hres as (rope' & E & W' & Hne').
  exists rope'. repeat split; try assumption.
  - apply wf_no_null_child. assumption.
  - apply wf_no_content; assumption.
Qed.

(** X7. A deletion at or behind the end changes neither the content nor
    the length of a rope that satisfies the invariant of the facade. *)
Theorem rope_delete_beyond_end (rope : Rope) (pos len : Z) :
  rope_ok rope -> total_length rope <= pos -> 0 <= len ->
  exists rope',
    rope_delete rope pos len = Some rope'
    /\ rope_ok rope'
    /\ content (root rope') = content (root rope)
    /\ total_length rope' = total_length rope.
Proof.
  intros Hok Hpos Hlen.
  pose proof (proj2 Hok) as Hc. rewrite leaf_length_sum_content in Hc.
  pose proof (Zlength_nonneg (content (root rope))).
  destruct (rope_delete_content rope pos len Hok ltac:(lia) Hlen)
    as (rope' & E & Hok' & Ct).
  exists rope'. rewrite remove_beyond in Ct by lia.
  repeat split; try assumption; try apply Hok'.
  rewrite (proj2 Hok'), leaf_length_sum_content, Ct. congruence.
Qed.

Lemma wf_leaves_capacity node :
  wf node -> Forall (fun d => Zlength d <= ROPE_NODE_CAPACITY) (leaves node).
Proof.
  induction node as [| l IHl r IHr h w is_leaf data]; cbn [wf leaves].
  - constructor.
  - destruct is_leaf.
    + intros (_ & _ & _ & _ & Hcap). constructor; [assumption | constructor].
    + intros (_ & _ & Wl & Wr & _). apply Forall_app. auto.
Qed.

(** X8. A string of any length put into the empty rope is laid out without
    loss: the rope holds exactly the string, in leaves of 1 to
    [ROPE_NODE_CAPACITY] bytes, and satisfies the invariant of the
    facade. *)
Theorem rope_insert_empty_rope (rope : Rope) (pos : Z) (str : list byte) :
  root rope = nullptr -> total_length rope = 0 -> 0 < Zlength str ->
  exists rope',
    rope_insert rope pos str = Some rope'
    /\ rope_ok rope'
    /\ content (root rope') = str
    /\ total_length rope' = Zlength str
    /\ Forall (fun d => 1 <= Zlength d <= ROPE_NODE_CAPACITY)
         (leaves (root rope')).
Proof.
  intros Hroot Htotal Hlen. unfold rope_insert. rewrite Hroot, Htotal.
  destruct (Z.eqb_spec (Zlength str) 0) as [? | _]; [lia |].
  destruct (rope_node_insert_null str pos) as (t & E & Wt & Nt & Ct & Pt).
  rewrite E. cbn [bind]. eexists. split; [reflexivity |].
  cbn [root total_length].
  split; [split; cbn [root total_length];
          [exact Wt | rewrite leaf_length_sum_content, Ct; reflexivity] |].
  split; [exact Ct |]. split; [reflexivity |].
  specialize (Pt Hlen). rewrite no_empty_leaf_leaves in Pt.
  pose proof (wf_leaves_capacity t Wt) as Hcap.
  rewrite forallb_forall in Pt. rewrite Forall_forall in *.
  intros d Hd. specialize (Pt d Hd). specialize (Hcap d Hd).
  pose proof (Zlength_nonneg d).
  destruct (Z.eqb_spec (Zlength d) 0); [discriminate | lia].
Qed.

(** X9. Positions are not validated: an insertion of a non-empty string
    behind the end of a non-empty well-formed rope arrives at a leaf with
    an offset behind its bytes, where the source moves or copies bytes
    outside the leaf. *)
Theorem rope_insert_out_of_range (rope : Rope) (pos : Z) (str : list byte) :
  wf (root rope) -> root rope <> nullptr ->
  Zlength (content (root rope)) < pos -> 0 < Zlength str ->
  rope_insert rope pos str = None.
Proof.
  intros W Hn Hpos Hlen. unfold rope_insert.
  destruct (Z.eqb_spec (Zlength str) 0) as [? | _]; [lia |].
  rewrite rope_node_insert_out_of_range by assumption. reflexivity.
Qed.

(** X10. Every rope that the operations produce from the empty rope,
    oversized insertions included, has a well-formed tree: no leaf of more
    than [ROPE_NODE_CAPACITY] bytes, no null child, cached heights that are
    the heights of the subtrees, and no more bytes in the leaves than the
    cached length. *)
Theorem reachable_well_formed (rope : Rope) :
  reachable rope ->
  wf (root rope)
  /\ Forall (fun d => Zlength d <= ROPE_NODE_CAPACITY) (leaves (root rope))
  /\ no_null_child (root rope) = true
  /\ rope_node_get_height (root rope) = tree_height (root rope)
  /\ Zlength (content (root rope)) <= total_length rope.
Proof.
  intros Hreach.
  destruct (reachable_invariant rope Hreach) as [W Hle].
  rewrite leaf_length_sum_content in Hle.
  split; [exact W |].
  split; [apply wf_leaves_capacity; exact W |].
  split; [apply wf_no_null_child; exact W |].
  split; [apply wf_tree_height; exact W | exact Hle].
Qed.

(** X11. As long as no insertion into a non-empty rope is longer than a
    leaf, the cached length is the number of bytes in the leaves after
    every operation, and [toString] is the content of the leaves. *)
Theorem reachable_within_capacity_ok (garbage : nat -> byte) (rope : Rope) :
  reachable_within_capacity rope ->
  rope_ok rope
  /\ total_length rope = Zlength (content (root rope))
  /\ rope_to_string garbage rope = Some (content (root rope) ++ [NUL]).
Proof.
  intros Hreach.
  assert (Hok : rope_ok rope).
  { induction Hreach as [| rope rope' _ IH Hstep].
    - split; [exact I | reflexivity].
    - exact (step_within_capacity_ok rope rope' Hstep IH). }
  split; [exact Hok |]. split.
  - rewrite (proj2 Hok). apply leaf_length_sum_content.
  - apply rope_to_string_content. apply Hok.
Qed.

(** * The balance *)

(** The balance of an internal node with well-formed children, in terms
    of the cached heights. *)
Lemma avl_balanced_node l r h w data :
  wf l -> wf r ->
  avl_balanced (Node l r h w false data) = true <->
  avl_balanced l = true /\ avl_balanced r = true
  /\ -1 <= rope_node_get_height l - rope_node_get_height r <= 1.
Proof.
  intros Wl Wr. cbn [avl_balanced orb].
  rewrite <- (wf_tree_height l Wl), <- (wf_tree_height r Wr).
  rewrite !andb_true_iff, Z.leb_le. split.
  - intros [[Hl Hr] Hd]. repeat split; try assumption; lia.
  - intros (Hl & Hr & Hd). repeat split; try assumption; lia.
Qed.

Lemma avl_balanced_leaf l r h w data :
  avl_balanced (Node l r h w true data) = true.
Proof. reflexivity. Qed.

(** The parts of a well-formed, balanced internal node. *)
Lemma avl_wf_internal l r h w data :
  wf (Node l r h w false data) ->
  avl_balanced (Node l r h w false data) = true ->
  l <> nullptr /\ r <> nullptr /\ wf l /\ wf r
  /\ avl_balanced l = true /\ avl_balanced r = true
  /\ h = 1 + Z.max (rope_node_get_height l) (rope_node_get_height r)
  /\ -1 <= rope_node_get_height l - rope_node_get_height r <= 1.
Proof.
  intros W A. pose proof W as (Hl & Hr & Wl & Wr & Hh & Hw).
  apply (avl_balanced_node l r h w data Wl Wr) in A.
  destruct A as (Al & Ar & Hd). repeat split; try assumption; lia.
Qed.

(** A node that a rotation has built is balanced when its parts are. *)
Ltac balanced_node :=
  match goal with
  | |- avl_balanced (Node _ _ _ _ false _) = true =>
      apply avl_balanced_node;
      [cbn [wf]; repeat split; try assumption; try discriminate; reflexivity ..
      | repeat split; try assumption; cbn [rope_node_get_height]; try lia]
  end.

(** [rope_node_balance] on a node whose children are balanced and differ
    by at most 2 in height: the result is balanced, and its height is
    known. *)
Lemma rope_node_balance_avl l r h w data :
  wf l -> wf r -> l <> nullptr -> r <> nullptr ->
  avl_balanced l = true -> avl_balanced r = true ->
  -2 <= rope_node_get_height l - rope_node_get_height r <= 2 ->
  exists t,
    rope_node_balance (Node l r h w false data) = Some t
    /\ avl_balanced t = true
    /\ (-1 <= rope_node_get_height l - rope_node_get_height r <= 1 ->
        rope_node_get_height t
        = 1 + Z.max (rope_node_get_height l) (rope_node_get_height r))
    /\ (rope_node_get_height l - rope_node_get_height r = 2 ->
        rope_node_get_height t
        = if rope_node_balance_factor l =? 0
          then rope_node_get_height l + 1 else rope_node_get_height l)
    /\ (rope_node_get_height l - rope_node_get_height r = -2 ->
        rope_node_get_height t
        = if rope_node_balance_factor r =? 0
          then rope_node_get_height r + 1 else rope_node_get_height r).
Proof.
  intros Wl Wr Hl Hr Al Ar Hd.
  pose proof (wf_height_pos l Wl Hl) as Pl.
  pose proof (wf_height_pos r Wr Hr) as Pr.
  unfold rope_node_balance. cbn [rope_node_update rope_node_balance_factor].
  destruct (Z.ltb_spec 1 (rope_node_get_height l - rope_node_get_height r))
    as [Hheavy | Hnot].
  - destruct l as [| ll lr lh lw [|] ld]; [congruence | |].
    { apply wf_height_leaf in Wl. cbn in Hheavy. lia. }
    destruct (avl_wf_internal _ _ _ _ _ Wl Al)
      as (Hll & Hlr & Wll & Wlr & All & Alr & Hlh & Hld).
    cbn [rope_node_balance_factor rope_node_get_height] in *.
    pose proof (wf_height_pos ll Wll Hll) as Pll.
    pose proof (wf_height_pos lr Wlr Hlr) as Plr.
    destruct (Z.ltb_spec (rope_node_get_height ll - rope_node_get_height lr) 0)
      as [Hdouble | Hsingle].
    + destruct lr as [| m1 m2 mh mw [|] md]; [congruence | |].
      { apply wf_height_leaf in Wlr. cbn in Hdouble. lia. }
      destruct (avl_wf_internal _ _ _ _ _ Wlr Alr)
        as (Hm1 & Hm2 & Wm1 & Wm2 & Am1 & Am2 & Hmh & Hmd).
      cbn [rope_node_get_height] in *.
      eexists. split; [reflexivity |].
      cbn [rope_node_update rope_node_get_height].
      split; [| split; [lia | split; [| lia]]].
      * balanced_node; balanced_node.
      * intros _.
        destruct (Z.eqb_spec (rope_node_get_height ll - mh) 0); lia.
    + eexists. split; [reflexivity |].
      cbn [rope_node_update rope_node_get_height].
      split; [| split; [lia | split; [| lia]]].
      * balanced_node. balanced_node.
      * intros _.
        destruct (Z.eqb_spec (rope_node_get_height ll - rope_node_get_height lr) 0);
          lia.
  - destruct (Z.ltb_spec (rope_node_get_height l - rope_node_get_height r) (-1))
      as [Hheavy | Hbal].
    + destruct r as [| rl rr rh rw [|] rd]; [congruence | |].
      { apply wf_height_leaf in Wr. cbn in Hheavy. lia. }
      destruct (avl_wf_internal _ _ _ _ _ Wr Ar)
        as (Hrl & Hrr & Wrl & Wrr & Arl & Arr & Hrh & Hrd).
      cbn [rope_node_balance_factor rope_node_get_height] in *.
      pose proof (wf_height_pos rl Wrl Hrl) as Prl.
      pose proof (wf_height_pos rr Wrr Hrr) as Prr.
      destruct (Z.ltb_spec 0 (rope_node_get_height rl - rope_node_get_height rr))
        as [Hdouble | Hsingle].
      * destruct rl as [| m1 m2 mh mw [|] md]; [congruence | |].
        { apply wf_height_leaf in Wrl. cbn in Hdouble. lia. }
        destruct (avl_wf_internal _ _ _ _ _ Wrl Arl)
          as (Hm1 & Hm2 & Wm1 & Wm2 & Am1 & Am2 & Hmh & Hmd).
        cbn [rope_node_get_height] in *.
        eexists. split; [reflexivity |].
        cbn [rope_node_update rope_node_get_height].
        split; [| split; [lia | split; [lia |]]].
        -- balanced_node; balanced_node.
        -- intros _.
           destruct (Z.eqb_spec (mh - rope_node_get_height rr) 0); lia.
      * eexists. split; [reflexivity |].
        cbn [rope_node_update rope_node_get_height].
        split; [| split; [lia | split; [lia |]]].
        -- balanced_node. balanced_node.
        -- intros _.
           destruct (Z.eqb_spec (rope_node_get_height rl - rope_node_get_height rr) 0);
             lia.
    + eexists. split; [reflexivity |].
      cbn [rope_node_get_height].
      split; [| split; [reflexivity | split; lia]].
      balanced_node.
Qed.

(** An insertion of at most [ROPE_NODE_CAPACITY] bytes keeps a balanced
    tree balanced. *)
Lemma rope_node_insert_avl node :
  forall pos str,
    wf node -> avl_balanced node = true ->
    0 <= pos <= Zlength (content node) ->
    Zlength str <= ROPE_NODE_CAPACITY ->
    exists t,
      rope_node_insert node pos str = Some t
      /\ wf t /\ t <> nullptr /\ avl_balanced t = true /\ grown node t.
Proof.
  induction node as [| l IHl r IHr h w is_leaf data];
    intros pos str W A Hpos Hfit.
  - rewrite rope_node_insert_equation_1.
    destruct (Z_le_gt_dec (Zlength str) ROPE_NODE_CAPACITY) as [Hle | ?];
      [| lia].
    cbn. eexists. split; [reflexivity |].
    split; [apply wf_create_leaf |]. split; [discriminate |].
    split; [reflexivity |]. left. cbn. lia.
  - destruct is_leaf.
    + rewrite rope_node_insert_equation_2. cbn zeta.
      pose proof W as (El & Er & Eh & Ew & Hcap). subst l r h w.
      cbn [content] in Hpos.
      destruct (Z.ltb_spec (Zlength data) pos) as [? | _]; [lia |].
      destruct (Z.leb_spec (Zlength data + Zlength str) ROPE_NODE_CAPACITY)
        as [Hin | Hsplit].
      * destruct (rope_node_insert_content
                    (Node nullptr nullptr 1 (Zlength data) true data)
                    pos str W Hpos) as (t & E & Wt & Nt & _).
        rewrite rope_node_insert_equation_2 in E. cbn zeta in E.
        destruct (Z.ltb_spec (Zlength data) pos) as [? | _]; [lia |].
        destruct (Z.leb_spec (Zlength data + Zlength str) ROPE_NODE_CAPACITY)
          as [_ | ?]; [| lia].
        exists t. split; [exact E |]. injection E as <-.
        split; [assumption |]. split; [assumption |].
        split; [reflexivity |]. left. cbn. lia.
      * exists (rope_node_create_internal
                  (rope_node_create_internal
                     (rope_node_create_leaf (take pos data))
                     (rope_node_create_leaf str))
                  (rope_node_create_leaf (drop pos data))).
        split; [reflexivity |].
        split; [| split; [cbn; discriminate | split; [reflexivity |]]].
        -- apply wf_create_internal;
             [apply wf_create_internal | | |];
             try apply wf_create_leaf; discriminate.
        -- right. cbn. auto.
    + rewrite rope_node_insert_equation_3.
      destruct (avl_wf_internal _ _ _ _ _ W A)
        as (Hl & Hr & Wl & Wr & Al & Ar & Hh & Hd).
      pose proof W as (_ & _ & _ & _ & _ & Hw).
      cbn [content] in Hpos. rewrite Zlength_app in Hpos.
      rewrite Hw, rope_node_get_weight_content.
      pose proof (Zlength_nonneg (content l)).
      pose proof (Zlength_nonneg (content r)).
      pose proof (wf_height_pos l Wl Hl) as Pl.
      pose proof (wf_height_pos r Wr Hr) as Pr.
      destruct (Z.leb_spec pos (Zlength (content l))) as [Hleft | Hright].
      * destruct (IHl pos str Wl Al ltac:(lia) Hfit)
          as (l' & E & Wl' & Nl' & Al' & Gl).
        rewrite E.
        assert (Hd' : -2 <= rope_node_get_height l' - rope_node_get_height r <= 2)
          by (destruct Gl as [? | (? & ? & ?)]; lia).
        destruct (rope_node_balance_avl l' r h (Zlength (content l)) data
                    Wl' Wr Nl' Hr Al' Ar Hd')
          as (t & Et & At & Hbal & Hpos2 & Hneg2).
        destruct (rope_node_balance_wf l' r h (Zlength (content l)) data
                    Wl' Wr Nl' Hr) as (t' & Et' & Wt & Nt & _).
        rewrite Et in Et'. injection Et' as <-.
        exists t. repeat split; try assumption.
        left. cbn [rope_node_get_height].
        destruct (Z.eq_dec (rope_node_get_height l' - rope_node_get_height r) 2)
          as [D2 | ND2].
        -- specialize (Hpos2 D2).
           destruct (Z.eqb_spec (rope_node_balance_factor l') 0);
             destruct Gl as [? | (? & ? & ?)]; lia.
        -- assert (Hin : -1 <= rope_node_get_height l'
                               - rope_node_get_height r <= 1)
             by (destruct Gl as [? | (? & ? & ?)]; lia).
           specialize (Hbal Hin).
           destruct Gl as [? | (? & ? & ?)]; lia.
      * destruct (IHr (pos - Zlength (content l)) str Wr Ar ltac:(lia) Hfit)
          as (r' & E & Wr' & Nr' & Ar' & Gr).
        rewrite E.
        assert (Hd' : -2 <= rope_node_get_height l - rope_node_get_height r' <= 2)
          by (destruct Gr as [? | (? & ? & ?)]; lia).
        destruct (rope_node_balance_avl l r' h (Zlength (content l)) data
                    Wl Wr' Hl Nr' Al Ar' Hd')
          as (t & Et & At & Hbal & Hpos2 & Hneg2).
        destruct (rope_node_balance_wf l r' h (Zlength (content l)) data
                    Wl Wr' Hl Nr') as (t' & Et' & Wt & Nt & _).
        rewrite Et in Et'. injection Et' as <-.
        exists t. repeat split; try assumption.
        left. cbn [rope_node_get_height].
        destruct (Z.eq_dec (rope_node_get_height l - rope_node_get_height r') (-2))
          as [D2 | ND2].
        -- specialize (Hneg2 D2).
           destruct (Z.eqb_spec (rope_node_balance_factor r') 0);
             destruct Gr as [? | (? & ? & ?)]; lia.
        -- assert (Hin : -1 <= rope_node_get_height l
                               - rope_node_get_height r' <= 1)
             by (destruct Gr as [? | (? & ? & ?)]; lia).
           specialize (Hbal Hin).
           destruct Gr as [? | (? & ? & ?)]; lia.
Qed.

(** The deletion of one byte keeps a balanced tree balanced; the height
    goes down by one level at most. *)
Lemma rope_node_delete_avl node :
  forall pos,
    wf node -> avl_balanced node = true -> 0 <= pos ->
    exists t,
      rope_node_delete node pos 1 = Some t
      /\ wf t /\ avl_balanced t = true
      /\ rope_node_get_height node - 1 <= rope_node_get_height t
                                       <= rope_node_get_height node.
Proof.
  induction node as [| l IHl r IHr h w is_leaf data]; intros pos W A Hpos.
  - exists nullptr. cbn. repeat split; lia.
  - destruct (rope_node_delete_content (Node l r h w is_leaf data) pos 1 W)
      as (t & E & Wt & _); [lia | lia |].
    exists t. split; [exact E |]. split; [exact Wt |].
    cbn [rope_node_delete] in E. change (1 =? 0) with false in E.
    cbv iota in E.
    destruct is_leaf.
    + pose proof W as (El & Er & Eh & _). subst l r h.
      cbn [rope_node_get_height].
      destruct (Zlength data <=? pos).
      * injection E as <-. split; [reflexivity | cbn; lia].
      * destruct (Zlength _ =? 0); injection E as <-;
          (split; [reflexivity | cbn; lia]).
    + destruct (avl_wf_internal _ _ _ _ _ W A)
        as (Hl & Hr & Wl & Wr & Al & Ar & Hh & Hd).
      pose proof (wf_height_pos l Wl Hl) as Pl.
      pose proof (wf_height_pos r Wr Hr) as Pr.
      cbn [rope_node_get_height].
      destruct (Z.ltb_spec pos (rope_node_get_weight l)) as [Hleft | Hright].
      * rewrite Z.min_l in E by lia. change (1 <? 1) with false in E.
        cbv iota in E.
        destruct (IHl pos Wl Al Hpos) as (l' & El & Wl' & Al' & Hl').
        rewrite El in E. cbn [bind] in E.
        destruct l' as [| a1 a2 a3 a4 a5 a6].
        -- cbn [rope_node_get_height] in Hl'.
           destruct r as [| b1 b2 b3 b4 b5 b6]; [congruence |].
           injection E as <-. split; [exact Ar | lia].
        -- destruct r as [| b1 b2 b3 b4 b5 b6]; [congruence |].
           edestruct rope_node_balance_avl as (t' & Et & At & Hbal & _ & Hneg2);
             [exact Wl' | exact Wr | discriminate | discriminate
             | exact Al' | exact Ar | | rewrite Et in E; injection E as <-].
           ++ lia.
           ++ split; [exact At |].
              destruct (Z.eq_dec
                          (rope_node_get_height (Node a1 a2 a3 a4 a5 a6)
                           - rope_node_get_height (Node b1 b2 b3 b4 b5 b6))
                          (-2)) as [D2 | ND2].
              ** specialize (Hneg2 D2).
                 destruct (rope_node_balance_factor (Node b1 b2 b3 b4 b5 b6) =? 0);
                   lia.
              ** assert (Hin : -1 <= rope_node_get_height (Node a1 a2 a3 a4 a5 a6)
                                   - rope_node_get_height (Node b1 b2 b3 b4 b5 b6)
                                   <= 1) by lia.
                 specialize (Hbal Hin). lia.
      * destruct (IHr (pos - rope_node_get_weight l) Wr Ar ltac:(lia))
          as (r' & Er & Wr' & Ar' & Hr').
        rewrite Er in E. cbn [bind] in E.
        destruct l as [| a1 a2 a3 a4 a5 a6]; [congruence |].
        destruct r' as [| b1 b2 b3 b4 b5 b6].
        -- cbn [rope_node_get_height] in Hr'.
           injection E as <-. split; [exact Al | lia].
        -- edestruct rope_node_balance_avl as (t' & Et & At & Hbal & Hpos2 & _);
             [exact Wl | exact Wr' | discriminate | discriminate
             | exact Al | exact Ar' | | rewrite Et in E; injection E as <-].
           ++ lia.
           ++ split; [exact At |].
              destruct (Z.eq_dec
                          (rope_node_get_height (Node a1 a2 a3 a4 a5 a6)
                           - rope_node_get_height (Node b1 b2 b3 b4 b5 b6))
                          2) as [D2 | ND2].
              ** specialize (Hpos2 D2).
                 destruct (rope_node_balance_factor (Node a1 a2 a3 a4 a5 a6) =? 0);
                   lia.
              ** assert (Hin : -1 <= rope_node_get_height (Node a1 a2 a3 a4 a5 a6)
                                   - rope_node_get_height (Node b1 b2 b3 b4 b5 b6)
                                   <= 1) by lia.
                 specialize (Hbal Hin). lia.
Qed.

(** X12. The balancer: [rope_node_balance] on a node whose two subtrees
    are well formed and balanced and differ by at most 2 in height returns
    a well-formed, balanced tree with the same leaves in the same
    order. *)
Theorem rope_node_balance_restores (l r : RopeNode) (h w : Z)
  (data : list byte) :
  wf l -> wf r -> l <> nullptr -> r <> nullptr ->
  avl_balanced l = true -> avl_balanced r = true ->
  -2 <= tree_height l - tree_height r <= 2 ->
  exists t,
    rope_node_balance (Node l r h w false data) = Some t
    /\ wf t /\ avl_balanced t = true
    /\ leaves t = leaves l ++ leaves r
    /\ content t = content l ++ content r.
Proof.
  intros Wl Wr Hl Hr Al Ar Hd.
  rewrite <- (wf_tree_height l Wl), <- (wf_tree_height r Wr) in Hd.
  destruct (rope_node_balance_avl l r h w data Wl Wr Hl Hr Al Ar Hd)
    as (t & E & At & _).
  destruct (rope_node_balance_wf l r h w data Wl Wr Hl Hr)
    as (t' & E' & Wt & _ & Lt).
  rewrite E in E'. injection E' as <-.
  exists t. repeat split; try assumption.
  rewrite !content_leaves, Lt. apply concat_app.
Qed.

(** X13. An insertion of at most [ROPE_NODE_CAPACITY] bytes at a position
    of a well-formed, balanced rope returns a well-formed, balanced
    rope. *)
Theorem rope_insert_balanced (rope : Rope) (pos : Z) (str : list byte) :
  wf (root rope) -> avl_balanced (root rope) = true ->
  0 <= pos <= Zlength (content (root rope)) ->
  Zlength str <= ROPE_NODE_CAPACITY ->
  exists rope',
    rope_insert rope pos str = Some rope'
    /\ wf (root rope') /\ avl_balanced (root rope') = true.
Proof.
  intros W A Hpos Hfit. unfold rope_insert.
  destruct (Zlength str =? 0).
  - exists rope. auto.
  - destruct (rope_node_insert_avl (root rope) pos str W A Hpos Hfit)
      as (t & E & Wt & _ & At & _).
    rewrite E. cbn [bind]. eexists. split; [reflexivity |].
    cbn [root]. auto.
Qed.

(** X14. The deletion of one byte, at any position, of a well-formed,
    balanced rope returns a well-formed, balanced rope. *)
Theorem rope_delete_one_byte_balanced (rope : Rope) (pos : Z) :
  wf (root rope) -> avl_balanced (root rope) = true -> 0 <= pos ->
  exists rope',
    rope_delete rope pos 1 = Some rope'
    /\ wf (root rope') /\ avl_balanced (root rope') = true.
Proof.
  intros W A Hpos. unfold rope_delete. change (1 =? 0) with false.
  cbv iota.
  destruct (rope_node_delete_avl (root rope) pos W A Hpos)
    as (t & E & Wt & At & _).
  rewrite E. cbn [bind]. eexists. split; [reflexivity |].
  cbn [root]. auto.
Qed.

(** * The lines of the editor *)

Lemma eqb_newline c :
  (Byte.eqb c newline = true -> c = newline)
  /\ (Byte.eqb c newline = false -> c <> newline).
Proof.
  split; [apply Byte.byte_dec_bl | apply Byte.eqb_false].
Qed.

Lemma editor_line_start_loop_spec rope n :
  exists ls,
    editor_line_start_loop rope n = Some ls
    /\ line_start_of (content (root rope)) (Z.of_nat n) ls.
Proof.
  induction n as [| n IH].
  - exists 0. split; [reflexivity |]. unfold line_start_of. cbn.
    repeat split; lia.
  - cbn [editor_line_start_loop].
    rewrite rope_char_at_byte_at by lia. cbn [bind].
    destruct (eqb_newline (byte_at (content (root rope)) (Z.of_nat n)))
      as [Hyes Hno].
    destruct (Byte.eqb (byte_at (content (root rope)) (Z.of_nat n)) newline).
    + exists (Z.of_nat (S n)). split; [reflexivity |].
      unfold line_start_of. repeat split; try lia.
      right. replace (Z.of_nat (S n) - 1) with (Z.of_nat n) by lia. auto.
    + destruct IH as (ls & E & (Hrange & Hbound & Hfree)).
      exists ls. split; [exact E |].
      unfold line_start_of. repeat split; try lia; try assumption.
      intros i Hi.
      destruct (Z.eq_dec i (Z.of_nat n)) as [-> | Hne]; [auto |].
      apply Hfree. lia.
Qed.

Lemma editor_line_start_spec rope pos :
  0 <= pos ->
  exists ls,
    editor_line_start rope pos = Some ls
    /\ line_start_of (content (root rope)) pos ls.
Proof.
  intros Hpos. unfold editor_line_start.
  destruct (Z.eqb_spec pos 0) as [-> | Hnz].
  - exists 0. split; [reflexivity |]. unfold line_start_of.
    repeat split; lia.
  - destruct (editor_line_start_loop_spec rope (Z.to_nat pos)) as (ls & E & H).
    rewrite Z2Nat.id in H by lia. exists ls. auto.
Qed.

Lemma line_start_of_unique text pos ls ls' :
  line_start_of text pos ls -> line_start_of text pos ls' -> ls = ls'.
Proof.
  intros (R & B & F) (R' & B' & F').
  destruct (Z.lt_trichotomy ls ls') as [Hlt | [Heq | Hgt]]; [| exact Heq |].
  - destruct B' as [? | B']; [lia |]. exfalso. apply (F (ls' - 1)); [lia | auto].
  - destruct B as [? | B]; [lia |]. exfalso. apply (F' (ls - 1)); [lia | auto].
Qed.

Lemma editor_line_end_loop_spec rope remaining :
  forall line_end,
    0 <= line_end ->
    exists le,
      editor_line_end_loop rope line_end remaining = Some le
      /\ line_end_of (content (root rope)) (line_end + Z.of_nat remaining)
           line_end le.
Proof.
  induction remaining as [| remaining IH]; intros line_end Hpos.
  - exists line_end. split; [reflexivity |]. unfold line_end_of.
    repeat split; lia.
  - cbn [editor_line_end_loop].
    rewrite rope_char_at_byte_at by lia. cbn [bind].
    destruct (eqb_newline (byte_at (content (root rope)) line_end))
      as [Hyes Hno].
    destruct (Byte.eqb (byte_at (content (root rope)) line_end) newline).
    + exists line_end. split; [reflexivity |]. unfold line_end_of.
      repeat split; try lia. auto.
    + destruct (IH (line_end + 1) ltac:(lia)) as (le & E & (R & B & F)).
      exists le. split; [exact E |].
      replace (line_end + 1 + Z.of_nat remaining)
        with (line_end + Z.of_nat (S remaining)) in * by lia.
      unfold line_end_of. repeat split; try lia; try assumption.
      intros i Hi.
      destruct (Z.eq_dec i line_end) as [-> | Hne]; [auto |].
      apply F. lia.
Qed.

Lemma editor_line_end_spec rope pos :
  0 <= pos ->
  exists le,
    editor_line_end rope pos = Some le
    /\ line_end_of (content (root rope)) (total_length rope) pos le.
Proof.
  intros Hpos. unfold editor_line_end, rope_length.
  destruct (editor_line_end_loop_spec rope
              (Z.to_nat (total_length rope - pos)) pos Hpos)
    as (le & E & (R & B & F)).
  exists le. split; [exact E |].
  unfold line_end_of. repeat split; try lia; try assumption.
  intros Hlt. apply B. lia.
Qed.

Lemma line_end_of_unique text len pos le le' :
  line_end_of text len pos le -> line_end_of text len pos le' -> le = le'.
Proof.
  intros (R & B & F) (R' & B' & F').
  destruct (Z.lt_trichotomy le le') as [Hlt | [Heq | Hgt]]; [| exact Heq |].
  - exfalso. apply (F' le); [lia |]. apply B. lia.
  - exfalso. apply (F le'); [lia |]. apply B'. lia.
Qed.

(** X15. [editor_line_start] returns for every position: the result is at
    most [pos], it is 0 or the position behind a newline of the rope, and
    no byte from there up to [pos] is a newline. *)
Theorem editor_line_start_is_line_start (rope : Rope) (pos : Z) :
  0 <= pos ->
  exists ls,
    editor_line_start rope pos = Some ls
    /\ 0 <= ls <= pos
    /\ (ls = 0 \/ rope_char_at rope (ls - 1) = Some newline)
    /\ forall i, ls <= i < pos -> rope_char_at rope i <> Some newline.
Proof.
  intros Hpos.
  destruct (editor_line_start_spec rope pos Hpos) as (ls & E & (R & B & F)).
  exists ls. split; [exact E |]. split; [exact R |]. split.
  - destruct (Z.eq_dec ls 0) as [Hz | Hnz]; [left; exact Hz | right].
    destruct B as [? | B]; [lia |].
    rewrite rope_char_at_byte_at by lia. congruence.
  - intros i Hi. rewrite rope_char_at_byte_at by lia.
    intros H. injection H as H. exact (F i Hi H).
Qed.

(** X16. [editor_line_end] returns for every position: the result is at
    least [pos] and at most the length of the rope (or [pos] behind it);
    it is the end of the rope or the position of a newline, and no byte
    from [pos] up to it is a newline. *)
Theorem editor_line_end_is_line_end (rope : Rope) (pos : Z) :
  0 <= pos ->
  exists le,
    editor_line_end rope pos = Some le
    /\ pos <= le <= Z.max pos (rope_length rope)
    /\ (le < rope_length rope -> rope_char_at rope le = Some newline)
    /\ forall i, pos <= i < le -> rope_char_at rope i <> Some newline.
Proof.
  intros Hpos.
  destruct (editor_line_end_spec rope pos Hpos) as (le & E & (R & B & F)).
  exists le. split; [exact E |]. split; [exact R |]. split.
  - intros Hlt. rewrite rope_char_at_byte_at by lia. f_equal. auto.
  - intros i Hi. rewrite rope_char_at_byte_at by lia.
    intros H. injection H as H. exact (F i Hi H).
Qed.

Lemma newlines_cons c l :
  newlines (c :: l) = (if Byte.eqb c newline then 1 else 0) + newlines l.
Proof.
  unfold newlines. cbn [filter].
  destruct (Byte.eqb c newline); [rewrite Zlength_cons |]; lia.
Qed.

Lemma editor_get_line_number_loop_spec rope count :
  forall i line,
    0 <= i ->
    editor_get_line_number_loop rope i count line =
    Some (line + newlines (slice (content (root rope)) i (Z.of_nat count))).
Proof.
  induction count as [| count IH]; intros i line Hi.
  - cbn [editor_get_line_number_loop]. rewrite slice_zero.
    cbn. f_equal. lia.
  - cbn [editor_get_line_number_loop].
    rewrite rope_char_at_byte_at by lia. cbn [bind].
    rewrite IH by lia. f_equal.
    destruct (Z.lt_ge_cases i (Zlength (content (root rope)))) as [Hin | Hout].
    + rewrite (slice_cons _ i (Z.of_nat (S count))) by lia.
      rewrite newlines_cons.
      replace (Z.of_nat (S count) - 1) with (Z.of_nat count) by lia.
      destruct (Byte.eqb (byte_at (content (root rope)) i) newline); lia.
    + rewrite byte_at_beyond by lia.
      rewrite !slice_beyond by lia. reflexivity.
Qed.

(** X17. [editor_get_line_number] is 1 plus the number of newlines that the
    rope has before [pos], the positions behind the length of the rope not
    counted. *)
Theorem editor_get_line_number_newlines (rope : Rope) (pos : Z) :
  0 <= pos ->
  editor_get_line_number rope pos =
  Some (1 + newlines (take (Z.min pos (rope_length rope))
                        (content (root rope)))).
Proof.
  intros Hpos. unfold editor_get_line_number.
  rewrite editor_get_line_number_loop_spec by lia.
  destruct (Z.le_gt_cases 0 (rope_length rope)) as [Hlen | Hneg].
  - rewrite Z2Nat.id by lia. unfold slice. rewrite drop_nonpos by lia.
    reflexivity.
  - replace (Z.to_nat (Z.min pos (rope_length rope))) with 0%nat by lia.
    cbn [Z.of_nat].
    rewrite slice_zero, take_nonpos by lia. reflexivity.
Qed.

(** The positions of one line have the same line start and line end. *)
Lemma editor_line_interval rope pos :
  0 <= pos <= total_length rope ->
  exists ls le,
    editor_line_start rope pos = Some ls
    /\ editor_line_end rope pos = Some le
    /\ line_start_of (content (root rope)) pos ls
    /\ line_end_of (content (root rope)) (total_length rope) pos le
    /\ le <= total_length rope
    /\ forall p, ls <= p <= le ->
         editor_line_start rope p = Some ls
         /\ editor_line_end rope p = Some le.
Proof.
  intros Hpos.
  destruct (editor_line_start_spec rope pos ltac:(lia)) as (ls & Es & Hs).
  destruct (editor_line_end_spec rope pos ltac:(lia)) as (le & Ee & He).
  exists ls, le.
  split; [exact Es |]. split; [exact Ee |].
  split; [exact Hs |]. split; [exact He |].
  destruct Hs as (Rs & Bs & Fs). destruct He as (Re & Be & Fe).
  split; [lia |].
  intros p Hp. split.
  - destruct (editor_line_start_spec rope p ltac:(lia)) as (ls' & E' & H').
    rewrite E'. f_equal. eapply line_start_of_unique; [exact H' |].
    split; [lia |]. split; [exact Bs |].
    intros i Hi. destruct (Z.lt_ge_cases i pos); [apply Fs | apply Fe]; lia.
  - destruct (editor_line_end_spec rope p ltac:(lia)) as (le' & E' & H').
    rewrite E'. f_equal.
    eapply line_end_of_unique; [exact H' |].
    split; [lia |]. split; [exact Be |].
    intros i Hi. destruct (Z.lt_ge_cases i pos); [apply Fs | apply Fe]; lia.
Qed.

(** X18. A line is an interval: for a position of the rope, every position
    between the line start and the line end that the editor computes,
    both included, has that same line start and that same line end. *)
Theorem editor_line_is_interval (rope : Rope) (pos : Z) :
  0 <= pos <= rope_length rope ->
  exists ls le,
    editor_line_start rope pos = Some ls
    /\ editor_line_end rope pos = Some le
    /\ ls <= pos <= le /\ le <= rope_length rope
    /\ forall p, ls <= p <= le ->
         editor_line_start rope p = Some ls
         /\ editor_line_end rope p = Some le
         /\ editor_get_column rope p = Some (p - ls).
Proof.
  intros Hpos.
  destruct (editor_line_interval rope pos Hpos)
    as (ls & le & Es & Ee & Hs & He & Hle & Hall).
  exists ls, le. split; [exact Es |]. split; [exact Ee |].
  destruct Hs as (Rs & _). destruct He as (Re & _).
  split; [lia |]. split; [exact Hle |].
  intros p Hp. destruct (Hall p Hp) as [E1 E2].
  repeat split; try assumption.
  unfold editor_get_column. rewrite E1. reflexivity.
Qed.

(** * The cursor *)

Lemma set_cursor_set_cursor editor pos col pos' col' :
  set_cursor (set_cursor editor pos col) pos' col' = set_cursor editor pos' col'.
Proof. reflexivity. Qed.

(** A position between a line start and a position of its line has the
    same line start. *)
Lemma editor_line_start_within rope pos ls p :
  0 <= pos ->
  editor_line_start rope pos = Some ls -> ls <= p <= pos ->
  editor_line_start rope p = Some ls.
Proof.
  intros Hpos Es Hp.
  destruct (editor_line_start_spec rope pos Hpos) as (ls0 & Es0 & Hs).
  assert (ls0 = ls) by congruence. subst ls0.
  destruct Hs as (Rs & Bs & Fs).
  destruct (editor_line_start_spec rope p ltac:(lia)) as (ls' & E' & H').
  rewrite E'. f_equal. eapply line_start_of_unique; [exact H' |].
  split; [lia |]. split; [exact Bs |].
  intros i Hi. apply Fs. lia.
Qed.

(** A position between a position and the line end of its line has the
    same line end. *)
Lemma editor_line_end_within rope pos le p :
  0 <= pos ->
  editor_line_end rope pos = Some le -> pos <= p <= le ->
  le <= total_length rope ->
  editor_line_end rope p = Some le.
Proof.
  intros Hpos Ee Hp Hle.
  destruct (editor_line_end_spec rope pos Hpos) as (le0 & Ee0 & He).
  assert (le0 = le) by congruence. subst le0.
  destruct He as (Re & Be & Fe).
  destruct (editor_line_end_spec rope p ltac:(lia)) as (le' & E' & H').
  rewrite E'. f_equal. eapply line_end_of_unique; [exact H' |].
  split; [lia |]. split; [exact Be |].
  intros i Hi. apply Fe. lia.
Qed.

(** X19. [editor_move_up] leaves the editor as it is on the first line.
    On another line, whose start is [ls], it moves the cursor, and nothing
    else, into the line before: that line starts at [pls] and ends at the
    newline at [ls - 1], and the new cursor is at the preferred column of
    it, or at its end when the line is shorter. *)
Theorem editor_move_up_previous_line (editor : Editor) :
  0 <= cursor_pos editor -> 0 <= cursor_preferred_col editor ->
  exists ls,
    editor_line_start (rope editor) (cursor_pos editor) = Some ls
    /\ (ls = 0 -> editor_move_up editor = Some editor)
    /\ (0 < ls ->
        exists pls cursor,
          editor_line_start (rope editor) (ls - 1) = Some pls
          /\ editor_move_up editor =
             Some (set_cursor editor cursor (cursor_preferred_col editor))
          /\ pls <= cursor <= ls - 1
          /\ cursor - pls = Z.min (cursor_preferred_col editor) (ls - 1 - pls)
          /\ editor_line_start (rope editor) cursor = Some pls
          /\ rope_char_at (rope editor) (ls - 1) = Some newline).
Proof.
  intros Hc Hcol.
  destruct (editor_line_start_spec (rope editor) (cursor_pos editor) Hc)
    as (ls & Es & (Rs & Bs & Fs)).
  exists ls. split; [exact Es |]. split.
  - intros ->. unfold editor_move_up. rewrite Es. reflexivity.
  - intros Hls.
    destruct (editor_line_start_spec (rope editor) (ls - 1) ltac:(lia))
      as (pls & Ep & (Rp & Bp & Fp)).
    set (col := cursor_preferred_col editor) in *.
    exists pls, (pls + Z.min col (ls - 1 - pls)).
    split; [exact Ep |]. split.
    { unfold editor_move_up. rewrite Es. cbn [bind].
      destruct (Z.eqb_spec ls 0) as [? | _]; [lia |].
      rewrite Ep. cbn [bind]. fold col. do 2 f_equal.
      destruct (Z.ltb_spec (ls - 1 - pls) col); lia. }
    split; [lia |]. split; [lia |]. split.
    { apply (editor_line_start_within _ (ls - 1)); [lia | exact Ep | lia]. }
    destruct Bs as [? | Bs]; [lia |].
    rewrite rope_char_at_byte_at by lia. f_equal. exact Bs.
Qed.

(** X20. [editor_move_down] leaves the editor as it is on the last line.
    On another line, which ends with the newline at [le], it moves the
    cursor, and nothing else, into the line behind: that line starts at
    [le + 1] and ends at [nle], and the new cursor is at the preferred
    column of it, or at its end when the line is shorter. *)
Theorem editor_move_down_next_line (editor : Editor) :
  0 <= cursor_pos editor -> 0 <= cursor_preferred_col editor ->
  exists le,
    editor_line_end (rope editor) (cursor_pos editor) = Some le
    /\ (rope_length (rope editor) <= le ->
        editor_move_down editor = Some editor)
    /\ (le < rope_length (rope editor) ->
        exists nle cursor,
          editor_line_end (rope editor) (le + 1) = Some nle
          /\ editor_move_down editor =
             Some (set_cursor editor cursor (cursor_preferred_col editor))
          /\ le + 1 <= cursor <= nle /\ nle <= rope_length (rope editor)
          /\ cursor - (le + 1)
             = Z.min (cursor_preferred_col editor) (nle - (le + 1))
          /\ editor_line_start (rope editor) cursor = Some (le + 1)
          /\ editor_line_end (rope editor) cursor = Some nle
          /\ rope_char_at (rope editor) le = Some newline).
Proof.
  intros Hc Hcol. unfold rope_length.
  destruct (editor_line_end_spec (rope editor) (cursor_pos editor) Hc)
    as (le & Ee & (Re & Be & Fe)).
  exists le. split; [exact Ee |]. split.
  - intros Hlast. unfold editor_move_down, rope_length. rewrite Ee.
    cbn [bind].
    destruct (Z.leb_spec (total_length (rope editor)) le); [reflexivity | lia].
  - intros Hmore.
    destruct (editor_line_end_spec (rope editor) (le + 1) ltac:(lia))
      as (nle & En & (Rn & Bn & Fn)).
    set (col := cursor_preferred_col editor) in *.
    exists nle, (le + 1 + Z.min col (nle - (le + 1))).
    split; [exact En |]. split.
    { unfold editor_move_down, rope_length. rewrite Ee. cbn [bind].
      destruct (Z.leb_spec (total_length (rope editor)) le) as [? | _]; [lia |].
      rewrite En. cbn [bind]. fold col. do 2 f_equal.
      destruct (Z.ltb_spec (nle - (le + 1)) col); lia. }
    split; [lia |]. split; [lia |]. split; [lia |]. split.
    { destruct (editor_line_start_spec (rope editor)
                  (le + 1 + Z.min col (nle - (le + 1))) ltac:(lia))
        as (ls' & E' & H').
      rewrite E'. f_equal. eapply line_start_of_unique; [exact H' |].
      split; [lia |]. split.
      - right. replace (le + 1 - 1) with le by lia. apply Be. exact Hmore.
      - intros i Hi. apply Fn. lia. }
    split.
    { apply (editor_line_end_within _ (le + 1)); [lia | exact En | lia | lia]. }
    rewrite rope_char_at_byte_at by lia. f_equal. apply Be. exact Hmore.
Qed.

(** X21. [editor_move_home] puts the cursor at the start of its line with
    the preferred column 0, [editor_move_end] at the end of its line with
    the length of the line as the preferred column, and neither changes
    anything else.  End after Home is End, and Home after End is Home. *)
Theorem editor_move_home_end (editor : Editor) :
  0 <= cursor_pos editor <= rope_length (rope editor) ->
  exists ls le,
    editor_line_start (rope editor) (cursor_pos editor) = Some ls
    /\ editor_line_end (rope editor) (cursor_pos editor) = Some le
    /\ editor_move_home editor = Some (set_cursor editor ls 0)
    /\ editor_move_end editor = Some (set_cursor editor le (le - ls))
    /\ (home <- editor_move_home editor ;; editor_move_end home)
       = editor_move_end editor
    /\ (end_ <- editor_move_end editor ;; editor_move_home end_)
       = editor_move_home editor.
Proof.
  intros Hc.
  destruct (editor_line_interval (rope editor) (cursor_pos editor) Hc)
    as (ls & le & Es & Ee & (Rs & _) & (Re & _) & Hle & Hall).
  destruct (Hall ls ltac:(lia)) as [Ess Ees].
  destruct (Hall le ltac:(lia)) as [Ese Eee].
  exists ls, le.
  assert (Hhome : editor_move_home editor = Some (set_cursor editor ls 0)).
  { unfold editor_move_home. rewrite Es. reflexivity. }
  assert (Hend : editor_move_end editor
                 = Some (set_cursor editor le (le - ls))).
  { unfold editor_move_end, editor_get_column. rewrite Ee. cbn [bind].
    rewrite Ese. reflexivity. }
  split; [exact Es |]. split; [exact Ee |].
  split; [exact Hhome |]. split; [exact Hend |]. split.
  - rewrite Hhome, Hend. cbn [bind].
    unfold editor_move_end, editor_get_column.
    cbn [set_cursor rope cursor_pos]. rewrite Ees. cbn [bind].
    rewrite Ese. reflexivity.
  - rewrite Hhome, Hend. cbn [bind].
    unfold editor_move_home. cbn [set_cursor rope cursor_pos].
    rewrite Ese. reflexivity.
Qed.

(** * Undo and redo *)

Lemma remove_inserted (c : list byte) pos (s : list byte) :
  0 <= pos <= Zlength c ->
  remove (take pos c ++ s ++ drop pos c) pos (Zlength s) = c.
Proof.
  intros Hpos. unfold remove.
  assert (Ht : Zlength (take pos c) = pos) by (rewrite Zlength_take; lia).
  pose proof (Zlength_nonneg s) as Hs.
  set (p := take pos c) in *.
  rewrite take_app, Ht, (take_all pos p), take_nonpos by lia.
  rewrite !drop_app, Ht.
  rewrite (drop_all _ p) by lia.
  rewrite (drop_all _ s) by lia.
  rewrite drop_nonpos by lia.
  rewrite app_nil_r. apply take_drop.
Qed.

Lemma insert_removed (c : list byte) pos len :
  0 <= pos <= Zlength c -> 0 <= len ->
  take pos (remove c pos len) ++ slice c pos len ++ drop pos (remove c pos len)
  = c.
Proof.
  intros Hpos Hlen. unfold remove, slice.
  assert (Ht : Zlength (take pos c) = pos) by (rewrite Zlength_take; lia).
  set (p := take pos c) in *.
  rewrite take_app, drop_app, Ht, (take_all pos p), (drop_all pos p) by lia.
  rewrite (take_nonpos (pos - pos)), (drop_nonpos (pos - pos)) by lia.
  rewrite app_nil_r. cbn [app]. subst p.
  replace (drop (pos + len) c) with (drop len (drop pos c))
    by (apply drop_drop; lia).
  rewrite take_drop. apply take_drop.
Qed.

Lemma strlen_bounds str : 0 <= strlen str <= Zlength str.
Proof.
  pose proof (c_str_prefix str) as H.
  apply (f_equal (@Zlength byte)) in H. rewrite Zlength_take in H.
  unfold strlen in *. pose proof (Zlength_nonneg (c_str str)). lia.
Qed.

Lemma take_terminated (s : list byte) :
  take (Zlength s) (s ++ [NUL]) = s.
Proof.
  rewrite take_app, (take_all _ s), take_nonpos by lia.
  apply app_nil_r.
Qed.

Lemma back_last stack cmd : back (stack ++ [cmd]) = Some cmd.
Proof. unfold back. rewrite rev_unit. reflexivity. Qed.

(** The commands that stay on the undo stack are the newest ones. *)
Lemma limit_undo_stack_last stack cmd :
  exists dropped kept,
    stack = dropped ++ kept
    /\ limit_undo_stack (stack ++ [cmd]) = kept ++ [cmd]
    /\ Zlength kept = Z.min (Zlength stack) (MAX_UNDO_STACK - 1).
Proof.
  unfold MAX_UNDO_STACK.
  induction stack as [| a rest IH].
  - exists [], []. repeat split.
  - cbn [app limit_undo_stack]. unfold MAX_UNDO_STACK.
    assert (Hlen : Zlength (a :: rest ++ [cmd]) = Zlength rest + 2).
    { rewrite !Zlength_correct. cbn [length]. rewrite length_app.
      cbn [length]. lia. }
    rewrite Hlen.
    pose proof (Zlength_correct rest) as Hr.
    destruct (Z.ltb_spec 1000 (Zlength rest + 2)) as [Hfull | Hroom].
    + destruct IH as (dropped & kept & E & L & Hk).
      exists (a :: dropped), kept. rewrite E at 1.
      split; [reflexivity |]. split; [exact L |].
      rewrite Zlength_cons. lia.
    + exists [], (a :: rest). split; [reflexivity |].
      split; [reflexivity |]. rewrite Zlength_cons. lia.
Qed.

Lemma editor_undo_top editor kept cmd :
  undo_stack editor = kept ++ [cmd] ->
  editor_undo editor =
  match cmd_type cmd with
  | CMD_INSERT =>
      rope' <- rope_delete (rope editor) (cmd_pos cmd) (cmd_length cmd) ;;
      Some (after_command editor rope' (cmd_pos cmd) kept
              (redo_stack editor ++ [cmd]))
  | CMD_DELETE =>
      rope' <- rope_insert (rope editor) (cmd_pos cmd)
                 (take (cmd_length cmd) (cmd_content cmd)) ;;
      Some (after_command editor rope' (cmd_pos cmd + cmd_length cmd) kept
              (redo_stack editor ++ [cmd]))
  end.
Proof.
  intros H. unfold editor_undo. rewrite H, back_last, removelast_last.
  reflexivity.
Qed.

Lemma editor_redo_top editor kept cmd :
  redo_stack editor = kept ++ [cmd] ->
  editor_redo editor =
  match cmd_type cmd with
  | CMD_INSERT =>
      rope' <- rope_insert (rope editor) (cmd_pos cmd)
                 (take (cmd_length cmd) (cmd_content cmd)) ;;
      Some (after_command editor rope' (cmd_pos cmd + cmd_length cmd)
              (undo_stack editor ++ [cmd]) kept)
  | CMD_DELETE =>
      rope' <- rope_delete (rope editor) (cmd_pos cmd) (cmd_length cmd) ;;
      Some (after_command editor rope' (cmd_pos cmd)
              (undo_stack editor ++ [cmd]) kept)
  end.
Proof.
  intros H. unfold editor_redo. rewrite H, back_last, removelast_last.
  reflexivity.
Qed.

(** X22. [editor_push_command] with [length] bytes at [content]: the new
    command, with its own terminated copy of the bytes, is the last of the
    undo stack; before it are the newest commands of the old stack, so
    many that the stack has at most [MAX_UNDO_STACK] commands; the redo
    stack is empty, and the rope and the cursor are as before. *)
Theorem editor_push_command_stacks (editor : Editor) (type : CommandType)
  (pos : Z) (content : list byte) (length : Z) :
  0 <= length <= Zlength content ->
  exists editor' dropped kept,
    editor_push_command editor type pos content length = Some editor'
    /\ undo_stack editor = dropped ++ kept
    /\ undo_stack editor' =
       kept ++ [mkCommand type pos (take length content ++ [NUL]) length]
    /\ Zlength (undo_stack editor')
       = Z.min (Zlength (undo_stack editor) + 1) MAX_UNDO_STACK
    /\ redo_stack editor' = []
    /\ rope editor' = rope editor
    /\ cursor_pos editor' = cursor_pos editor.
Proof.
  intros Hlen. unfold editor_push_command.
  destruct (Z.ltb_spec (Zlength content) length) as [? | _]; [lia |].
  destruct (limit_undo_stack_last (undo_stack editor)
              (mkCommand type pos (take length content ++ [NUL]) length))
    as (dropped & kept & E & L & Hk).
  eexists. exists dropped, kept. split; [reflexivity |].
  cbn [undo_stack redo_stack rope cursor_pos].
  split; [exact E |]. split; [exact L |]. split; [| auto].
  rewrite L. unfold MAX_UNDO_STACK in *.
  rewrite !Zlength_correct in *. rewrite length_app.
  cbn [Datatypes.length]. lia.
Qed.

(** * The clipboard *)

Lemma selection_range_min_max editor :
  selection_range editor =
  (Z.min (selection_start editor) (selection_end editor),
   Z.max (selection_start editor) (selection_end editor)).
Proof.
  unfold selection_range.
  destruct (Z.ltb_spec (selection_start editor) (selection_end editor));
    f_equal; lia.
Qed.

Lemma c_str_terminated (s : list byte) :
  ~ In NUL s -> c_str (s ++ [NUL]) = s.
Proof.
  induction s as [| c rest IH]; cbn [c_str In app]; intros Hnot.
  - reflexivity.
  - destruct (Byte.eqb c NUL) eqn:E.
    + apply Byte.byte_dec_bl in E. tauto.
    + rewrite IH by tauto. reflexivity.
Qed.

(** The array of the selected text that [editor_copy], [editor_cut] and
    [editor_paste] fill with [rope_substr]. *)
Lemma rope_substr_selection garbage rope start length :
  total_length rope = leaf_length_sum (root rope) ->
  0 <= start -> 0 <= length -> start + length <= total_length rope ->
  rope_substr rope start length (new_char_array garbage (length + 1))
  = Some (slice (content (root rope)) start length ++ [NUL])
  /\ Zlength (slice (content (root rope)) start length) = length.
Proof.
  intros Hlen Hs Hl Hin.
  assert (Ha : available rope start length = length).
  { unfold available. destruct (Z.ltb_spec start (total_length rope)); lia. }
  pose proof (Zlength_slice_available rope start length Hlen Hs Hl) as Hn.
  rewrite (rope_substr_content rope start length
             (new_char_array garbage (length + 1)) Hlen Hs Hl
             (or_intror Hin))
    by (rewrite Zlength_new_char_array by lia; lia).
  rewrite Hn, Ha. split; [| reflexivity].
  rewrite drop_all by (rewrite Zlength_new_char_array by lia; lia).
  reflexivity.
Qed.

Lemma delete_selection_some garbage editor :
  let start := Z.min (selection_start editor) (selection_end editor) in
  let end_ := Z.max (selection_start editor) (selection_end editor) in
  let text := slice (content (root (rope editor))) start (end_ - start) in
  rope_ok (rope editor) ->
  0 <= start -> end_ <= total_length (rope editor) ->
  exists rope' dropped kept,
    undo_stack editor = dropped ++ kept
    /\ delete_selection garbage editor =
       Some (mkEditor rope' start (cursor_preferred_col editor) false
               (selection_start editor) (selection_end editor)
               (kept ++ [mkCommand CMD_DELETE start (text ++ [NUL])
                           (end_ - start)])
               [] (rope_version editor + 1))
    /\ rope_ok rope'
    /\ content (root rope')
       = remove (content (root (rope editor))) start (end_ - start)
    /\ total_length rope' = total_length (rope editor) - (end_ - start)
    /\ Zlength text = end_ - start.
Proof.
  intros start end_ text Hok Hstart Hend.
  assert (Hl : 0 <= end_ - start) by (subst start end_; lia).
  unfold delete_selection. rewrite selection_range_min_max.
  fold start end_.
  destruct (rope_substr_selection garbage (rope editor) start (end_ - start)
              (proj2 Hok) Hstart Hl ltac:(lia)) as [E Hn].
  fold text in E, Hn. rewrite E. cbn [bind].
  unfold editor_push_command.
  destruct (Z.ltb_spec (Zlength (text ++ [NUL])) (end_ - start)) as [Hshort | _].
  { rewrite Zlength_app, Zlength_cons, Zlength_nil in Hshort. lia. }
  cbn [bind rope cursor_pos cursor_preferred_col has_selection
         selection_start selection_end undo_stack redo_stack rope_version].
  replace (take (end_ - start) (text ++ [NUL])) with text
    by (rewrite <- Hn at 1; symmetry; apply take_terminated).
  destruct (limit_undo_stack_last (undo_stack editor)
              (mkCommand CMD_DELETE start (text ++ [NUL]) (end_ - start)))
    as (dropped & kept & Es & L & _).
  rewrite L.
  destruct (rope_delete_content (rope editor) start (end_ - start) Hok Hstart Hl)
    as (rope' & Ed & Hok' & Ct).
  rewrite Ed. cbn [bind].
  exists rope', dropped, kept.
  split; [exact Es |]. split; [reflexivity |]. split; [exact Hok' |].
  split; [exact Ct |]. split; [| exact Hn].
  pose proof (proj2 Hok) as Hc. rewrite leaf_length_sum_content in Hc.
  rewrite (proj2 Hok'), leaf_length_sum_content, Ct, Zlength_remove by lia.
  lia.
Qed.

Lemma editor_copy_some garbage editor :
  let start := Z.min (selection_start editor) (selection_end editor) in
  let end_ := Z.max (selection_start editor) (selection_end editor) in
  has_selection editor = true ->
  total_length (rope editor) = leaf_length_sum (root (rope editor)) ->
  0 <= start -> end_ <= total_length (rope editor) ->
  editor_copy garbage editor =
  Some (Some (slice (content (root (rope editor))) start (end_ - start)
              ++ [NUL])).
Proof.
  intros start end_ Hsel Hlen Hstart Hend.
  assert (Hl : 0 <= end_ - start) by (subst start end_; lia).
  unfold editor_copy. rewrite Hsel. cbn [negb].
  rewrite selection_range_min_max. fold start end_.
  destruct (rope_substr_selection garbage (rope editor) start (end_ - start)
              Hlen Hstart Hl ltac:(lia)) as [E Hn].
  rewrite E. cbn [bind].
  rewrite memcpy_write
    by (rewrite Zlength_app, !Zlength_cons, Zlength_nil; lia).
  rewrite <- Hn at 2. rewrite write_last by reflexivity.
  reflexivity.
Qed.

Lemma editor_paste_some garbage editor text :
  rope_ok (rope editor) -> has_selection editor = false ->
  0 <= cursor_pos editor <= total_length (rope editor) ->
  0 < strlen text <= ROPE_NODE_CAPACITY ->
  exists rope' dropped kept,
    undo_stack editor = dropped ++ kept
    /\ editor_paste garbage editor (Some text) =
       Some (mkEditor rope' (cursor_pos editor + strlen text)
               (cursor_preferred_col editor) false
               (selection_start editor) (selection_end editor)
               (kept ++ [mkCommand CMD_INSERT (cursor_pos editor)
                           (c_str text ++ [NUL]) (strlen text)])
               [] (rope_version editor + 1))
    /\ rope_ok rope'
    /\ content (root rope')
       = take (cursor_pos editor) (content (root (rope editor)))
         ++ c_str text
         ++ drop (cursor_pos editor) (content (root (rope editor)))
    /\ total_length rope' = total_length (rope editor) + strlen text.
Proof.
  intros Hok Hsel Hc Hlen. unfold editor_paste.
  destruct (Z.eqb_spec (strlen text) 0) as [? | _]; [lia |].
  rewrite Hsel. cbn [bind]. unfold editor_push_command.
  pose proof (strlen_bounds text) as Hb.
  destruct (Z.ltb_spec (Zlength text) (strlen text)) as [? | _]; [lia |].
  cbn [bind rope cursor_pos cursor_preferred_col has_selection
         selection_start selection_end undo_stack redo_stack rope_version].
  rewrite c_str_prefix.
  destruct (limit_undo_stack_last (undo_stack editor)
              (mkCommand CMD_INSERT (cursor_pos editor)
                 (c_str text ++ [NUL]) (strlen text)))
    as (dropped & kept & Es & L & _).
  rewrite L.
  destruct (rope_insert_within_capacity (rope editor) (cursor_pos editor)
              (c_str text) Hok Hc (or_introl (proj2 Hlen)))
    as (rope' & E & Hok' & Ct & Ht).
  rewrite E. cbn [bind]. rewrite Hsel.
  exists rope', dropped, kept. auto.
Qed.

Lemma editor_paste_undo_some garbage editor text :
  let cursor := cursor_pos editor in
  let cmd := mkCommand CMD_INSERT cursor (c_str text ++ [NUL]) (strlen text) in
  rope_ok (rope editor) -> has_selection editor = false ->
  0 <= cursor <= total_length (rope editor) ->
  0 < strlen text <= ROPE_NODE_CAPACITY ->
  exists rope' rope'' kept,
    editor_paste garbage editor (Some text) =
    Some (mkEditor rope' (cursor + strlen text)
            (cursor_preferred_col editor) false
            (selection_start editor) (selection_end editor)
            (kept ++ [cmd]) [] (rope_version editor + 1))
    /\ editor_undo
         (mkEditor rope' (cursor + strlen text)
            (cursor_preferred_col editor) false
            (selection_start editor) (selection_end editor)
            (kept ++ [cmd]) [] (rope_version editor + 1)) =
       Some (mkEditor rope'' cursor
               (cursor_preferred_col editor) false
               (selection_start editor) (selection_end editor)
               kept [cmd] (rope_version editor + 1 + 1))
    /\ rope_ok rope'
    /\ content (root rope')
       = take cursor (content (root (rope editor)))
         ++ c_str text ++ drop cursor (content (root (rope editor)))
    /\ total_length rope' = total_length (rope editor) + strlen text
    /\ rope_ok rope''
    /\ content (root rope'') = content (root (rope editor))
    /\ total_length rope'' = total_length (rope editor).
Proof.
  intros cursor cmd Hok Hsel Hc Hlen.
  destruct (editor_paste_some garbage editor text Hok Hsel Hc Hlen)
    as (rope' & dropped & kept & _ & E & Hok' & Ct & Ht).
  fold cursor in E, Ct. fold cmd in E.
  pose proof (proj2 Hok) as Hlc. rewrite leaf_length_sum_content in Hlc.
  destruct (rope_delete_content rope' cursor (strlen text) Hok')
    as (rope'' & Ed & Hok'' & Ct''); [lia | lia |].
  assert (Hback : content (root rope'') = content (root (rope editor))).
  { rewrite Ct'', Ct. unfold strlen. apply remove_inserted. lia. }
  exists rope', rope'', kept.
  split; [exact E |]. split.
  { rewrite (editor_undo_top _ kept cmd) by reflexivity.
    cbn [cmd cmd_type cmd_pos cmd_length rope]. rewrite Ed. reflexivity. }
  split; [exact Hok' |]. split; [exact Ct |]. split; [exact Ht |].
  split; [exact Hok'' |]. split; [exact Hback |].
  rewrite (proj2 Hok''), leaf_length_sum_content, Hback. auto.
Qed.

(** X23. [editor_paste] without a selection, with a clipboard text of at
    most [ROPE_NODE_CAPACITY] bytes and the cursor inside of the text:
    the C string of the clipboard is inserted at the cursor, the cursor is
    behind it, the command is the last of the undo stack and the redo
    stack is empty. *)
Theorem editor_paste_inserts (garbage : nat -> byte) (editor : Editor)
  (text : list byte) :
  rope_ok (rope editor) -> has_selection editor = false ->
  0 <= cursor_pos editor <= rope_length (rope editor) ->
  0 < strlen text <= ROPE_NODE_CAPACITY ->
  exists editor',
    editor_paste garbage editor (Some text) = Some editor'
    /\ content (root (rope editor'))
       = take (cursor_pos editor) (content (root (rope editor)))
         ++ c_str text
         ++ drop (cursor_pos editor) (content (root (rope editor)))
    /\ rope_length (rope editor') = rope_length (rope editor) + strlen text
    /\ rope_ok (rope editor')
    /\ cursor_pos editor' = cursor_pos editor + strlen text
    /\ back (undo_stack editor')
       = Some (mkCommand CMD_INSERT (cursor_pos editor)
                 (c_str text ++ [NUL]) (strlen text))
    /\ redo_stack editor' = []
    /\ rope_version editor' = rope_version editor + 1.
Proof.
  unfold rope_length. intros Hok Hsel Hc Hlen.
  destruct (editor_paste_some garbage editor text Hok Hsel Hc Hlen)
    as (rope' & dropped & kept & _ & E & Hok' & Ct & Ht).
  eexists. split; [exact E |].
  cbn [rope cursor_pos undo_stack redo_stack rope_version].
  rewrite back_last. auto 10.
Qed.

(** X24. Undo after a paste as in X23 gives back the content and the
    length of the rope and the position of the cursor; the command is then
    the only one of the redo stack. *)
Theorem editor_paste_undo (garbage : nat -> byte) (editor : Editor)
  (text : list byte) :
  rope_ok (rope editor) -> has_selection editor = false ->
  0 <= cursor_pos editor <= rope_length (rope editor) ->
  0 < strlen text <= ROPE_NODE_CAPACITY ->
  exists pasted undone,
    editor_paste garbage editor (Some text) = Some pasted
    /\ editor_undo pasted = Some undone
    /\ content (root (rope undone)) = content (root (rope editor))
    /\ rope_length (rope undone) = rope_length (rope editor)
    /\ rope_ok (rope undone)
    /\ cursor_pos undone = cursor_pos editor
    /\ redo_stack undone
       = [mkCommand CMD_INSERT (cursor_pos editor)
            (c_str text ++ [NUL]) (strlen text)]
    /\ rope_version undone = rope_version editor + 2.
Proof.
  unfold rope_length. intros Hok Hsel Hc Hlen.
  destruct (editor_paste_undo_some garbage editor text Hok Hsel Hc Hlen)
    as (rope' & rope'' & kept & E & Eu & _ & _ & _ & Hok'' & Ct & Ht).
  eexists. eexists. split; [exact E |]. split; [exact Eu |].
  cbn [rope cursor_pos undo_stack redo_stack rope_version].
  repeat split; try assumption; try apply Hok''. lia.
Qed.

(** X25. Redo after the undo of X24 gives the editor of the paste again:
    the content and the length of the rope, the cursor and the two
    stacks. *)
Theorem editor_paste_undo_redo (garbage : nat -> byte) (editor : Editor)
  (text : list byte) :
  rope_ok (rope editor) -> has_selection editor = false ->
  0 <= cursor_pos editor <= rope_length (rope editor) ->
  0 < strlen text <= ROPE_NODE_CAPACITY ->
  exists pasted undone redone,
    editor_paste garbage editor (Some text) = Some pasted
    /\ editor_undo pasted = Some undone
    /\ editor_redo undone = Some redone
    /\ content (root (rope redone)) = content (root (rope pasted))
    /\ rope_length (rope redone) = rope_length (rope pasted)
    /\ cursor_pos redone = cursor_pos pasted
    /\ undo_stack redone = undo_stack pasted
    /\ redo_stack redone = redo_stack pasted.
Proof.
  unfold rope_length. intros Hok Hsel Hc Hlen.
  destruct (editor_paste_undo_some garbage editor text Hok Hsel Hc Hlen)
    as (rope' & rope'' & kept & E & Eu & Hok' & Ct' & Ht' & Hok'' & Ct & Ht).
  destruct (rope_insert_within_capacity rope'' (cursor_pos editor)
              (c_str text) Hok'')
    as (rope3 & Ei & Hok3 & Ct3 & Ht3); [lia | left; apply Hlen |].
  eexists. eexists. eexists.
  split; [exact E |]. split; [exact Eu |]. split.
  { rewrite (editor_redo_top _ [] (mkCommand CMD_INSERT (cursor_pos editor)
                                     (c_str text ++ [NUL]) (strlen text)))
      by reflexivity.
    cbn [cmd_type cmd_pos cmd_length cmd_content rope].
    unfold strlen at 1. rewrite take_terminated, Ei. reflexivity. }
  cbn [after_command rope cursor_pos undo_stack redo_stack].
  rewrite Ct3, Ct, Ct', Ht3, Ht, Ht'. unfold strlen. auto.
Qed.

Lemma editor_cut_some garbage garbage' editor :
  let start := Z.min (selection_start editor) (selection_end editor) in
  let end_ := Z.max (selection_start editor) (selection_end editor) in
  let text := slice (content (root (rope editor))) start (end_ - start) in
  has_selection editor = true ->
  rope_ok (rope editor) ->
  0 <= start -> end_ <= total_length (rope editor) ->
  exists rope' kept,
    editor_cut garbage garbage' editor =
    Some (Some (text ++ [NUL]),
          mkEditor rope' start (cursor_preferred_col editor) false
            (selection_start editor) (selection_end editor)
            (kept ++ [mkCommand CMD_DELETE start (text ++ [NUL])
                        (end_ - start)])
            [] (rope_version editor + 1))
    /\ rope_ok rope'
    /\ content (root rope')
       = remove (content (root (rope editor))) start (end_ - start)
    /\ total_length rope' = total_length (rope editor) - (end_ - start)
    /\ Zlength text = end_ - start.
Proof.
  intros start end_ text Hsel Hok Hstart Hend.
  destruct (delete_selection_some garbage' editor Hok Hstart Hend)
    as (rope' & dropped & kept & _ & E & Hok' & Ct & Ht & Hn).
  exists rope', kept. unfold editor_cut. rewrite Hsel. cbn [negb].
  rewrite (editor_copy_some garbage editor Hsel (proj2 Hok) Hstart Hend).
  cbn [bind]. rewrite E. cbn [bind]. auto.
Qed.

(** X26. [editor_copy] with a selection inside of the text hands to the
    clipboard the bytes of the content between the two ends of the
    selection, whichever of them is the first, and a terminator. *)
Theorem editor_copy_selection (garbage : nat -> byte) (editor : Editor) :
  has_selection editor = true ->
  rope_length (rope editor) = leaf_length_sum (root (rope editor)) ->
  0 <= selection_start editor <= rope_length (rope editor) ->
  0 <= selection_end editor <= rope_length (rope editor) ->
  editor_copy garbage editor =
  Some (Some (slice (content (root (rope editor)))
                (Z.min (selection_start editor) (selection_end editor))
                (Z.abs (selection_end editor - selection_start editor))
              ++ [NUL])).
Proof.
  unfold rope_length. intros Hsel Hlen Hs He.
  rewrite (editor_copy_some garbage editor Hsel Hlen) by lia.
  do 4 f_equal. lia.
Qed.

(** X27. [editor_cut] with a selection inside of the text: the clipboard
    gets the selected bytes as in X26, the rope loses them, the cursor is
    at the first end of the selection, nothing is selected, and the
    command with the bytes is the last of the undo stack. *)
Theorem editor_cut_removes (garbage garbage' : nat -> byte) (editor : Editor) :
  let start := Z.min (selection_start editor) (selection_end editor) in
  let length := Z.abs (selection_end editor - selection_start editor) in
  let text := slice (content (root (rope editor))) start length in
  has_selection editor = true ->
  rope_ok (rope editor) ->
  0 <= selection_start editor <= rope_length (rope editor) ->
  0 <= selection_end editor <= rope_length (rope editor) ->
  exists editor',
    editor_cut garbage garbage' editor = Some (Some (text ++ [NUL]), editor')
    /\ content (root (rope editor'))
       = remove (content (root (rope editor))) start length
    /\ rope_length (rope editor') = rope_length (rope editor) - length
    /\ rope_ok (rope editor')
    /\ cursor_pos editor' = start
    /\ has_selection editor' = false
    /\ back (undo_stack editor')
       = Some (mkCommand CMD_DELETE start (text ++ [NUL]) length)
    /\ redo_stack editor' = [].
Proof.
  intros start length text. unfold rope_length. intros Hsel Hok Hs He.
  destruct (editor_cut_some garbage garbage' editor Hsel Hok)
    as (rope' & kept & E & Hok' & Ct & Ht & Hn); [lia | lia |].
  assert (Hl : Z.max (selection_start editor) (selection_end editor)
               - Z.min (selection_start editor) (selection_end editor)
               = length) by (subst length; lia).
  rewrite Hl in *. fold start text in E, Ct, Hn.
  eexists. split; [exact E |].
  cbn [rope cursor_pos has_selection undo_stack redo_stack].
  rewrite back_last. auto 10.
Qed.

(** X28. Undo after a cut as in X27 of at most [ROPE_NODE_CAPACITY] bytes
    gives back the content and the length of the rope; the cursor is at
    the last end of the selection. *)
Theorem editor_cut_undo (garbage garbage' : nat -> byte) (editor : Editor) :
  has_selection editor = true ->
  rope_ok (rope editor) ->
  0 <= selection_start editor <= rope_length (rope editor) ->
  0 <= selection_end editor <= rope_length (rope editor) ->
  Z.abs (selection_end editor - selection_start editor)
  <= ROPE_NODE_CAPACITY ->
  exists clipboard cut undone,
    editor_cut garbage garbage' editor = Some (clipboard, cut)
    /\ editor_undo cut = Some undone
    /\ content (root (rope undone)) = content (root (rope editor))
    /\ rope_length (rope undone) = rope_length (rope editor)
    /\ rope_ok (rope undone)
    /\ cursor_pos undone
       = Z.max (selection_start editor) (selection_end editor)
    /\ has_selection undone = false
    /\ rope_version undone = rope_version editor + 2.
Proof.
  unfold rope_length. intros Hsel Hok Hs He Hsmall.
  destruct (editor_cut_some garbage garbage' editor Hsel Hok)
    as (rope' & kept & E & Hok' & Ct & Ht & Hn); [lia | lia |].
  set (start := Z.min (selection_start editor) (selection_end editor)) in *.
  set (end_ := Z.max (selection_start editor) (selection_end editor)) in *.
  set (text := slice (content (root (rope editor))) start (end_ - start)) in *.
  pose proof (proj2 Hok) as Hlc. rewrite leaf_length_sum_content in Hlc.
  destruct (rope_insert_within_capacity rope' start text Hok')
    as (rope'' & Ei & Hok'' & Ct'' & Ht''); [lia | left; lia |].
  assert (Hback : content (root rope'') = content (root (rope editor))).
  { rewrite Ct'', Ct. apply insert_removed; lia. }
  eexists. eexists. eexists. split; [exact E |]. split.
  { rewrite (editor_undo_top _ kept
               (mkCommand CMD_DELETE start (text ++ [NUL]) (end_ - start)))
      by reflexivity.
    cbn [cmd_type cmd_pos cmd_length cmd_content rope].
    rewrite <- Hn at 1. rewrite take_terminated, Ei. reflexivity. }
  cbn [after_command rope cursor_pos has_selection rope_version].
  split; [exact Hback |]. split; [lia |]. split; [exact Hok'' |].
  split; [lia |]. split; [reflexivity | lia].
Qed.

(** X29. Paste after cut: when the cut of X27 takes at least one and at
    most [ROPE_NODE_CAPACITY] bytes, none of them NUL, a paste of the
    array that the clipboard got gives back the content and the length of
    the rope, with the cursor at the last end of the selection. *)
Theorem editor_cut_paste (garbage garbage' garbage'' : nat -> byte)
  (editor : Editor) :
  let start := Z.min (selection_start editor) (selection_end editor) in
  let length := Z.abs (selection_end editor - selection_start editor) in
  has_selection editor = true ->
  rope_ok (rope editor) ->
  0 <= selection_start editor <= rope_length (rope editor) ->
  0 <= selection_end editor <= rope_length (rope editor) ->
  0 < length <= ROPE_NODE_CAPACITY ->
  ~ In NUL (slice (content (root (rope editor))) start length) ->
  exists clipboard cut pasted,
    editor_cut garbage garbage' editor = Some (Some clipboard, cut)
    /\ editor_paste garbage'' cut (Some clipboard) = Some pasted
    /\ content (root (rope pasted)) = content (root (rope editor))
    /\ rope_length (rope pasted) = rope_length (rope editor)
    /\ cursor_pos pasted
       = Z.max (selection_start editor) (selection_end editor).
Proof.
  intros start length. unfold rope_length. intros Hsel Hok Hs He Hsmall Hnul.
  destruct (editor_cut_some garbage garbage' editor Hsel Hok)
    as (rope' & kept & E & Hok' & Ct & Ht & Hn); [lia | lia |].
  assert (Hl : Z.max (selection_start editor) (selection_end editor)
               - Z.min (selection_start editor) (selection_end editor)
               = length) by (subst length; lia).
  rewrite Hl in *. fold start in E, Ct, Hn.
  set (text := slice (content (root (rope editor))) start length) in *.
  pose proof (proj2 Hok) as Hlc. rewrite leaf_length_sum_content in Hlc.
  assert (Hstr : c_str (text ++ [NUL]) = text)
    by (apply c_str_terminated; exact Hnul).
  assert (Hsl : strlen (text ++ [NUL]) = length)
    by (unfold strlen; rewrite Hstr; exact Hn).
  match type of E with
  | _ = Some (_, ?e) =>
      destruct (editor_paste_some garbage'' e (text ++ [NUL]))
        as (rope'' & _ & kept' & _ & Ep & Hok'' & Ct'' & Ht'')
  end.
  { exact Hok'. }
  { reflexivity. }
  { cbn [rope cursor_pos]. subst start. lia. }
  { lia. }
  cbn [rope cursor_pos] in *.
  eexists. eexists. eexists. split; [exact E |]. split; [exact Ep |].
  cbn [rope cursor_pos]. rewrite Ct'', Ct, Hstr, Ht'', Ht, Hsl.
  split; [apply insert_removed; subst start length; lia |].
  subst start length. lia.
Qed.

(** X30. Select All and Copy: the clipboard gets the array that
    [rope_to_string] returns, the content of the rope and a terminator. *)
Theorem editor_select_all_copy (garbage garbage' : nat -> byte)
  (editor : Editor) :
  rope_length (rope editor) = leaf_length_sum (root (rope editor)) ->
  editor_copy garbage (editor_select_all editor)
  = Some (Some (content (root (rope editor)) ++ [NUL]))
  /\ editor_copy garbage (editor_select_all editor)
     = option_map Some (rope_to_string garbage' (rope editor)).
Proof.
  unfold rope_length. intros Hlen.
  pose proof Hlen as Hlc. rewrite leaf_length_sum_content in Hlc.
  pose proof (Zlength_nonneg (content (root (rope editor)))) as Hc.
  assert (E : editor_copy garbage (editor_select_all editor)
              = Some (Some (content (root (rope editor)) ++ [NUL]))).
  { rewrite editor_copy_some;
      cbn [editor_select_all has_selection selection_start
             selection_end rope];
      unfold rope_length; try reflexivity; try assumption; try lia.
    replace (Z.min 0 (total_length (rope editor))) with 0 by lia.
    replace (Z.max 0 (total_length (rope editor)) - 0)
      with (Zlength (content (root (rope editor)))) by lia.
    rewrite slice_full. reflexivity. }
  split; [exact E |].
  rewrite E, rope_to_string_content by exact Hlen. reflexivity.
Qed.

(** * Examples for the properties above *)

Lemma three_leaves_wf : wf three_leaves.
Proof.
  unfold three_leaves.
  repeat (apply wf_create_internal || apply wf_create_leaf);
    vm_compute; discriminate.
Defined.

Lemma full_leaf_rope_wf : wf (root full_leaf_rope).
Proof.
  cbn [root full_leaf_rope].
  repeat (apply wf_create_internal || apply wf_create_leaf);
    vm_compute; discriminate.
Defined.

Lemma five_leaves_rope_wf : wf (root five_leaves_rope).
Proof.
  cbn [root five_leaves_rope].
  repeat (apply wf_create_internal || apply wf_create_leaf
          || exact three_leaves_wf);
    vm_compute; discriminate.
Defined.

(** The balancer at work on the leaf ["a"] over [three_leaves]: the node
    that it receives has a balance factor of -2 and a height of 4, the tree
    that it returns a balance factor of 0 and a height of 3. *)
Example three_leaves_rotation :
  let node :=
    Node (rope_node_create_leaf ["a"%byte]) three_leaves 0 0 false [] in
  rope_node_balance_factor node = -2
  /\ tree_height node = 4
  /\ option_map rope_node_balance_factor (rope_node_balance node) = Some 0
  /\ option_map tree_height (rope_node_balance node) = Some 3
  /\ option_map leaves (rope_node_balance node)
     = Some [["a"]; ["b"]; ["c"]; ["d"]]%byte.
Proof. repeat split; vm_compute; reflexivity. Qed.

(** The insertion into the full leaf of [full_leaf_rope]: the split makes
    the left subtree 3 high, the root gets a balance factor of 2 and is
    rotated; the rope is 3 high afterwards, with a balance factor of 0. *)
Example full_leaf_rope_rotation :
  option_map
    (fun l' =>
       rope_node_balance_factor
         (Node l' (rope_node_create_leaf ["b"%byte]) 2 512 false []))
    (rope_node_insert (rope_node_create_leaf (repeat "a"%byte 512)) 5
       ["!"%byte])
  = Some 2
  /\ option_map
       (fun rope' =>
          (tree_height (root rope'), rope_node_balance_factor (root rope')))
       (rope_insert full_leaf_rope 5 ["!"%byte])
     = Some (3, 0).
Proof. split; vm_compute; reflexivity. Qed.

(** The deletion of the first byte of [five_leaves_rope]: the left subtree
    collapses to the leaf ["e"], the root gets a balance factor of -2 and
    is rotated; the rope is 3 high afterwards, with a balance factor of
    0. *)
Example five_leaves_rope_rotation :
  option_map
    (fun l' => rope_node_balance_factor (Node l' three_leaves 4 2 false []))
    (rope_node_delete
       (rope_node_create_internal
          (rope_node_create_leaf ["a"%byte]) (rope_node_create_leaf ["e"%byte]))
       0 1)
  = Some (-2)
  /\ option_map
       (fun rope' =>
          (tree_height (root rope'), rope_node_balance_factor (root rope'),
           leaves (root rope')))
       (rope_delete five_leaves_rope 0 1)
     = Some (3, 0, [["e"]; ["b"]; ["c"]; ["d"]]%byte).
Proof. split; vm_compute; reflexivity. Qed.

(** Down from the first of the two lines: from the ["b"] to the ["d"]. *)
Example first_line_editor_down :
  editor_line_end (rope first_line_editor) (cursor_pos first_line_editor)
  = Some 2
  /\ editor_move_down first_line_editor
     = Some (set_cursor first_line_editor 4 1).
Proof. split; vm_compute; reflexivity. Qed.

Lemma hello_rope_within_capacity : reachable_within_capacity hello_rope.
Proof.
  apply (within_step rope_init hello_rope within_init).
  apply (within_from_string rope_init hello_world hello_rope).
  reflexivity.
Defined.

(** [rope_substr (pos = 7, length = 5)] on ["Hello, World!"] into 6 bytes. *)
Lemma rope_substr_slice_witness :
  total_length hello_rope = leaf_length_sum (root hello_rope)
  /\ 0 <= 7
  /\ 0 <= 5
  /\ 7 + 5 <= SIZE_MAX
  /\ available hello_rope 7 5 + 1 <= Zlength (repeat xff 6)
  /\ (rope_substr hello_rope 7 5 (repeat xff 6) =
    Some (slice (content (root hello_rope)) 7 5
          ++ [NUL] ++ drop (available hello_rope 7 5 + 1) (repeat xff 6))
    /\ Zlength (slice (content (root hello_rope)) 7 5)
       = available hello_rope 7 5).
Proof.
  split; [reflexivity |].
  split; [lia |].
  split; [lia |].
  split; [vm_compute; discriminate |].
  split; [vm_compute; discriminate |].
  apply (rope_substr_slice hello_rope 7 5 (repeat xff 6)).
  - reflexivity.
  - lia.
  - lia.
  - vm_compute; discriminate.
  - vm_compute; discriminate.
Defined.

(** [copy (pos = 7, len = 5)] on ["Hello, World!"] into 8 bytes. *)
Lemma rope_copy_any_rope_witness :
  0 <= 7
  /\ 0 <= 5 <= Zlength (repeat xff 8)
  /\ (exists bytes,
      rope_copy hello_rope 7 (repeat xff 8) 5
      = Some (Zlength bytes, bytes ++ drop (Zlength bytes) (repeat xff 8))
      /\ bytes = slice (content (root hello_rope)) 7 5
      /\ Zlength bytes <= 5
      /\ rope_char_at hello_rope 7 = Some (byte_at (content (root hello_rope)) 7)).
Proof.
  split; [lia |].
  split; [vm_compute; split; discriminate |].
  apply (rope_copy_any_rope hello_rope 7 5 (repeat xff 8)).
  - lia.
  - vm_compute; split; discriminate.
Defined.

(** [insert (pos = 5, "!")] on ["Hello, World!"]. *)
Lemma rope_insert_to_string_witness :
  rope_ok hello_rope
  /\ 0 <= 5 <= total_length hello_rope
  /\ (Zlength ["!"%byte] <= ROPE_NODE_CAPACITY \/ root hello_rope = nullptr)
  /\ (exists rope' old,
      rope_insert hello_rope 5 ["!"%byte] = Some rope'
      /\ rope_ok rope'
      /\ rope_to_string (fun _ => xff) hello_rope = Some (old ++ [NUL])
      /\ rope_to_string (fun _ => xff) rope'
         = Some (take 5 old ++ ["!"%byte] ++ drop 5 old ++ [NUL])
      /\ total_length rope' = total_length hello_rope + Zlength ["!"%byte]).
Proof.
  split; [exact hello_rope_ok |].
  split; [vm_compute; split; discriminate |].
  split; [left; vm_compute; discriminate |].
  apply (rope_insert_to_string (fun _ => xff) (fun _ => xff) hello_rope 5 ["!"%byte]).
  - exact hello_rope_ok.
  - vm_compute; split; discriminate.
  - left; vm_compute; discriminate.
Defined.

(** [insert (pos = 5, "!")] and [delete (pos = 5, len = 1)] on ["Hello, World!"]. *)
Lemma rope_insert_delete_witness :
  rope_ok hello_rope
  /\ 0 <= 5 <= total_length hello_rope
  /\ (Zlength ["!"%byte] <= ROPE_NODE_CAPACITY \/ root hello_rope = nullptr)
  /\ (exists rope' rope'',
      rope_insert hello_rope 5 ["!"%byte] = Some rope'
      /\ rope_delete rope' 5 (Zlength ["!"%byte]) = Some rope''
      /\ rope_ok rope''
      /\ content (root rope'') = content (root hello_rope)
      /\ total_length rope'' = total_length hello_rope).
Proof.
  split; [exact hello_rope_ok |].
  split; [vm_compute; split; discriminate |].
  split; [left; vm_compute; discriminate |].
  apply (rope_insert_delete hello_rope 5 ["!"%byte]).
  - exact hello_rope_ok.
  - vm_compute; split; discriminate.
  - left; vm_compute; discriminate.
Defined.

(** ["World"] taken out of ["Hello, World!"] and put back. *)
Lemma rope_delete_reinsert_witness :
  rope_ok hello_rope
  /\ 0 <= 7 <= total_length hello_rope
  /\ 0 <= 5 <= Zlength (repeat xff 5)
  /\ available hello_rope 7 5 <= ROPE_NODE_CAPACITY
  /\ (exists bytes rest rope' rope'',
      rope_copy hello_rope 7 (repeat xff 5) 5 = Some (Zlength bytes, bytes ++ rest)
      /\ rope_delete hello_rope 7 5 = Some rope'
      /\ rope_insert rope' 7 bytes = Some rope''
      /\ rope_ok rope''
      /\ content (root rope'') = content (root hello_rope)
      /\ total_length rope'' = total_length hello_rope).
Proof.
  split; [exact hello_rope_ok |].
  split; [vm_compute; split; discriminate |].
  split; [vm_compute; split; discriminate |].
  split; [vm_compute; discriminate |].
  apply (rope_delete_reinsert hello_rope 7 5 (repeat xff 5)).
  - exact hello_rope_ok.
  - vm_compute; split; discriminate.
  - vm_compute; split; discriminate.
  - vm_compute; discriminate.
Defined.

(** [delete (pos = 0, len = 13)] on ["Hello, World!"]. *)
Lemma rope_delete_no_empty_leaf_witness :
  wf (root hello_rope)
  /\ no_empty_leaf (root hello_rope) = true
  /\ 0 <= 0
  /\ 0 <= 13
  /\ (exists rope',
      rope_delete hello_rope 0 13 = Some rope'
      /\ wf (root rope')
      /\ no_empty_leaf (root rope') = true
      /\ no_null_child (root rope') = true
      /\ (content (root rope') = [] -> root rope' = nullptr)).
Proof.
  split; [exact (proj1 hello_rope_ok) |].
  split; [reflexivity |].
  split; [lia |].
  split; [lia |].
  apply (rope_delete_no_empty_leaf hello_rope 0 13).
  - exact (proj1 hello_rope_ok).
  - reflexivity.
  - lia.
  - lia.
Defined.

(** [delete (pos = 13, len = 4)] on ["Hello, World!"]. *)
Lemma rope_delete_beyond_end_witness :
  rope_ok hello_rope
  /\ total_length hello_rope <= 13
  /\ 0 <= 4
  /\ (exists rope',
      rope_delete hello_rope 13 4 = Some rope'
      /\ rope_ok rope'
      /\ content (root rope') = content (root hello_rope)
      /\ total_length rope' = total_length hello_rope).
Proof.
  split; [exact hello_rope_ok |].
  split; [vm_compute; discriminate |].
  split; [lia |].
  apply (rope_delete_beyond_end hello_rope 13 4).
  - exact hello_rope_ok.
  - vm_compute; discriminate.
  - lia.
Defined.

(** [insert (pos = 0, "Hello, World!")] on the empty rope. *)
Lemma rope_insert_empty_rope_witness :
  root rope_init = nullptr
  /\ total_length rope_init = 0
  /\ 0 < Zlength hello_world
  /\ (exists rope',
      rope_insert rope_init 0 hello_world = Some rope'
      /\ rope_ok rope'
      /\ content (root rope') = hello_world
      /\ total_length rope' = Zlength hello_world
      /\ Forall (fun d => 1 <= Zlength d <= ROPE_NODE_CAPACITY)
           (leaves (root rope'))).
Proof.
  split; [reflexivity |].
  split; [reflexivity |].
  split; [reflexivity |].
  apply (rope_insert_empty_rope rope_init 0 hello_world).
  - reflexivity.
  - reflexivity.
  - reflexivity.
Defined.

(** [insert (pos = 14, "!")] on ["Hello, World!"]. *)
Lemma rope_insert_out_of_range_witness :
  wf (root hello_rope)
  /\ root hello_rope <> nullptr
  /\ Zlength (content (root hello_rope)) < 14
  /\ 0 < Zlength ["!"%byte]
  /\ (rope_insert hello_rope 14 ["!"%byte] = None).
Proof.
  split; [exact (proj1 hello_rope_ok) |].
  split; [discriminate |].
  split; [reflexivity |].
  split; [reflexivity |].
  apply (rope_insert_out_of_range hello_rope 14 ["!"%byte]).
  - exact (proj1 hello_rope_ok).
  - discriminate.
  - reflexivity.
  - reflexivity.
Defined.

(** ["Hello, World!"] from [rope_from_string]. *)
Lemma reachable_well_formed_witness :
  reachable hello_rope
  /\ (wf (root hello_rope)
    /\ Forall (fun d => Zlength d <= ROPE_NODE_CAPACITY) (leaves (root hello_rope))
    /\ no_null_child (root hello_rope) = true
    /\ rope_node_get_height (root hello_rope) = tree_height (root hello_rope)
    /\ Zlength (content (root hello_rope)) <= total_length hello_rope).
Proof.
  split; [exact hello_rope_reachable |].
  apply (reachable_well_formed hello_rope).
  - exact hello_rope_reachable.
Defined.

(** ["Hello, World!"] from [rope_from_string]. *)
Lemma reachable_within_capacity_ok_witness :
  reachable_within_capacity hello_rope
  /\ (rope_ok hello_rope
    /\ total_length hello_rope = Zlength (content (root hello_rope))
    /\ rope_to_string (fun _ => xff) hello_rope = Some (content (root hello_rope) ++ [NUL])).
Proof.
  split; [exact hello_rope_within_capacity |].
  apply (reachable_within_capacity_ok (fun _ => xff) hello_rope).
  - exact hello_rope_within_capacity.
Defined.

(** The leaf ["a"] over [three_leaves]: the heights differ by 2, the
    balancer rotates to the left. *)
Lemma rope_node_balance_restores_witness :
  wf (rope_node_create_leaf ["a"%byte])
  /\ wf three_leaves
  /\ (rope_node_create_leaf ["a"%byte]) <> nullptr
  /\ three_leaves <> nullptr
  /\ avl_balanced (rope_node_create_leaf ["a"%byte]) = true
  /\ avl_balanced three_leaves = true
  /\ -2 <= tree_height (rope_node_create_leaf ["a"%byte]) - tree_height three_leaves <= 2
  /\ (exists t,
      rope_node_balance (Node (rope_node_create_leaf ["a"%byte]) three_leaves 0 0 false []) = Some t
      /\ wf t /\ avl_balanced t = true
      /\ leaves t = leaves (rope_node_create_leaf ["a"%byte]) ++ leaves three_leaves
      /\ content t = content (rope_node_create_leaf ["a"%byte]) ++ content three_leaves).
Proof.
  split; [apply wf_create_leaf |].
  split; [exact three_leaves_wf |].
  split; [discriminate |].
  split; [vm_compute; discriminate |].
  split; [reflexivity |].
  split; [reflexivity |].
  split; [vm_compute; split; discriminate |].
  apply (rope_node_balance_restores (rope_node_create_leaf ["a"%byte]) three_leaves 0 0 []).
  - apply wf_create_leaf.
  - exact three_leaves_wf.
  - discriminate.
  - vm_compute; discriminate.
  - reflexivity.
  - reflexivity.
  - vm_compute; split; discriminate.
Defined.

(** [insert (pos = 5, "!")] on [full_leaf_rope]: the full leaf is split, the
    balancer rotates the root to the right. *)
Lemma rope_insert_balanced_witness :
  wf (root full_leaf_rope)
  /\ avl_balanced (root full_leaf_rope) = true
  /\ 0 <= 5 <= Zlength (content (root full_leaf_rope))
  /\ Zlength ["!"%byte] <= ROPE_NODE_CAPACITY
  /\ (exists rope',
      rope_insert full_leaf_rope 5 ["!"%byte] = Some rope'
      /\ wf (root rope') /\ avl_balanced (root rope') = true).
Proof.
  split; [exact full_leaf_rope_wf |].
  split; [reflexivity |].
  split; [vm_compute; split; discriminate |].
  split; [vm_compute; discriminate |].
  apply (rope_insert_balanced full_leaf_rope 5 ["!"%byte]).
  - exact full_leaf_rope_wf.
  - reflexivity.
  - vm_compute; split; discriminate.
  - vm_compute; discriminate.
Defined.

(** [delete (pos = 0, len = 1)] on [five_leaves_rope]: the left subtree
    collapses to a leaf, the balancer rotates the root to the left. *)
Lemma rope_delete_one_byte_balanced_witness :
  wf (root five_leaves_rope)
  /\ avl_balanced (root five_leaves_rope) = true
  /\ 0 <= 0
  /\ (exists rope',
      rope_delete five_leaves_rope 0 1 = Some rope'
      /\ wf (root rope') /\ avl_balanced (root rope') = true).
Proof.
  split; [exact five_leaves_rope_wf |].
  split; [reflexivity |].
  split; [lia |].
  apply (rope_delete_one_byte_balanced five_leaves_rope 0).
  - exact five_leaves_rope_wf.
  - reflexivity.
  - lia.
Defined.

(** The line start of position 4 of the two lines. *)
Lemma editor_line_start_is_line_start_witness :
  0 <= 4
  /\ (exists ls,
      editor_line_start lines_rope 4 = Some ls
      /\ 0 <= ls <= 4
      /\ (ls = 0 \/ rope_char_at lines_rope (ls - 1) = Some newline)
      /\ forall i, ls <= i < 4 -> rope_char_at lines_rope i <> Some newline).
Proof.
  split; [lia |].
  apply (editor_line_start_is_line_start lines_rope 4).
  - lia.
Defined.

(** The line end of position 0 of the two lines. *)
Lemma editor_line_end_is_line_end_witness :
  0 <= 0
  /\ (exists le,
      editor_line_end lines_rope 0 = Some le
      /\ 0 <= le <= Z.max 0 (rope_length lines_rope)
      /\ (le < rope_length lines_rope -> rope_char_at lines_rope le = Some newline)
      /\ forall i, 0 <= i < le -> rope_char_at lines_rope i <> Some newline).
Proof.
  split; [lia |].
  apply (editor_line_end_is_line_end lines_rope 0).
  - lia.
Defined.

(** The line number of position 4 of the two lines. *)
Lemma editor_get_line_number_newlines_witness :
  0 <= 4
  /\ (editor_get_line_number lines_rope 4 =
    Some (1 + newlines (take (Z.min 4 (rope_length lines_rope))
                          (content (root lines_rope))))).
Proof.
  split; [lia |].
  apply (editor_get_line_number_newlines lines_rope 4).
  - lia.
Defined.

(** The second of the two lines. *)
Lemma editor_line_is_interval_witness :
  0 <= 4 <= rope_length lines_rope
  /\ (exists ls le,
      editor_line_start lines_rope 4 = Some ls
      /\ editor_line_end lines_rope 4 = Some le
      /\ ls <= 4 <= le /\ le <= rope_length lines_rope
      /\ forall p, ls <= p <= le ->
           editor_line_start lines_rope p = Some ls
           /\ editor_line_end lines_rope p = Some le
           /\ editor_get_column lines_rope p = Some (p - ls)).
Proof.
  split; [vm_compute; split; discriminate |].
  apply (editor_line_is_interval lines_rope 4).
  - vm_compute; split; discriminate.
Defined.

(** Up from the second of the two lines. *)
Lemma editor_move_up_previous_line_witness :
  0 <= cursor_pos lines_editor
  /\ 0 <= cursor_preferred_col lines_editor
  /\ (exists ls,
      editor_line_start (rope lines_editor) (cursor_pos lines_editor) = Some ls
      /\ (ls = 0 -> editor_move_up lines_editor = Some lines_editor)
      /\ (0 < ls ->
          exists pls cursor,
            editor_line_start (rope lines_editor) (ls - 1) = Some pls
            /\ editor_move_up lines_editor =
               Some (set_cursor lines_editor cursor (cursor_preferred_col lines_editor))
            /\ pls <= cursor <= ls - 1
            /\ cursor - pls = Z.min (cursor_preferred_col lines_editor) (ls - 1 - pls)
            /\ editor_line_start (rope lines_editor) cursor = Some pls
            /\ rope_char_at (rope lines_editor) (ls - 1) = Some newline)).
Proof.
  split; [vm_compute; discriminate |].
  split; [vm_compute; discriminate |].
  apply (editor_move_up_previous_line lines_editor).
  - vm_compute; discriminate.
  - vm_compute; discriminate.
Defined.

(** Down from the first of the two lines. *)
Lemma editor_move_down_next_line_witness :
  0 <= cursor_pos first_line_editor
  /\ 0 <= cursor_preferred_col first_line_editor
  /\ (exists le,
      editor_line_end (rope first_line_editor) (cursor_pos first_line_editor) = Some le
      /\ (rope_length (rope first_line_editor) <= le ->
          editor_move_down first_line_editor = Some first_line_editor)
      /\ (le < rope_length (rope first_line_editor) ->
          exists nle cursor,
            editor_line_end (rope first_line_editor) (le + 1) = Some nle
            /\ editor_move_down first_line_editor =
               Some (set_cursor first_line_editor cursor (cursor_preferred_col first_line_editor))
            /\ le + 1 <= cursor <= nle /\ nle <= rope_length (rope first_line_editor)
            /\ cursor - (le + 1)
               = Z.min (cursor_preferred_col first_line_editor) (nle - (le + 1))
            /\ editor_line_start (rope first_line_editor) cursor = Some (le + 1)
            /\ editor_line_end (rope first_line_editor) cursor = Some nle
            /\ rope_char_at (rope first_line_editor) le = Some newline)).
Proof.
  split; [vm_compute; discriminate |].
  split; [vm_compute; discriminate |].
  apply (editor_move_down_next_line first_line_editor).
  - vm_compute; discriminate.
  - vm_compute; discriminate.
Defined.

(** Home and End on the second of the two lines. *)
Lemma editor_move_home_end_witness :
  0 <= cursor_pos lines_editor <= rope_length (rope lines_editor)
  /\ (exists ls le,
      editor_line_start (rope lines_editor) (cursor_pos lines_editor) = Some ls
      /\ editor_line_end (rope lines_editor) (cursor_pos lines_editor) = Some le
      /\ editor_move_home lines_editor = Some (set_cursor lines_editor ls 0)
      /\ editor_move_end lines_editor = Some (set_cursor lines_editor le (le - ls))
      /\ (home <- editor_move_home lines_editor ;; editor_move_end home)
         = editor_move_end lines_editor
      /\ (end_ <- editor_move_end lines_editor ;; editor_move_home end_)
         = editor_move_home lines_editor).
Proof.
  split; [vm_compute; split; discriminate |].
  apply (editor_move_home_end lines_editor).
  - vm_compute; split; discriminate.
Defined.

(** A command with the first 5 bytes of ["Hello, World!"]. *)
Lemma editor_push_command_stacks_witness :
  0 <= 5 <= Zlength hello_world
  /\ (exists editor' dropped kept,
      editor_push_command hello_editor CMD_INSERT 6 hello_world 5 = Some editor'
      /\ undo_stack hello_editor = dropped ++ kept
      /\ undo_stack editor' =
         kept ++ [mkCommand CMD_INSERT 6 (take 5 hello_world ++ [NUL]) 5]
      /\ Zlength (undo_stack editor')
         = Z.min (Zlength (undo_stack hello_editor) + 1) MAX_UNDO_STACK
      /\ redo_stack editor' = []
      /\ rope editor' = rope hello_editor
      /\ cursor_pos editor' = cursor_pos hello_editor).
Proof.
  split; [vm_compute; split; discriminate |].
  apply (editor_push_command_stacks hello_editor CMD_INSERT 6 hello_world 5).
  - vm_compute; split; discriminate.
Defined.

(** ["Hello, World!"] pasted behind the comma of ["Hello, World!"]. *)
Lemma editor_paste_inserts_witness :
  rope_ok (rope hello_editor)
  /\ has_selection hello_editor = false
  /\ 0 <= cursor_pos hello_editor <= rope_length (rope hello_editor)
  /\ 0 < strlen hello_world <= ROPE_NODE_CAPACITY
  /\ (exists editor',
      editor_paste (fun _ => xff) hello_editor (Some hello_world) = Some editor'
      /\ content (root (rope editor'))
         = take (cursor_pos hello_editor) (content (root (rope hello_editor)))
           ++ c_str hello_world
           ++ drop (cursor_pos hello_editor) (content (root (rope hello_editor)))
      /\ rope_length (rope editor') = rope_length (rope hello_editor) + strlen hello_world
      /\ rope_ok (rope editor')
      /\ cursor_pos editor' = cursor_pos hello_editor + strlen hello_world
      /\ back (undo_stack editor')
         = Some (mkCommand CMD_INSERT (cursor_pos hello_editor)
                   (c_str hello_world ++ [NUL]) (strlen hello_world))
      /\ redo_stack editor' = []
      /\ rope_version editor' = rope_version hello_editor + 1).
Proof.
  split; [exact hello_rope_ok |].
  split; [reflexivity |].
  split; [vm_compute; split; discriminate |].
  split; [vm_compute; split; [reflexivity | discriminate] |].
  apply (editor_paste_inserts (fun _ => xff) hello_editor hello_world).
  - exact hello_rope_ok.
  - reflexivity.
  - vm_compute; split; discriminate.
  - vm_compute; split; [reflexivity | discriminate].
Defined.

(** The paste of ["Hello, World!"] undone. *)
Lemma editor_paste_undo_witness :
  rope_ok (rope hello_editor)
  /\ has_selection hello_editor = false
  /\ 0 <= cursor_pos hello_editor <= rope_length (rope hello_editor)
  /\ 0 < strlen hello_world <= ROPE_NODE_CAPACITY
  /\ (exists pasted undone,
      editor_paste (fun _ => xff) hello_editor (Some hello_world) = Some pasted
      /\ editor_undo pasted = Some undone
      /\ content (root (rope undone)) = content (root (rope hello_editor))
      /\ rope_length (rope undone) = rope_length (rope hello_editor)
      /\ rope_ok (rope undone)
      /\ cursor_pos undone = cursor_pos hello_editor
      /\ redo_stack undone
         = [mkCommand CMD_INSERT (cursor_pos hello_editor)
              (c_str hello_world ++ [NUL]) (strlen hello_world)]
      /\ rope_version undone = rope_version hello_editor + 2).
Proof.
  split; [exact hello_rope_ok |].
  split; [reflexivity |].
  split; [vm_compute; split; discriminate |].
  split; [vm_compute; split; [reflexivity | discriminate] |].
  apply (editor_paste_undo (fun _ => xff) hello_editor hello_world).
  - exact hello_rope_ok.
  - reflexivity.
  - vm_compute; split; discriminate.
  - vm_compute; split; [reflexivity | discriminate].
Defined.

(** The paste of ["Hello, World!"] undone and redone. *)
Lemma editor_paste_undo_redo_witness :
  rope_ok (rope hello_editor)
  /\ has_selection hello_editor = false
  /\ 0 <= cursor_pos hello_editor <= rope_length (rope hello_editor)
  /\ 0 < strlen hello_world <= ROPE_NODE_CAPACITY
  /\ (exists pasted undone redone,
      editor_paste (fun _ => xff) hello_editor (Some hello_world) = Some pasted
      /\ editor_undo pasted = Some undone
      /\ editor_redo undone = Some redone
      /\ content (root (rope redone)) = content (root (rope pasted))
      /\ rope_length (rope redone) = rope_length (rope pasted)
      /\ cursor_pos redone = cursor_pos pasted
      /\ undo_stack redone = undo_stack pasted
      /\ redo_stack redone = redo_stack pasted).
Proof.
  split; [exact hello_rope_ok |].
  split; [reflexivity |].
  split; [vm_compute; split; discriminate |].
  split; [vm_compute; split; [reflexivity | discriminate] |].
  apply (editor_paste_undo_redo (fun _ => xff) hello_editor hello_world).
  - exact hello_rope_ok.
  - reflexivity.
  - vm_compute; split; discriminate.
  - vm_compute; split; [reflexivity | discriminate].
Defined.

(** ["World"] copied. *)
Lemma editor_copy_selection_witness :
  has_selection hello_selection = true
  /\ rope_length (rope hello_selection) = leaf_length_sum (root (rope hello_selection))
  /\ 0 <= selection_start hello_selection <= rope_length (rope hello_selection)
  /\ 0 <= selection_end hello_selection <= rope_length (rope hello_selection)
  /\ (editor_copy (fun _ => xff) hello_selection =
    Some (Some (slice (content (root (rope hello_selection)))
                  (Z.min (selection_start hello_selection) (selection_end hello_selection))
                  (Z.abs (selection_end hello_selection - selection_start hello_selection))
                ++ [NUL]))).
Proof.
  split; [reflexivity |].
  split; [reflexivity |].
  split; [vm_compute; split; discriminate |].
  split; [vm_compute; split; discriminate |].
  apply (editor_copy_selection (fun _ => xff) hello_selection).
  - reflexivity.
  - reflexivity.
  - vm_compute; split; discriminate.
  - vm_compute; split; discriminate.
Defined.

(** ["World"] cut. *)
Lemma editor_cut_removes_witness :
  has_selection hello_selection = true
  /\ rope_ok (rope hello_selection)
  /\ 0 <= selection_start hello_selection <= rope_length (rope hello_selection)
  /\ 0 <= selection_end hello_selection <= rope_length (rope hello_selection)
  /\ (exists editor',
      editor_cut (fun _ => xff) (fun _ => xff) hello_selection = 
        Some (Some (slice hello_world 7 5 ++ [NUL]), editor')
      /\ content (root (rope editor'))
         = remove hello_world 7 5
      /\ rope_length (rope editor') = rope_length (rope hello_selection) - 5
      /\ rope_ok (rope editor')
      /\ cursor_pos editor' = 7
      /\ has_selection editor' = false
      /\ back (undo_stack editor')
         = Some (mkCommand CMD_DELETE 7 (slice hello_world 7 5 ++ [NUL]) 5)
      /\ redo_stack editor' = []).
Proof.
  split; [reflexivity |].
  split; [exact hello_rope_ok |].
  split; [vm_compute; split; discriminate |].
  split; [vm_compute; split; discriminate |].
  apply (editor_cut_removes (fun _ => xff) (fun _ => xff) hello_selection).
  - reflexivity.
  - exact hello_rope_ok.
  - vm_compute; split; discriminate.
  - vm_compute; split; discriminate.
Defined.

(** The cut of ["World"] undone. *)
Lemma editor_cut_undo_witness :
  has_selection hello_selection = true
  /\ rope_ok (rope hello_selection)
  /\ 0 <= selection_start hello_selection <= rope_length (rope hello_selection)
  /\ 0 <= selection_end hello_selection <= rope_length (rope hello_selection)
  /\ Z.abs (selection_end hello_selection - selection_start hello_selection) <= ROPE_NODE_CAPACITY
  /\ (exists clipboard cut undone,
      editor_cut (fun _ => xff) (fun _ => xff) hello_selection = Some (clipboard, cut)
      /\ editor_undo cut = Some undone
      /\ content (root (rope undone)) = content (root (rope hello_selection))
      /\ rope_length (rope undone) = rope_length (rope hello_selection)
      /\ rope_ok (rope undone)
      /\ cursor_pos undone
         = Z.max (selection_start hello_selection) (selection_end hello_selection)
      /\ has_selection undone = false
      /\ rope_version undone = rope_version hello_selection + 2).
Proof.
  split; [reflexivity |].
  split; [exact hello_rope_ok |].
  split; [vm_compute; split; discriminate |].
  split; [vm_compute; split; discriminate |].
  split; [vm_compute; discriminate |].
  apply (editor_cut_undo (fun _ => xff) (fun _ => xff) hello_selection).
  - reflexivity.
  - exact hello_rope_ok.
  - vm_compute; split; discriminate.
  - vm_compute; split; discriminate.
  - vm_compute; discriminate.
Defined.

(** ["World"] cut and pasted. *)
Lemma editor_cut_paste_witness :
  has_selection hello_selection = true
  /\ rope_ok (rope hello_selection)
  /\ 0 <= selection_start hello_selection <= rope_length (rope hello_selection)
  /\ 0 <= selection_end hello_selection <= rope_length (rope hello_selection)
  /\ 0 < 5 <= ROPE_NODE_CAPACITY
  /\ ~ In NUL (slice hello_world 7 5)
  /\ (exists clipboard cut pasted,
      editor_cut (fun _ => xff) (fun _ => xff) hello_selection = Some (Some clipboard, cut)
      /\ editor_paste (fun _ => xff) cut (Some clipboard) = Some pasted
      /\ content (root (rope pasted)) = content (root (rope hello_selection))
      /\ rope_length (rope pasted) = rope_length (rope hello_selection)
      /\ cursor_pos pasted
         = Z.max (selection_start hello_selection) (selection_end hello_selection)).
Proof.
  split; [reflexivity |].
  split; [exact hello_rope_ok |].
  split; [vm_compute; split; discriminate |].
  split; [vm_compute; split; discriminate |].
  split; [vm_compute; split; [reflexivity | discriminate] |].
  split; [vm_compute; intros H;
    repeat (destruct H as [H | H]; [discriminate H |]); exact H |].
  apply (editor_cut_paste (fun _ => xff) (fun _ => xff) (fun _ => xff) hello_selection).
  - reflexivity.
  - exact hello_rope_ok.
  - vm_compute; split; discriminate.
  - vm_compute; split; discriminate.
  - vm_compute; split; [reflexivity | discriminate].
  - vm_compute; intros H;
    repeat (destruct H as [H | H]; [discriminate H |]); exact H.
Defined.

(** Select All and Copy on ["Hello, World!"]. *)
Lemma editor_select_all_copy_witness :
  rope_length (rope hello_editor) = leaf_length_sum (root (rope hello_editor))
  /\ (editor_copy (fun _ => xff) (editor_select_all hello_editor)
    = Some (Some (content (root (rope hello_editor)) ++ [NUL]))
    /\ editor_copy (fun _ => xff) (editor_select_all hello_editor)
       = option_map Some (rope_to_string (fun _ => xff) (rope hello_editor))).
Proof.
  split; [reflexivity |].
  apply (editor_select_all_copy (fun _ => xff) (fun _ => xff) hello_editor).
  - reflexivity.
Defined.
